(** * Nexus-Knowledge backend: retrieval-augment-generate workflow and
      streaming session relay

    A shallow embedding of [Backend/app/core/rag_engine.py],
    [Backend/app/agents/graph.py] and the [chat_socket] handler of
    [Backend/main.py], followed by the properties established about them.

    Python [str] values are represented by [string], the UTF-8 encoding of
    the text.  Effects (printing, the vector store, the relational store,
    the model client, the websocket) act on an explicit [World]; Python
    exceptions are the [Raise] outcome of a computation, and the world
    reached when an exception is raised is kept, as in Python. *)

From Stdlib Require Import String Ascii List Bool Arith Lia.
From Stdlib Require Import DecimalString DecimalNat.
Import ListNotations.
Local Open Scope string_scope.
Local Open Scope nat_scope.

(** ** Python strings *)

Module Py.

Definition nl : string := String (ascii_of_nat 10) "".

(** [c] is an ASCII upper-case letter. *)
Definition is_upper (c : ascii) : bool :=
  let n := nat_of_ascii c in (65 <=? n) && (n <=? 90).

Definition lower_ascii (c : ascii) : ascii :=
  if is_upper c then ascii_of_nat (nat_of_ascii c + 32) else c.

(** [s.lower()].  Only the bytes of ASCII letters are mapped; the
    lower-case mapping of a character outside ASCII never yields one of
    the letters the callers look for, and its UTF-8 bytes are all above
    127, so membership tests on the result agree with Python's. *)
Fixpoint lower (s : string) : string :=
  match s with
  | EmptyString => EmptyString
  | String c rest => String (lower_ascii c) (lower rest)
  end.

(** [needle in hay] for strings. *)
Fixpoint contains (needle hay : string) : bool :=
  if String.prefix needle hay then true
  else match hay with
       | EmptyString => false
       | String _ rest => contains needle rest
       end.

(** [sep.join(parts)]. *)
Fixpoint join (sep : string) (parts : list string) : string :=
  match parts with
  | [] => ""
  | [p] => p
  | p :: rest => p ++ sep ++ join sep rest
  end.

(** A UTF-8 continuation byte (10xxxxxx). *)
Definition is_continuation (c : ascii) : bool :=
  let n := nat_of_ascii c in (128 <=? n) && (n <? 192).

(** [len(s)]: the number of code points. *)
Fixpoint len (s : string) : nat :=
  match s with
  | EmptyString => 0
  | String c rest => (if is_continuation c then 0 else 1) + len rest
  end.

(** [s[:n]]: the first [n] code points. *)
Fixpoint take (n : nat) (s : string) : string :=
  match s with
  | EmptyString => EmptyString
  | String c rest =>
      if is_continuation c then String c (take n rest)
      else match n with
           | 0 => EmptyString
           | S m => String c (take m rest)
           end
  end.

(** The encodings of the characters for which [str.isspace] holds:
    U+0009..U+000D, U+001C..U+0020, U+0085, U+00A0, U+1680,
    U+2000..U+200A, U+2028, U+2029, U+202F, U+205F and U+3000. *)
Definition space_width (s : string) : option nat :=
  match s with
  | EmptyString => None
  | String c0 r0 =>
      let b0 := nat_of_ascii c0 in
      if ((9 <=? b0) && (b0 <=? 13)) || ((28 <=? b0) && (b0 <=? 32))
      then Some 1
      else match r0 with
           | EmptyString => None
           | String c1 r1 =>
               let b1 := nat_of_ascii c1 in
               if (b0 =? 194) && ((b1 =? 133) || (b1 =? 160)) then Some 2
               else match r1 with
                    | EmptyString => None
                    | String c2 _ =>
                        let b2 := nat_of_ascii c2 in
                        if (b0 =? 225) && (b1 =? 154) && (b2 =? 128)
                        then Some 3
                        else if (b0 =? 226) && (b1 =? 128)
                                && (((128 <=? b2) && (b2 <=? 138))
                                    || (b2 =? 168) || (b2 =? 169)
                                    || (b2 =? 175))
                        then Some 3
                        else if (b0 =? 226) && (b1 =? 129) && (b2 =? 159)
                        then Some 3
                        else if (b0 =? 227) && (b1 =? 128) && (b2 =? 128)
                        then Some 3
                        else None
                    end
           end
  end.

Fixpoint drop (n : nat) (s : string) : string :=
  match n, s with
  | S m, String _ rest => drop m rest
  | _, _ => s
  end.

(** [s.lstrip()], by recursion on a bound on the number of characters. *)
Fixpoint lstrip_upto (bound : nat) (s : string) : string :=
  match bound with
  | 0 => s
  | S b =>
      match space_width s with
      | Some w => lstrip_upto b (drop w s)
      | None => s
      end
  end.

Definition lstrip (s : string) : string := lstrip_upto (String.length s) s.

(** The truth value of [s.strip()]: stripping leaves something exactly
    when stripping on the left does. *)
Definition strip_truthy (s : string) : bool :=
  match lstrip s with
  | EmptyString => false
  | String _ _ => true
  end.

(** [str(n)] and [f"{n}"] for a non-negative [int]. *)
Definition str_int (n : nat) : string :=
  NilZero.string_of_uint (Nat.to_uint n).

(** The truth value of a string: non-empty. *)
Definition truthy (s : string) : bool :=
  match s with
  | EmptyString => false
  | String _ _ => true
  end.

End Py.

(** ** Exceptions, effects and the collaborators *)

(** An instance of a subclass of [Exception], which is what the handlers
    [except Exception] of the code catch: its class name and [str(e)].
    Exits that are not exceptions of this kind (interrupts, cancellation
    of the coroutine) are not modelled. *)
Record PyException := mkExc { exc_class : string; exc_str : string }.

Definition ValueError (msg : string) : PyException := mkExc "ValueError" msg.

(** [str(KeyError(k))] is [repr(k)]; the keys used here are plain words. *)
Definition KeyError (key : string) : PyException :=
  mkExc "KeyError" ("'" ++ key ++ "'").

Definition IntegrityError (msg : string) : PyException :=
  mkExc "IntegrityError" msg.

Inductive Outcome (A : Type) : Type :=
| Ok (a : A)
| Raise (e : PyException).
Arguments Ok {A} a.
Arguments Raise {A} e.

(** [langchain_core.documents.Document]. *)
Inductive MetaValue := MInt (n : nat) | MStr (s : string).

Record Document := mkDocument {
  page_content : string;
  metadata : list (string * MetaValue)
}.

(** Rows of the relational store ([app/db/models.py]); generated
    identifiers and timestamps of messages are left out, rows are kept in
    insertion order, which is the order of [created_at]. *)
Record Conversation := mkConversation { conv_id : string; title : string }.

Record Message := mkMessage {
  conversation_id : string;
  role : string;
  content : string
}.

Record Database := mkDatabase {
  conversations : list Conversation;
  messages : list Message
}.

(** A JSON event sent to the client: [{"type": ..., "content": ...}]. *)
Record WsEvent := mkWsEvent { ev_type : string; ev_content : string }.

(** Calls made to the collaborators outside the repository. *)
Inductive ExtCall :=
| call_PyPDFLoader_load (file_path : string)
| call_convert_from_path (file_path : string) (poppler_path : option string)
| call_image_to_string (page_index : nat)
| call_Chroma_from_documents (chunks : list Document)
| call_Chroma (persist_directory : string)
| call_retriever_invoke (query : string)
| call_llm_invoke (prompt : string)
| call_astream_events (question : string).

Record World := mkWorld {
  stdout : list string;            (* lines printed, oldest first *)
  calls : list ExtCall;            (* collaborator calls, oldest first *)
  chroma_db : list Document;       (* the collection under ./chroma_db *)
  database : Database;
  db_faults : list (option PyException);
    (* storage failures to come: one entry per database session opened,
       [Some e] when the first use of that session raises [e] *)
  ws_sent : list WsEvent;          (* events sent on the websocket *)
  ws_open : bool                   (* accepted and not closed by the server *)
}.

Definition set_stdout (v : list string) (w : World) : World :=
  mkWorld v (calls w) (chroma_db w) (database w) (db_faults w) (ws_sent w)
          (ws_open w).
Definition set_calls (v : list ExtCall) (w : World) : World :=
  mkWorld (stdout w) v (chroma_db w) (database w) (db_faults w) (ws_sent w)
          (ws_open w).
Definition set_chroma_db (v : list Document) (w : World) : World :=
  mkWorld (stdout w) (calls w) v (database w) (db_faults w) (ws_sent w)
          (ws_open w).
Definition set_database (v : Database) (w : World) : World :=
  mkWorld (stdout w) (calls w) (chroma_db w) v (db_faults w) (ws_sent w)
          (ws_open w).
Definition set_db_faults (v : list (option PyException)) (w : World) : World :=
  mkWorld (stdout w) (calls w) (chroma_db w) (database w) v (ws_sent w)
          (ws_open w).
Definition set_ws_sent (v : list WsEvent) (w : World) : World :=
  mkWorld (stdout w) (calls w) (chroma_db w) (database w) (db_faults w) v
          (ws_open w).
Definition set_ws_open (v : bool) (w : World) : World :=
  mkWorld (stdout w) (calls w) (chroma_db w) (database w) (db_faults w)
          (ws_sent w) v.

Definition M (A : Type) : Type := World -> Outcome A * World.

Definition ret {A} (a : A) : M A := fun w => (Ok a, w).

Definition bind {A B} (c : M A) (k : A -> M B) : M B :=
  fun w => match c w with
           | (Ok a, w') => k a w'
           | (Raise e, w') => (Raise e, w')
           end.

Definition raise {A} (e : PyException) : M A := fun w => (Raise e, w).

(** [try: body  except Exception as e: handler e]. *)
Definition try_except {A} (body : M A) (handler : PyException -> M A) : M A :=
  fun w => match body w with
           | (Ok a, w') => (Ok a, w')
           | (Raise e, w') => handler e w'
           end.

(** [try: body  finally: final]. *)
Definition try_finally {A} (body : M A) (final : M unit) : M A :=
  fun w => match body w with
           | (r, w') => match final w' with
                        | (Ok _, w'') => (r, w'')
                        | (Raise e, w'') => (Raise e, w'')
                        end
           end.

Declare Scope py_scope.
Delimit Scope py_scope with py.
Notation "x <- c ;; k" := (bind c (fun x => k))
  (at level 61, c at next level, right associativity) : py_scope.
Notation "c ;;; k" := (bind c (fun _ => k))
  (at level 61, right associativity) : py_scope.
Local Open Scope py_scope.

(** Lifting the result of a collaborator into the computation. *)
Definition of_outcome {A} (o : Outcome A) : M A := fun w => (o, w).

Definition log_call (c : ExtCall) : M unit :=
  fun w => (Ok tt, set_calls (calls w ++ [c]) w).

Definition print (line : string) : M unit :=
  fun w => (Ok tt, set_stdout (stdout w ++ [line]) w).

Definition get_calls : M (list ExtCall) := fun w => (Ok (calls w), w).

(** [RecursiveCharacterTextSplitter(...)] as configured by [process_pdf]. *)
Record SplitterConfig := mkSplitter {
  chunk_size : nat;
  chunk_overlap : nat;
  separators : list string
}.

(** [vector_db.as_retriever(...)] as configured by [get_retriever]. *)
Record Retriever := mkRetriever {
  search_type : string;
  search_k : nat;
  search_fetch_k : nat
}.

(** An event yielded by [agent_graph.astream_events]: [event["event"]] and,
    for a model-stream event, [event["data"]["chunk"].content]. *)
Record AgentEvent := mkEvent { event_kind : string; chunk_content : string }.

(** One iteration over [agent_graph.astream_events(inputs, version="v1")]:
    the events yielded, and the exception that ends the iteration when it
    does not end normally. *)
Record AgentRun := mkRun {
  run_events : list AgentEvent;
  run_error : option PyException
}.

(** The collaborators the code imports: the PDF loader, the OCR tool chain,
    the text splitter, the vector store, the chat model and the event
    streaming of the compiled workflow.  Each field says what a call
    returns or raises. *)
Record Collaborators := mkCollaborators {
  Image : Type;
  OCR_AVAILABLE : bool;
  PyPDFLoader_load : string -> Outcome (list Document);
  (* [os.environ.get("LOCALAPPDATA", "")], [os.path.join], [os.path.exists] *)
  environ_LOCALAPPDATA : string;
  os_path_join : list string -> string;
  os_path_exists : string -> bool;
  convert_from_path : string -> nat -> option string -> Outcome (list Image);
  image_to_string : Image -> Outcome string;
  split_documents : SplitterConfig -> list Document -> list Document;
  Chroma_from_documents : list Document -> option PyException;
  (* what opening the collection, [Chroma(persist_directory=...)],
     raises, if it does *)
  Chroma_init : string -> option PyException;
  mmr_search : list Document -> Retriever -> string -> Outcome (list Document);
  (* the chat model, given the calls made before and the prompt *)
  llm_invoke : list ExtCall -> string -> Outcome string;
  (* the event stream of the compiled workflow, given the calls made
     before and the question *)
  astream_events : list ExtCall -> string -> AgentRun;
  (* what the relational store reports when a row refers to a
     conversation that does not exist *)
  foreign_key_violation : string
}.

(** ** [app/core/rag_engine.py] *)

Module RAGEngine.
Section Engine.

Variable E : Collaborators.

Definition persist_directory : string := "./chroma_db".

Definition possible_poppler_paths : list string :=
  [os_path_join E [environ_LOCALAPPDATA E; "poppler"; "poppler-24.08.0";
                   "Library"; "bin"];
   os_path_join E [environ_LOCALAPPDATA E; "poppler"; "Library"; "bin"];
   "C:\Program Files\poppler\Library\bin";
   "C:\Program Files\poppler-24.08.0\Library\bin"].

(** The first candidate directory that exists, if any. *)
Definition find_poppler_path : option string :=
  List.find (os_path_exists E) possible_poppler_paths.

(** The loop [for i, image in enumerate(images)] of
    [extract_text_with_ocr], from index [i] on. *)
Fixpoint ocr_pages (file_path : string) (i : nat) (images : list (Image E))
         (documents : list Document) : M (list Document) :=
  match images with
  | [] => ret documents
  | image :: rest =>
      log_call (call_image_to_string i) ;;;
      text <- of_outcome (image_to_string E image) ;;
      if Py.strip_truthy text then
        print ("OCR extracted " ++ Py.str_int (Py.len text)
               ++ " characters from page " ++ Py.str_int (i + 1)) ;;;
        ocr_pages file_path (S i) rest
          (documents ++ [mkDocument text
                           [("page", MInt (i + 1));
                            ("source", MStr file_path);
                            ("extraction", MStr "ocr")]])%list
      else ocr_pages file_path (S i) rest documents
  end.

Definition extract_text_with_ocr (file_path : string) : M (list Document) :=
  if negb (OCR_AVAILABLE E) then
    raise (ValueError
      "OCR libraries not installed. Please install pdf2image and pytesseract.")
  else
    print "Attempting OCR extraction..." ;;;
    try_except
      (let poppler_path := find_poppler_path in
       log_call (call_convert_from_path file_path poppler_path) ;;;
       images <- of_outcome (convert_from_path E file_path 300 poppler_path) ;;
       ocr_pages file_path 0 images [])
      (fun e =>
         print ("OCR extraction failed: " ++ exc_str e) ;;;
         raise (ValueError
           ("OCR extraction failed: " ++ exc_str e
            ++ ". Make sure Tesseract OCR and Poppler are installed."))).

Definition text_splitter : SplitterConfig :=
  mkSplitter 400 80
    [Py.nl ++ Py.nl ++ Py.nl; Py.nl ++ Py.nl; Py.nl; ". "; " "; ""].

(** [Chroma.from_documents]: embeds the chunks and appends them to the
    persisted collection, or raises. *)
Definition chroma_from_documents (chunks : list Document) : M unit :=
  log_call (call_Chroma_from_documents chunks) ;;;
  match Chroma_from_documents E chunks with
  | Some e => raise e
  | None =>
      fun w => (Ok tt, set_chroma_db (chroma_db w ++ chunks) w)
  end.

(** The pages that direct extraction leaves with text. *)
Definition nonblank_pages (documents : list Document) : list Document :=
  filter (fun doc => Py.strip_truthy (page_content doc)) documents.

(** [process_pdf], lines 84-99: the text pages of the file, from direct
    extraction or else from OCR. *)
Definition extract_text (file_path : string) : M (list Document) :=
  log_call (call_PyPDFLoader_load file_path) ;;;
  documents <- of_outcome (PyPDFLoader_load E file_path) ;;
  let text_documents := nonblank_pages documents in
  text_documents <-
    (match text_documents with
     | [] =>
         print "No text found with regular extraction, attempting OCR..." ;;;
         try_except (extract_text_with_ocr file_path)
           (fun e => raise (ValueError
              ("PDF has no extractable text and OCR failed: " ++ exc_str e)))
     | _ :: _ => ret text_documents
     end) ;;
  match text_documents with
  | [] =>
      raise (ValueError
        "Could not extract any text from PDF (tried both regular extraction and OCR)")
  | _ :: _ => ret text_documents
  end.

(** [process_pdf], lines 101-121: splitting, indexing and the summary. *)
Definition index_text (text_documents : list Document) : M string :=
  let chunks := split_documents E text_splitter text_documents in
  match chunks with
  | [] => raise (ValueError "Could not extract any text chunks from the PDF")
  | _ :: _ =>
      print ("Starting local ingestion for "
             ++ Py.str_int (length chunks) ++ " chunks...") ;;;
      chroma_from_documents chunks ;;;
      print ("Successfully indexed "
             ++ Py.str_int (length chunks) ++ " chunks locally.") ;;;
      ret ("Successfully processed "
           ++ Py.str_int (length chunks) ++ " text chunks")
  end.

Definition process_pdf (file_path : string) : M string :=
  text_documents <- extract_text file_path ;;
  index_text text_documents.

(** [get_retriever]: the collection is opened, or created when the
    directory does not hold one, at every call; [as_retriever] then only
    records the search settings. *)
Definition get_retriever : M Retriever :=
  log_call (call_Chroma persist_directory) ;;;
  match Chroma_init E persist_directory with
  | Some e => raise e
  | None => ret (mkRetriever "mmr" 1 5)
  end.

(** [retriever.invoke(query)] on the persisted collection. *)
Definition retriever_invoke (r : Retriever) (query : string)
  : M (list Document) :=
  log_call (call_retriever_invoke query) ;;;
  fun w => (mmr_search E (chroma_db w) r query, w).

End Engine.
End RAGEngine.

(** ** [app/agents/graph.py] *)

Module Graph.

(** [AgentState]: a dict with the keys of the [TypedDict]; a field is
    [None] when the key is absent, as in the inputs [{"question": q}]
    and in the partial updates the nodes return. *)
Record AgentState := mkState {
  question : option string;
  documents : option (list string);
  answer : option string;
  run_web_search : option bool
}.

(** [state[key]]. *)
Definition getitem {A} (key : string) (field : option A) : M A :=
  match field with
  | Some v => ret v
  | None => raise (KeyError key)
  end.

(** The truth value of [state.get("answer")]. *)
Definition has_answer (state : AgentState) : bool :=
  match answer state with
  | Some a => Py.truthy a
  | None => false
  end.

Section Nodes.

Variable E : Collaborators.

Definition invoke_llm (prompt : string) : M string :=
  history <- get_calls ;;
  log_call (call_llm_invoke prompt) ;;;
  of_outcome (llm_invoke E history prompt).

Definition retrieve_node (state : AgentState) : M AgentState :=
  retriever <- RAGEngine.get_retriever E ;;
  q <- getitem "question" (question state) ;;
  docs <- RAGEngine.retriever_invoke E retriever q ;;
  ret (mkState None (Some (map page_content docs)) None (Some false)).

Definition grade_prompt (q doc : string) : string :=
  "Is this document relevant to: " ++ q
  ++ "? Answer only 'yes' or 'no'." ++ Py.nl ++ "Doc: " ++ doc.

(** The loop [for doc in documents] of [grade_documents_node]. *)
Fixpoint grade_loop (state : AgentState) (documents : list string)
         (filtered_docs : list string) : M (list string) :=
  match documents with
  | [] => ret filtered_docs
  | doc :: rest =>
      q <- getitem "question" (question state) ;;
      let prompt := grade_prompt q doc in
      filtered_docs <-
        try_except
          (res <- invoke_llm prompt ;;
           if Py.contains "yes" (Py.lower res)
           then ret (filtered_docs ++ [doc])%list
           else ret filtered_docs)
          (fun e =>
             print ("Error grading document: " ++ exc_str e) ;;;
             ret (filtered_docs ++ [doc])%list) ;;
      grade_loop state rest filtered_docs
  end.

(** The value of the local variable [search] at the [return]. *)
Definition search_flag (filtered_docs : list string) : bool :=
  match filtered_docs with
  | [] => true
  | _ :: _ => false
  end.

Definition grade_documents_node (state : AgentState) : M AgentState :=
  documents <- getitem "documents" (documents state) ;;
  filtered_docs <- grade_loop state documents [] ;;
  let search := search_flag filtered_docs in
  ret (mkState None (Some filtered_docs) None None).

Definition generate_prompt (context q : string) : string :=
  "Based on the following context, answer the question."
  ++ Py.nl ++ Py.nl ++ "Context: " ++ context
  ++ Py.nl ++ Py.nl ++ "Question: " ++ q
  ++ Py.nl ++ Py.nl ++ "Answer:".

Definition generative_node (state : AgentState) : M AgentState :=
  if has_answer state then ret state
  else
    docs <- getitem "documents" (documents state) ;;
    let context := Py.join (Py.nl ++ Py.nl) docs in
    q <- getitem "question" (question state) ;;
    let prompt := generate_prompt context q in
    try_except
      (response_content <- invoke_llm prompt ;;
       ret (mkState None None (Some response_content) None))
      (fun e => ret (mkState None None (Some ("Error: " ++ exc_str e)) None)).

Definition decide_to_generate (state : AgentState) : string := "generate".

(** How the compiled graph folds the dict a node returns into the state:
    each key of the update replaces the value held for that key. *)
Definition apply_update (state update : AgentState) : AgentState :=
  let pick {A} (new old : option A) : option A :=
    match new with Some _ => new | None => old end in
  mkState (pick (question update) (question state))
          (pick (documents update) (documents state))
          (pick (answer update) (answer state))
          (pick (run_web_search update) (run_web_search state)).

Definition run_node (node : AgentState -> M AgentState) (state : AgentState)
  : M AgentState :=
  update <- node state ;;
  ret (apply_update state update).

(** The wiring: entry point [retrieve], edge to [grade], the conditional
    edge whose only target is [generate], edge to [END]. *)
Definition agent_graph (inputs : AgentState) : M AgentState :=
  s1 <- run_node retrieve_node inputs ;;
  s2 <- run_node grade_documents_node s1 ;;
  if String.eqb (decide_to_generate s2) "generate"
  then run_node generative_node s2
  else ret s2.

End Nodes.
End Graph.

(** ** The relational store as the handler uses it *)

Module Db.

(** A session of [SessionLocal] ([autocommit=False], [autoflush=False]):
    rows added and attribute changes stay pending until [commit]. *)
Record Session := mkSession {
  session_fault : option PyException;
  pending : list Message;
  pending_title : option (string * string)
}.

Definition get_db_session : M Session :=
  fun w => match db_faults w with
           | [] => (Ok (mkSession None [] None), w)
           | f :: rest => (Ok (mkSession f [] None), set_db_faults rest w)
           end.

(** [db.query(Conversation).filter(Conversation.id == cid).first()]. *)
Definition query_conversation_first (db : Session) (cid : string)
  : M (option Conversation) :=
  match session_fault db with
  | Some e => raise e
  | None =>
      fun w => (Ok (List.find (fun c => String.eqb (conv_id c) cid)
                              (conversations (database w))), w)
  end.

(** [conversation.messages]: the committed rows of the conversation. *)
Definition conversation_messages (conversation : Conversation)
  : M (list Message) :=
  fun w => (Ok (filter (fun m => String.eqb (conversation_id m)
                                            (conv_id conversation))
                       (messages (database w))), w).

Definition add (db : Session) (m : Message) : Session :=
  mkSession (session_fault db) (pending db ++ [m]) (pending_title db).

Definition set_title (db : Session) (conversation : Conversation)
           (t : string) : Session :=
  mkSession (session_fault db) (pending db)
            (Some (conv_id conversation, t)).

Definition retitle (change : option (string * string)) (c : Conversation)
  : Conversation :=
  match change with
  | Some (cid, t) => if String.eqb (conv_id c) cid
                     then mkConversation (conv_id c) t else c
  | None => c
  end.

(** Every pending message refers to an existing conversation: the
    constraint [ForeignKey("conversations.id")], [nullable=False] of
    [Message.conversation_id], which the store checks at commit. *)
Definition references_ok (d : Database) (ms : list Message) : bool :=
  forallb (fun m => existsb (fun c => String.eqb (conv_id c)
                                                 (conversation_id m))
                            (conversations d)) ms.

Definition commit (violation : string) (db : Session) : M unit :=
  match session_fault db with
  | Some e => raise e
  | None =>
      fun w =>
        let d := database w in
        if references_ok d (pending db) then
          (Ok tt, set_database
                    (mkDatabase (map (retitle (pending_title db))
                                     (conversations d))
                                (messages d ++ pending db)) w)
        else (Raise (IntegrityError violation), w)
  end.

(** [db.close()]: what is still pending is dropped. *)
Definition close (db : Session) : M unit := ret tt.

End Db.

(** ** [main.py]: the websocket handler [chat_socket] *)

Module Main.
Section Handler.

Variable E : Collaborators.

(** [await websocket.send_json(ev)].  The channel is taken to accept
    every frame written during a turn; the client going away is observed
    by [receive_text]. *)
Definition send_json (ev : WsEvent) : M unit :=
  fun w => (Ok tt, set_ws_sent (ws_sent w ++ [ev]) w).

Definition status_event : WsEvent := mkWsEvent "status" "Thinking...".
Definition chunk_event (content : string) : WsEvent :=
  mkWsEvent "chunk" content.
Definition end_event : WsEvent := mkWsEvent "end" "".

Definition rate_limit_advisory : string :=
  "⚠️ Rate limit reached. Please wait about 60 seconds before asking another question.".

(** The body of [async for event in agent_graph.astream_events(...)],
    over the events the iteration yields. *)
Fixpoint stream_loop (events : list AgentEvent)
         (assistant_response : string) : M string :=
  match events with
  | [] => ret assistant_response
  | event :: rest =>
      let kind := event_kind event in
      if String.eqb kind "on_chain_start" then
        send_json status_event ;;;
        stream_loop rest assistant_response
      else if String.eqb kind "on_chat_model_stream" then
        let content := chunk_content event in
        if Py.truthy content then
          send_json (chunk_event content) ;;;
          stream_loop rest (assistant_response ++ content)
        else stream_loop rest assistant_response
      else stream_loop rest assistant_response
  end.

(** The whole [async for]: the events are handled in order, then the
    iteration either ends or raises. *)
Definition stream_events (query : string) : M string :=
  history <- get_calls ;;
  log_call (call_astream_events query) ;;;
  let run := astream_events E history query in
  assistant_response <- stream_loop (run_events run) "" ;;
  match run_error run with
  | Some e => raise e
  | None => ret assistant_response
  end.

(** [inputs = {"question": query}]. *)
Definition inputs (query : string) : Graph.AgentState :=
  Graph.mkState (Some query) None None None.

Definition title_of (query : string) : string :=
  Py.take 50 query ++ (if 50 <? Py.len query then "..." else "").

(** Lines 231-245: saving the user message. *)
Definition save_user_message (conversation_id query : string) : M unit :=
  db <- Db.get_db_session ;;
  try_finally
    (try_except
       (conversation <- Db.query_conversation_first db conversation_id ;;
        match conversation with
        | Some conv =>
            let user_msg := mkMessage conversation_id "user" query in
            let db := Db.add db user_msg in
            held <- Db.conversation_messages conv ;;
            let db := if length held =? 0
                      then Db.set_title db conv (title_of query)
                      else db in
            Db.commit (foreign_key_violation E) db
        | None => ret tt
        end)
       (fun db_error =>
          print ("Error saving user message: " ++ exc_str db_error)))
    (Db.close db).

(** Lines 264-274: saving the assistant message. *)
Definition save_assistant_message (conversation_id assistant_response : string)
  : M unit :=
  if Py.truthy assistant_response then
    db <- Db.get_db_session ;;
    try_finally
      (try_except
         (let assistant_msg :=
            mkMessage conversation_id "assistant" assistant_response in
          let db := Db.add db assistant_msg in
          Db.commit (foreign_key_violation E) db)
         (fun db_error =>
            print ("Error saving assistant message: " ++ exc_str db_error)))
      (Db.close db)
  else ret tt.

Definition is_rate_limit (error_msg : string) : bool :=
  Py.contains "429" error_msg || Py.contains "RESOURCE_EXHAUSTED" error_msg.

(** Lines 276-288: the handler of [except Exception as agent_error]. *)
Definition on_agent_error (agent_error : PyException) : M unit :=
  let error_msg := exc_str agent_error in
  (if is_rate_limit error_msg
   then send_json (chunk_event rate_limit_advisory)
   else send_json (chunk_event ("Error processing request: " ++ error_msg))) ;;;
  send_json end_event.

(** One iteration of [while True], after [receive_text] returned [query]. *)
Definition chat_turn (conversation_id query : string) : M unit :=
  save_user_message conversation_id query ;;;
  try_except
    (assistant_response <- stream_events query ;;
     send_json end_event ;;;
     save_assistant_message conversation_id assistant_response)
    on_agent_error.

Definition WebSocketDisconnect : PyException :=
  mkExc "WebSocketDisconnect" "".

(** [while True] over the texts the client sends before it goes away:
    [receive_text] then raises [WebSocketDisconnect]. *)
Fixpoint receive_loop (conversation_id : string) (incoming : list string)
  : M unit :=
  match incoming with
  | [] => raise WebSocketDisconnect
  | query :: rest =>
      chat_turn conversation_id query ;;;
      receive_loop conversation_id rest
  end.

Definition websocket_accept : M unit :=
  fun w => (Ok tt, set_ws_open true w).
Definition websocket_close : M unit :=
  fun w => (Ok tt, set_ws_open false w).

Definition chat_socket (conversation_id : string) (incoming : list string)
  : M unit :=
  websocket_accept ;;;
  connection_closed <-
    try_except
      (receive_loop conversation_id incoming ;;; ret false)
      (fun e =>
         if String.eqb (exc_class e) "WebSocketDisconnect" then
           print "WebSocket disconnected by client" ;;; ret true
         else
           print ("WebSocket Error: " ++ exc_str e) ;;; ret false) ;;
  if negb connection_closed
  then try_except websocket_close (fun _ => ret tt)
  else ret tt.

End Handler.
End Main.

(** ** Concrete collaborators and worlds used to exercise the code *)

Module Scenarios.

Definition quota_error : PyException :=
  mkExc "ResourceExhausted" "429 RESOURCE_EXHAUSTED: quota exceeded".

Definition page (text : string) (n : nat) : Document :=
  mkDocument text [("source", MStr "cv.pdf"); ("page", MInt n)].

(** A deployment whose chat model rejects every call and whose vector
    store returns two chunks for any question. *)
Definition model_down : Collaborators :=
  mkCollaborators unit true
    (fun _ => Ok []) "" (Py.join "/") (fun _ => false)
    (fun _ _ _ => Ok []) (fun _ => Ok "")
    (fun _ docs => docs) (fun _ => None) (fun _ => None)
    (fun _ _ _ => Ok [page "Senior engineer" 0; page "Skills: Rocq" 1])
    (fun _ _ => Raise quota_error)
    (fun _ _ => mkRun [] None)
    "insert or update on table messages violates foreign key constraint".

(** A deployment whose vector store returns one chunk that the chat
    model judges irrelevant. *)
Definition off_topic : Collaborators :=
  mkCollaborators unit true
    (fun _ => Ok []) "" (Py.join "/") (fun _ => false)
    (fun _ _ _ => Ok []) (fun _ => Ok "")
    (fun _ docs => docs) (fun _ => None) (fun _ => None)
    (fun _ _ _ => Ok [page "Lorem ipsum" 0])
    (fun _ _ => Ok "No.")
    (fun _ _ => mkRun [] None)
    "insert or update on table messages violates foreign key constraint".

(** A PDF with three pages of text and a blank one; the splitter is taken
    to return one chunk per page it is given. *)
Definition text_pdf : Collaborators :=
  mkCollaborators string true
    (fun _ => Ok [page "Curriculum vitae" 0; page "   " 1;
                  page "Senior engineer" 2; page "Skills: Rocq" 3])
    "" (Py.join "/") (fun _ => false)
    (fun _ _ _ => Ok []) (fun image => Ok image)
    (fun _ docs => docs) (fun _ => None) (fun _ => None)
    (fun _ _ _ => Ok [])
    (fun _ _ => Ok "yes")
    (fun _ _ => mkRun [] None)
    "insert or update on table messages violates foreign key constraint".

(** A scanned PDF: no text layer, and OCR reads nothing on either page. *)
Definition scanned_blank : Collaborators :=
  mkCollaborators string true
    (fun _ => Ok [page "" 0; page "  " 1])
    "" (Py.join "/") (fun _ => false)
    (fun _ _ _ => Ok [""; " "]) (fun image => Ok image)
    (fun _ docs => docs) (fun _ => None) (fun _ => None)
    (fun _ _ _ => Ok [])
    (fun _ _ => Ok "yes")
    (fun _ _ => mkRun [] None)
    "insert or update on table messages violates foreign key constraint".

Definition chain_start : AgentEvent := mkEvent "on_chain_start" "".
Definition chain_end : AgentEvent := mkEvent "on_chain_end" "".
Definition token (content : string) : AgentEvent :=
  mkEvent "on_chat_model_stream" content.

(** A deployment described by what its chat model does at every call and
    by the stream its workflow produces; its vector store is empty. *)
Definition streaming (model : Outcome string) (run : AgentRun)
  : Collaborators :=
  mkCollaborators unit true
    (fun _ => Ok []) "" (Py.join "/") (fun _ => false)
    (fun _ _ _ => Ok []) (fun _ => Ok "")
    (fun _ docs => docs) (fun _ => None) (fun _ => None)
    (fun _ _ _ => Ok [])
    (fun _ _ => model)
    (fun _ _ => run)
    "insert or update on table messages violates foreign key constraint".

(** The model answers ["Hello"], streamed in two tokens. *)
Definition greeting : Collaborators :=
  streaming (Ok "Hello")
    (mkRun [chain_start; token "Hel"; token ""; token "lo"; chain_end] None).

(** The model rejects its call, which the generation node turns into its
    answer: the workflow ends normally without streaming any text; the
    graph and one of its nodes each report their start. *)
Definition silent_run : Collaborators :=
  streaming (Raise quota_error)
    (mkRun [chain_start; chain_start; chain_end; chain_end] None).

(** The embedding of the question is refused for lack of quota: the
    retriever raises, and so does the stream of the workflow, after the
    start of the graph was reported. *)
Definition rate_limited : Collaborators :=
  mkCollaborators unit true
    (fun _ => Ok []) "" (Py.join "/") (fun _ => false)
    (fun _ _ _ => Ok []) (fun _ => Ok "")
    (fun _ docs => docs) (fun _ => None) (fun _ => None)
    (fun _ _ _ => Raise quota_error)
    (fun _ _ => Ok "yes")
    (fun _ _ => mkRun [chain_start] (Some quota_error))
    "insert or update on table messages violates foreign key constraint".

(** A world in which conversation [c1] exists and has no message yet. *)
Definition open_chat : World :=
  mkWorld [] [] [] (mkDatabase [mkConversation "c1" "New Chat"] []) [] [] true.

Definition fresh_world : World :=
  mkWorld [] [] [] (mkDatabase [] []) [] [] false.

Definition asked (q : string) : Graph.AgentState :=
  Graph.mkState (Some q) None None None.

Definition answered : Graph.AgentState :=
  Graph.mkState (Some "What is the candidate's title?")
                (Some ["Senior engineer"]) (Some "Senior engineer.")
                (Some false).

Definition graded : Graph.AgentState :=
  Graph.mkState (Some "What is the candidate's title?")
                (Some ["Senior engineer"; "Skills: Rocq"]) None
                (Some false).

End Scenarios.

(** ** [main.py]: the websocket handler without a conversation *)

Module Legacy.
Section Handler.

Variable E : Collaborators.

(** The body of [async for] in [chat_socket_legacy]: nothing is
    accumulated. *)
Fixpoint stream_loop (events : list AgentEvent) : M unit :=
  match events with
  | [] => ret tt
  | event :: rest =>
      let kind := event_kind event in
      if String.eqb kind "on_chain_start" then
        Main.send_json (mkWsEvent "status" "Thinking...") ;;;
        stream_loop rest
      else if String.eqb kind "on_chat_model_stream" then
        let content := chunk_content event in
        if Py.truthy content then
          Main.send_json (mkWsEvent "chunk" content) ;;;
          stream_loop rest
        else stream_loop rest
      else stream_loop rest
  end.

Definition stream_events (query : string) : M unit :=
  history <- get_calls ;;
  log_call (call_astream_events query) ;;;
  let run := astream_events E history query in
  stream_loop (run_events run) ;;;
  match run_error run with
  | Some e => raise e
  | None => ret tt
  end.

(** Lines 326-338. *)
Definition on_agent_error (agent_error : PyException) : M unit :=
  let error_msg := exc_str agent_error in
  (if Py.contains "429" error_msg
      || Py.contains "RESOURCE_EXHAUSTED" error_msg
   then Main.send_json
          (mkWsEvent "chunk"
             "⚠️ Rate limit reached. Please wait about 60 seconds before asking another question.")
   else Main.send_json
          (mkWsEvent "chunk" ("Error processing request: " ++ error_msg))) ;;;
  Main.send_json (mkWsEvent "end" "").

(** One iteration of [while True], after [receive_text] returned [query]. *)
Definition chat_turn (query : string) : M unit :=
  try_except
    (stream_events query ;;;
     Main.send_json (mkWsEvent "end" ""))
    on_agent_error.

Fixpoint receive_loop (incoming : list string) : M unit :=
  match incoming with
  | [] => raise Main.WebSocketDisconnect
  | query :: rest => chat_turn query ;;; receive_loop rest
  end.

Definition chat_socket_legacy (incoming : list string) : M unit :=
  Main.websocket_accept ;;;
  connection_closed <-
    try_except
      (receive_loop incoming ;;; ret false)
      (fun e =>
         if String.eqb (exc_class e) "WebSocketDisconnect" then
           print "WebSocket disconnected by client" ;;; ret true
         else
           print ("WebSocket Error: " ++ exc_str e) ;;; ret false) ;;
  if negb connection_closed
  then try_except Main.websocket_close (fun _ => ret tt)
  else ret tt.

End Handler.
End Legacy.

(** ** [main.py]: the conversation endpoints *)

Module Api.

(** The values the endpoints return, serialised by the framework. *)
#[warnings="-register-all"]
Inductive Json :=
| JStr (s : string)
| JNum (n : nat)
| JArr (items : list Json)
| JObj (fields : list (string * Json)).

(** [raise HTTPException(status_code=404, detail="Conversation not found")];
    [str] of it is the status code, a colon and the detail. *)
Definition not_found : PyException :=
  mkExc "HTTPException" "404: Conversation not found".

(** [{"status": "error", "error": str(e)}]. *)
Definition error_response (e : PyException) : Json :=
  JObj [("status", JStr "error"); ("error", JStr (exc_str e))].

(** [Message.to_dict], for the columns the rows carry (the generated
    identifier and the timestamp are left out, as in the rows). *)
Definition message_to_dict (m : Message) : Json :=
  JObj [("type", JStr (role m)); ("content", JStr (content m))].

(** [conversation.messages] in the store [d]. *)
Definition messages_of (d : Database) (conversation : Conversation)
  : list Message :=
  filter (fun m => String.eqb (conversation_id m) (conv_id conversation))
         (messages d).

(** [Conversation.to_dict] (timestamps left out). *)
Definition conversation_to_dict (d : Database) (conversation : Conversation)
  : Json :=
  JObj [("id", JStr (conv_id conversation));
        ("title", JStr (title conversation));
        ("message_count", JNum (length (messages_of d conversation)))].

Section Endpoints.

Variable E : Collaborators.

(** What the store refuses to write (a value it cannot hold in its
    column, a reference to a row that is gone) reaches an endpoint as an
    exception of its session; apart from the foreign key of a message,
    which [Db.commit] checks, such refusals are among the failures
    scheduled in [db_faults]. *)

(** [db.rollback()]: what is pending is dropped. *)
Definition rollback (db : Db.Session) : M unit := ret tt.

(** [db.delete(conversation)] followed by [db.commit()]: the row goes, and
    with it the messages of the conversation
    ([cascade="all, delete-orphan"]). *)
Definition delete_and_commit (db : Db.Session) (conversation : Conversation)
  : M unit :=
  match Db.session_fault db with
  | Some e => raise e
  | None =>
      fun w =>
        let d := database w in
        let other_id := fun i => negb (String.eqb i (conv_id conversation)) in
        (Ok tt,
         set_database
           (mkDatabase
              (filter (fun c => other_id (conv_id c)) (conversations d))
              (filter (fun m => other_id (conversation_id m)) (messages d)))
           w)
  end.

(** The three clauses after [try] shared by the endpoints:
    [except HTTPException: raise], [except Exception as e:] with
    [db.rollback()] when [rolls_back], and [finally: db.close()]. *)
Definition guarded (db : Db.Session) (rolls_back : bool) (body : M Json)
  : M Json :=
  try_finally
    (try_except body
       (fun e =>
          if String.eqb (exc_class e) "HTTPException" then raise e
          else
            (if rolls_back then rollback db else ret tt) ;;;
            ret (error_response e)))
    (Db.close db).

(** The row as it is read back after a commit. *)
Definition reload (cid : string) : M (option Conversation) :=
  fun w => (Ok (List.find (fun c => String.eqb (conv_id c) cid)
                          (conversations (database w))), w).

Definition get_database : M Database := fun w => (Ok (database w), w).

(** [GET /conversations/{conversation_id}]. *)
Definition get_conversation (conversation_id : string) : M Json :=
  db <- Db.get_db_session ;;
  guarded db false
    (conversation <- Db.query_conversation_first db conversation_id ;;
     match conversation with
     | None => raise not_found
     | Some conversation =>
         d <- get_database ;;
         ret (JObj [("status", JStr "success");
                    ("conversation", conversation_to_dict d conversation);
                    ("messages",
                     JArr (map message_to_dict (messages_of d conversation)))])
     end).

(** [PUT /conversations/{conversation_id}] with [data.title]. *)
Definition update_conversation (conversation_id new_title : string) : M Json :=
  db <- Db.get_db_session ;;
  guarded db true
    (conversation <- Db.query_conversation_first db conversation_id ;;
     match conversation with
     | None => raise not_found
     | Some conversation =>
         let db := Db.set_title db conversation new_title in
         Db.commit (foreign_key_violation E) db ;;;
         d <- get_database ;;
         ret (JObj [("status", JStr "success");
                    ("conversation",
                     conversation_to_dict d
                       (mkConversation (conv_id conversation) new_title))])
     end).

(** [DELETE /conversations/{conversation_id}]. *)
Definition delete_conversation (conversation_id : string) : M Json :=
  db <- Db.get_db_session ;;
  guarded db true
    (conversation <- Db.query_conversation_first db conversation_id ;;
     match conversation with
     | None => raise not_found
     | Some conversation =>
         delete_and_commit db conversation ;;;
         ret (JObj [("status", JStr "success");
                    ("message", JStr "Conversation deleted")])
     end).

(** [POST /conversations/{conversation_id}/messages] with [data.role] and
    [data.content]. *)
Definition add_message (conversation_id data_role data_content : string)
  : M Json :=
  db <- Db.get_db_session ;;
  guarded db true
    (conversation <- Db.query_conversation_first db conversation_id ;;
     match conversation with
     | None => raise not_found
     | Some conversation =>
         let message := mkMessage conversation_id data_role data_content in
         let db := Db.add db message in
         held <- Db.conversation_messages conversation ;;
         let db :=
           if String.eqb data_role "user" && (length held =? 0)
           then Db.set_title db conversation
                  (Py.take 50 data_content
                   ++ (if 50 <? Py.len data_content then "..." else ""))
           else db in
         Db.commit (foreign_key_violation E) db ;;;
         ret (JObj [("status", JStr "success");
                    ("message", message_to_dict message)])
     end).

End Endpoints.
End Api.

(** ** [main.py]: the upload endpoint, and [ingest_docs.py] *)

Module Host.

(** [s.endswith(suffix)]. *)
Fixpoint endswith (s suffix : string) : bool :=
  if String.eqb s suffix then true
  else match s with
       | EmptyString => false
       | String _ rest => endswith rest suffix
       end.

(** The process together with the part of the file system it writes:
    the files written, by path, and the directories created. *)
Record State := mkState {
  world : World;
  files : list (string * string);
  dirs : list string
}.

Definition H (A : Type) : Type := State -> Outcome A * State.

Definition hret {A} (a : A) : H A := fun h => (Ok a, h).

Definition hbind {A B} (c : H A) (k : A -> H B) : H B :=
  fun h => match c h with
           | (Ok a, h') => k a h'
           | (Raise e, h') => (Raise e, h')
           end.

Definition htry_except {A} (body : H A) (handler : PyException -> H A)
  : H A :=
  fun h => match body h with
           | (Ok a, h') => (Ok a, h')
           | (Raise e, h') => handler e h'
           end.

(** A computation on the world, run inside the host. *)
Definition lift {A} (c : M A) : H A :=
  fun h => match c (world h) with
           | (r, w') => (r, mkState w' (files h) (dirs h))
           end.

Section Programs.

Variable E : Collaborators.

(** [DATA_FOLDER], the directory [data] next to [main.py]. *)
Variable DATA_FOLDER : string.

(** What [open(path, "wb")] raises, if it does. *)
Variable open_error : string -> option PyException.

(** [os.listdir(path)]. *)
Variable os_listdir : string -> list string.

(** [with open(file_path, "wb") as buffer: buffer.write(content)]. *)
Definition write_file (file_path content : string) : H unit :=
  match open_error file_path with
  | Some e => fun h => (Raise e, h)
  | None =>
      fun h =>
        (Ok tt,
         mkState (world h)
           ((file_path, content)
              :: filter (fun f => negb (String.eqb (fst f) file_path))
                        (files h))
           (dirs h))
  end.

(** [POST /upload] with the name and the bytes of the uploaded file. *)
Definition upload_pdf (filename content : string) : H Api.Json :=
  if negb (endswith filename ".pdf") then
    hret (Api.JObj [("error", Api.JStr "Only PDF files are supported")])
  else
    htry_except
      (let file_path := os_path_join E [DATA_FOLDER; filename] in
       hbind (write_file file_path content) (fun _ =>
       hbind (lift (RAGEngine.process_pdf E file_path)) (fun result =>
       hret (Api.JObj
               [("status", Api.JStr "success");
                ("message",
                 Api.JStr ("PDF '" ++ filename
                           ++ "' saved and processed successfully"));
                ("file_path", Api.JStr file_path);
                ("result", Api.JStr result)]))))
      (fun e =>
         hret (Api.JObj [("error", Api.JStr (exc_str e));
                         ("status", Api.JStr "failed")])).

(** The loop [for filename in os.listdir(data_path)] of
    [start_ingestion]. *)
Fixpoint ingest_files (data_path : string) (filenames : list string)
  : H unit :=
  match filenames with
  | [] => hret tt
  | filename :: rest =>
      if endswith filename ".pdf" then
        hbind (lift (print ("Processing: " ++ filename))) (fun _ =>
        let file_path := os_path_join E [data_path; filename] in
        hbind (lift (RAGEngine.process_pdf E file_path)) (fun _ =>
        ingest_files data_path rest))
      else ingest_files data_path rest
  end.

(** [os.makedirs(path)]. *)
Definition makedirs (path : string) : H unit :=
  fun h => (Ok tt, mkState (world h) (files h) (dirs h ++ [path])).

(** [ingest_docs.py]: [start_ingestion]. *)
Definition start_ingestion : H unit :=
  let data_path := "./data" in
  if negb (os_path_exists E data_path) then
    hbind (makedirs data_path) (fun _ =>
    lift (print ("Please place PDfs in the '" ++ data_path ++ "' folder")))
  else
    hbind (ingest_files data_path (os_listdir data_path)) (fun _ =>
    lift (print "Success: Vector database created in ./chroma_db")).

End Programs.
End Host.

(** ** More deployments *)

Module Cases.

Definition found_pages : list Document :=
  [Scenarios.page "Senior engineer" 0; Scenarios.page "Lorem ipsum" 1;
   Scenarios.page "Skills: Rocq" 2].

(** The chat model judges the filler text irrelevant, everything else
    relevant, and answers a generation prompt with the title. *)
Definition picky_model (prompt : string) : Outcome string :=
  if Py.contains "Answer:" prompt then Ok "Senior engineer."
  else if Py.contains "Lorem" prompt then Ok "No."
  else Ok "Yes".

Definition picky : Collaborators :=
  mkCollaborators unit true
    (fun _ => Ok []) "" (Py.join "/") (fun _ => false)
    (fun _ _ _ => Ok []) (fun _ => Ok "")
    (fun _ docs => docs) (fun _ => None) (fun _ => None)
    (fun _ _ _ => Ok found_pages)
    (fun _ prompt => picky_model prompt)
    (fun _ _ => mkRun [] None)
    "insert or update on table messages violates foreign key constraint".

(** The chat model returns the empty string. *)
Definition mute : Collaborators :=
  mkCollaborators unit true
    (fun _ => Ok []) "" (Py.join "/") (fun _ => false)
    (fun _ _ _ => Ok []) (fun _ => Ok "")
    (fun _ docs => docs) (fun _ => None) (fun _ => None)
    (fun _ _ _ => Ok found_pages)
    (fun _ _ => Ok "")
    (fun _ _ => mkRun [] None)
    "insert or update on table messages violates foreign key constraint".

Definition store_error : PyException :=
  mkExc "InternalError" "chroma: collection is not readable".

(** The vector store cannot be read. *)
Definition retriever_down : Collaborators :=
  mkCollaborators unit true
    (fun _ => Ok []) "" (Py.join "/") (fun _ => false)
    (fun _ _ _ => Ok []) (fun _ => Ok "")
    (fun _ docs => docs) (fun _ => None) (fun _ => None)
    (fun _ _ _ => Raise store_error)
    (fun _ prompt => picky_model prompt)
    (fun _ _ => mkRun [] None)
    "insert or update on table messages violates foreign key constraint".

(** The collection under [./chroma_db] cannot be opened; the stream of
    the workflow reports the start of the graph and of its first node and
    then raises. *)
Definition index_locked : Collaborators :=
  mkCollaborators unit true
    (fun _ => Ok []) "" (Py.join "/") (fun _ => false)
    (fun _ _ _ => Ok []) (fun _ => Ok "")
    (fun _ docs => docs) (fun _ => None) (fun _ => Some store_error)
    (fun _ _ _ => Ok found_pages)
    (fun _ prompt => picky_model prompt)
    (fun _ _ => mkRun [Scenarios.chain_start; Scenarios.chain_start]
                      (Some store_error))
    "insert or update on table messages violates foreign key constraint".

(** The quota of the chat model is used up until three calls have been
    rejected; from then on it judges everything irrelevant. *)
Definition throttled : Collaborators :=
  mkCollaborators unit true
    (fun _ => Ok []) "" (Py.join "/") (fun _ => false)
    (fun _ _ _ => Ok []) (fun _ => Ok "")
    (fun _ docs => docs) (fun _ => None) (fun _ => None)
    (fun _ _ _ => Ok found_pages)
    (fun history _ => if length history <? 3
                      then Raise Scenarios.quota_error else Ok "No.")
    (fun _ _ => mkRun [] None)
    "insert or update on table messages violates foreign key constraint".

Definition title_question : string := "What is the candidate's title?".

(** The state after retrieval in the [picky] deployment. *)
Definition retrieved : Graph.AgentState :=
  Graph.mkState (Some title_question)
                (Some ["Senior engineer"; "Lorem ipsum"; "Skills: Rocq"])
                None (Some false).

(** A scanned file of three pages; OCR reads the first and the third,
    the second is blank. *)
Definition scanned_pages : Collaborators :=
  mkCollaborators string true
    (fun _ => Ok [Scenarios.page "" 0; Scenarios.page "" 1;
                  Scenarios.page "" 2])
    "" (Py.join "/") (fun _ => false)
    (fun _ _ _ => Ok ["Page one"; "  "; "Page three"]) (fun image => Ok image)
    (fun _ docs => docs) (fun _ => None) (fun _ => None)
    (fun _ _ _ => Ok [])
    (fun _ _ => Ok "yes")
    (fun _ _ => mkRun [] None)
    "insert or update on table messages violates foreign key constraint".

Definition tesseract_error : PyException :=
  mkExc "TesseractError" "(1, 'Error opening data file')".

(** A scanned file whose second page makes the OCR tool fail. *)
Definition smudged : Collaborators :=
  mkCollaborators (option string) true
    (fun _ => Ok [Scenarios.page "" 0])
    "" (Py.join "/") (fun _ => false)
    (fun _ _ _ => Ok [Some "Page one"; None; Some "Page three"])
    (fun image => match image with
                  | Some text => Ok text
                  | None => Raise tesseract_error
                  end)
    (fun _ docs => docs) (fun _ => None) (fun _ => None)
    (fun _ _ _ => Ok [])
    (fun _ _ => Ok "yes")
    (fun _ _ => mkRun [] None)
    "insert or update on table messages violates foreign key constraint".

(** A scanned file on a host without the OCR libraries. *)
Definition no_ocr : Collaborators :=
  mkCollaborators unit false
    (fun _ => Ok [Scenarios.page "" 0])
    "" (Py.join "/") (fun _ => false)
    (fun _ _ _ => Ok []) (fun _ => Ok "")
    (fun _ docs => docs) (fun _ => None) (fun _ => None)
    (fun _ _ _ => Ok [])
    (fun _ _ => Ok "yes")
    (fun _ _ => mkRun [] None)
    "insert or update on table messages violates foreign key constraint".

(** A store with two conversations; the first holds a question and its
    answer, the second is new. *)
Definition chats : Database :=
  mkDatabase [mkConversation "c1" "hi"; mkConversation "c2" "New Chat"]
             [mkMessage "c1" "user" "hi"; mkMessage "c1" "assistant" "Hello"].

Definition two_chats : World := mkWorld [] [] [] chats [] [] true.

Definition connection_refused : PyException :=
  mkExc "OperationalError" "connection to server failed: Connection refused".

(** The same store, unreachable for the next session. *)
Definition store_down : World :=
  mkWorld [] [] [] chats [Some connection_refused] [] true.

Definition unreadable : PyException :=
  mkExc "PdfStreamError" "Stream has ended unexpectedly".

(** A data folder whose listing holds three PDF files, the second of them
    truncated, and a text file; the splitter returns one chunk per page. *)
Definition library : Collaborators :=
  mkCollaborators string true
    (fun file_path =>
       if String.eqb file_path "./data/broken.pdf" then Raise unreadable
       else Ok [mkDocument ("Text of " ++ file_path)
                  [("source", MStr file_path); ("page", MInt 0)]])
    "" (Py.join "/") (fun path => String.eqb path "./data")
    (fun _ _ _ => Ok []) (fun image => Ok image)
    (fun _ docs => docs) (fun _ => None) (fun _ => None)
    (fun _ _ _ => Ok [])
    (fun _ _ => Ok "yes")
    (fun _ _ => mkRun [] None)
    "insert or update on table messages violates foreign key constraint".

Definition listing (path : string) : list string :=
  if String.eqb path "./data"
  then ["cv.pdf"; "notes.txt"; "broken.pdf"; "thesis.pdf"]
  else [].

Definition read_only (path : string) : option PyException :=
  if String.eqb path "/srv/data/locked.pdf"
  then Some (mkExc "PermissionError"
               "[Errno 13] Permission denied: '/srv/data/locked.pdf'")
  else None.

Definition empty_host : Host.State :=
  Host.mkState Scenarios.fresh_world [] [].

End Cases.

(** * Properties *)

(** ** The embedding on concrete inputs *)

Example strip_blank_line :
  Py.strip_truthy (" " ++ Py.nl ++ "  ") = false
  /\ Py.strip_truthy (" " ++ Py.nl ++ " a ") = true.
Proof. split; reflexivity. Qed.

Example yes_in_any_case : Py.contains "yes" (Py.lower "Well, YES.") = true.
Proof. reflexivity. Qed.

Example title_of_short_query : Main.title_of "hi" = "hi".
Proof. reflexivity. Qed.

Example scanned_pdf_is_rejected :
  fst (RAGEngine.process_pdf Scenarios.scanned_blank "scan.pdf"
         Scenarios.fresh_world)
  = Raise (ValueError
      "Could not extract any text from PDF (tried both regular extraction and OCR)").
Proof. reflexivity. Qed.

Example session_of_one_question :
  let w' := snd (Main.chat_socket Scenarios.greeting "c1" ["hi"]
                   Scenarios.fresh_world) in
  ws_sent w'
  = [Main.status_event; Main.chunk_event "Hel"; Main.chunk_event "lo";
     Main.end_event]
  /\ stdout w'
     = ["Error saving assistant message: insert or update on table messages violates foreign key constraint";
        "WebSocket disconnected by client"]
  /\ messages (database w') = [].
Proof. repeat split. Qed.

(** ** Strings *)

Lemma prefix_refl (s : string) : String.prefix s s = true.
Proof.
  induction s as [|c s IH]; simpl; [reflexivity|].
  destruct (ascii_dec c c) as [_|n]; [exact IH | now elim n].
Qed.

Lemma contains_suffix (p s : string) : Py.contains s (p ++ s) = true.
Proof.
  induction p as [|c p IH]; cbn -[String.prefix].
  - destruct s; cbn -[String.prefix]; now rewrite prefix_refl.
  - destruct (String.prefix s (String c (p ++ s))); [reflexivity | exact IH].
Qed.

(** ** The workflow nodes *)

Section GraphProperties.

Variable E : Collaborators.

Import Graph.

(** The calls made so far when the grading loop, started in [w] on
    [docs], reaches the chunk at position [i]: the calls made before the
    node, then one judgment call for each earlier chunk. *)
Definition history_at (q : string) (docs : list string) (w : World)
           (i : nat) : list ExtCall :=
  (calls w
   ++ map (fun doc => call_llm_invoke (grade_prompt q doc))
          (firstn i docs))%list.

(** The judgment call that this run makes for the chunk at position [i]
    raises. *)
Definition judgment_raises (q : string) (docs : list string) (w : World)
           (i : nat) : Prop :=
  exists doc e,
    nth_error docs i = Some doc
    /\ llm_invoke E (history_at q docs w i) (grade_prompt q doc) = Raise e.

Definition judgments_all_raise (q : string) (docs : list string)
           (w : World) : Prop :=
  forall i, i < length docs -> judgment_raises q docs w i.

Lemma history_at_next q doc rest w w1 i :
  calls w1 = (calls w ++ [call_llm_invoke (grade_prompt q doc)])%list ->
  history_at q (doc :: rest) w (S i) = history_at q rest w1 i.
Proof.
  intros Hcalls. unfold history_at. rewrite Hcalls, <- app_assoc.
  reflexivity.
Qed.

Lemma judgment_raises_next q doc rest w w1 i :
  calls w1 = (calls w ++ [call_llm_invoke (grade_prompt q doc)])%list ->
  judgment_raises q (doc :: rest) w (S i) <-> judgment_raises q rest w1 i.
Proof.
  intros Hcalls. unfold judgment_raises.
  rewrite (history_at_next q doc rest w w1 i Hcalls). reflexivity.
Qed.

Lemma judgment_raises_first q doc rest w :
  judgment_raises q (doc :: rest) w 0
  <-> exists e, llm_invoke E (calls w) (grade_prompt q doc) = Raise e.
Proof.
  unfold judgment_raises, history_at. cbn [firstn map nth_error].
  rewrite app_nil_r. split.
  - intros (d & e & Hd & He). inversion Hd; subst. now exists e.
  - intros (e & He). now exists doc, e.
Qed.

(** The grading loop always ends normally; it extends the accumulator by
    chunks of the input, among them every chunk whose judgment raised in
    this run; when every judgment of the run raises, by all of them. *)
Lemma grade_loop_keeps_failed state q docs :
  question state = Some q ->
  forall acc w, exists kept w',
    grade_loop E state docs acc w = (Ok (acc ++ kept)%list, w')
    /\ (forall doc, In doc kept -> In doc docs)
    /\ (forall i doc,
          nth_error docs i = Some doc -> judgment_raises q docs w i ->
          In doc kept)
    /\ (judgments_all_raise q docs w -> kept = docs).
Proof.
  intros Hq. induction docs as [|doc rest IH]; intros acc w.
  - exists [], w. simpl. rewrite app_nil_r.
    repeat split; try tauto. intros [|i] d Hd; discriminate.
  - cbn [grade_loop]. rewrite Hq.
    unfold bind at 1, getitem, ret at 1. unfold bind at 1.
    unfold try_except, bind at 1, invoke_llm, bind at 1, get_calls.
    unfold bind at 1, log_call, of_outcome.
    assert (Hstep : forall kept (w1 : World) (keeps_doc : bool),
      calls w1 = (calls w ++ [call_llm_invoke (grade_prompt q doc)])%list ->
      (keeps_doc = false ->
       forall e, llm_invoke E (calls w) (grade_prompt q doc) <> Raise e) ->
      (forall d, In d kept -> In d rest) ->
      (forall i d, nth_error rest i = Some d -> judgment_raises q rest w1 i ->
                   In d kept) ->
      (judgments_all_raise q rest w1 -> kept = rest) ->
      let kept' := if keeps_doc then doc :: kept else kept in
      (forall d, In d kept' -> In d (doc :: rest))
      /\ (forall i d, nth_error (doc :: rest) i = Some d ->
                      judgment_raises q (doc :: rest) w i -> In d kept')
      /\ (judgments_all_raise q (doc :: rest) w -> kept' = doc :: rest)).
    { intros kept w1 keeps_doc Hcalls Hdrop Hsub Hfail Hall kept'.
      split; [|split].
      - unfold kept'. destruct keeps_doc.
        + intros d [<-|Hd]; [now left | right; now apply Hsub].
        + intros d Hd. right. now apply Hsub.
      - intros [|i] d Hd Hr.
        + cbn [nth_error] in Hd. inversion Hd; subst d.
          apply judgment_raises_first in Hr. destruct Hr as [e He].
          unfold kept'. destruct keeps_doc; [now left|].
          now elim (Hdrop eq_refl e).
        + cbn [nth_error] in Hd.
          apply (judgment_raises_next q doc rest w w1 i Hcalls) in Hr.
          pose proof (Hfail i d Hd Hr) as Hin.
          unfold kept'. destruct keeps_doc; [now right | exact Hin].
      - intros Hraise.
        assert (Hrest : kept = rest).
        { apply Hall. intros i Hi.
          apply (judgment_raises_next q doc rest w w1 i Hcalls).
          apply Hraise. cbn [length]. lia. }
        assert (Hfirst : judgment_raises q (doc :: rest) w 0).
        { apply Hraise. cbn [length]. lia. }
        apply judgment_raises_first in Hfirst. destruct Hfirst as [e He].
        unfold kept'. destruct keeps_doc; [now rewrite Hrest|].
        now elim (Hdrop eq_refl e). }
    destruct (llm_invoke E (calls w) (grade_prompt q doc)) as [res|e] eqn:Hllm.
    + destruct (Py.contains "yes" (Py.lower res)); unfold ret at 1.
      * match goal with
        | |- context [grade_loop E state rest ?a ?w1] =>
            destruct (IH a w1) as (kept & w' & Hloop & Hsub & Hfail & Hall);
            destruct (Hstep kept w1 true eq_refl) as (H1 & H2 & H3);
              [discriminate | exact Hsub | exact Hfail | exact Hall |]
        end.
        exists (doc :: kept), w'. rewrite Hloop, <- app_assoc.
        split; [reflexivity|]. split; [exact H1|]. split; assumption.
      * match goal with
        | |- context [grade_loop E state rest ?a ?w1] =>
            destruct (IH a w1) as (kept & w' & Hloop & Hsub & Hfail & Hall);
            destruct (Hstep kept w1 false eq_refl) as (H1 & H2 & H3);
              [intros _ e0; discriminate
              | exact Hsub | exact Hfail | exact Hall |]
        end.
        exists kept, w'. split; [exact Hloop|]. split; [exact H1|].
        split; assumption.
    + unfold bind at 1, print, ret at 1.
      match goal with
      | |- context [grade_loop E state rest ?a ?w1] =>
          destruct (IH a w1) as (kept & w' & Hloop & Hsub & Hfail & Hall);
          destruct (Hstep kept w1 true eq_refl) as (H1 & H2 & H3);
            [discriminate | exact Hsub | exact Hfail | exact Hall |]
      end.
      exists (doc :: kept), w'. rewrite Hloop, <- app_assoc.
      split; [reflexivity|]. split; [exact H1|]. split; assumption.
Qed.

(** C1.  Fail-open grading.  [grade_documents_node] returns normally with
    an update whose documents contain every input chunk whose relevance
    judgment raises in this run; when the judgment call of the run raises
    for every retrieved chunk, these documents are the whole input
    sequence, unchanged and in order, so a non-empty retrieval is not
    made empty, and the state after the node holds them.  The judgment
    of a chunk is the call the node makes for it, after the calls made
    for the chunks before it: nothing is asked of calls that are not
    made. *)
Theorem grade_fail_open state q docs w :
  question state = Some q ->
  documents state = Some docs ->
  exists w' kept,
    grade_documents_node E state w
      = (Ok (mkState None (Some kept) None None), w')
    /\ (forall i doc,
          nth_error docs i = Some doc -> judgment_raises q docs w i ->
          In doc kept)
    /\ (judgments_all_raise q docs w ->
        kept = docs
        /\ (docs <> [] -> kept <> [])
        /\ run_node (grade_documents_node E) state w
           = (Ok (mkState (Some q) (Some docs) (answer state)
                          (run_web_search state)), w')).
Proof.
  intros Hq Hd.
  destruct (grade_loop_keeps_failed state q docs Hq [] w)
    as (kept & w' & Hloop & _ & Hfail & Hraise).
  assert (Hnode : grade_documents_node E state w
                  = (Ok (mkState None (Some kept) None None), w')).
  { unfold grade_documents_node. rewrite Hd.
    unfold bind at 1, getitem, ret at 1. unfold bind at 1.
    now rewrite Hloop. }
  exists w', kept. split; [exact Hnode|]. split; [exact Hfail|].
  intros Hall. rewrite (Hraise Hall) in *.
  split; [reflexivity|]. split; [tauto|].
  unfold run_node, bind at 1. rewrite Hnode.
  unfold ret, apply_update; simpl. now rewrite Hq.
Qed.

(** The update [grade_documents_node] returns never carries the
    web-search key, whatever the judgments were. *)
Lemma grade_update_has_no_flag state w upd w' :
  grade_documents_node E state w = (Ok upd, w') ->
  run_web_search upd = None
  /\ run_web_search (apply_update state upd) = run_web_search state.
Proof.
  unfold grade_documents_node, bind, getitem.
  destruct (documents state) as [docs|]; simpl; [|discriminate].
  destruct (grade_loop E state docs [] w) as [[kept|e] w1]; simpl;
    [|discriminate].
  unfold ret. intros H. inversion H; subst. now split.
Qed.

(** C2.  [generative_node] on a state whose answer is non-empty returns
    that very state and leaves the world as it was (so no call reaches
    the model); running the node again on the result, directly or
    through the graph's state update, gives the same state. *)
Theorem generate_idempotent state a w :
  answer state = Some a ->
  a <> "" ->
  generative_node E state w = (Ok state, w)
  /\ calls (snd (generative_node E state w)) = calls w
  /\ (s1 <- generative_node E state ;; generative_node E s1) w
     = (Ok state, w)
  /\ (s1 <- run_node (generative_node E) state ;;
      run_node (generative_node E) s1) w
     = run_node (generative_node E) state w
  /\ run_node (generative_node E) state w = (Ok state, w).
Proof.
  intros Ha Hne.
  assert (Hhas : has_answer state = true).
  { unfold has_answer. rewrite Ha. destruct a; [now elim Hne | reflexivity]. }
  assert (Hgen : forall w0, generative_node E state w0 = (Ok state, w0)).
  { intros w0. unfold generative_node. now rewrite Hhas. }
  assert (Hmerge : apply_update state state = state).
  { destruct state as [q d an f]; unfold apply_update; simpl.
    destruct q, d, an, f; reflexivity. }
  assert (Hrun : forall w0,
             run_node (generative_node E) state w0 = (Ok state, w0)).
  { intros w0. unfold run_node, bind. rewrite Hgen. unfold ret.
    now rewrite Hmerge. }
  repeat split.
  - apply Hgen.
  - now rewrite Hgen.
  - unfold bind. rewrite Hgen. apply Hgen.
  - unfold bind at 1. rewrite Hrun. apply Hrun.
  - apply Hrun.
Qed.

(** C4.  On a state without an answer, when the model call made by
    [generative_node] raises [e], the node returns normally; its update
    sets the answer to ["Error: "] followed by [str(e)], which therefore
    contains the text of the exception. *)
Theorem generate_error_is_answer state docs q e w :
  has_answer state = false ->
  documents state = Some docs ->
  question state = Some q ->
  llm_invoke E (calls w)
    (generate_prompt (Py.join (Py.nl ++ Py.nl) docs) q) = Raise e ->
  exists w' text,
    generative_node E state w
      = (Ok (mkState None None (Some text) None), w')
    /\ text = "Error: " ++ exc_str e
    /\ Py.contains (exc_str e) text = true
    /\ fst (run_node (generative_node E) state w)
       = Ok (mkState (Some q) (Some docs) (Some text)
                     (run_web_search state)).
Proof.
  intros Hno Hd Hq Hllm.
  exists (set_calls (calls w ++ [call_llm_invoke
            (generate_prompt (Py.join (Py.nl ++ Py.nl) docs) q)]) w).
  exists ("Error: " ++ exc_str e).
  assert (Hgen : generative_node E state w
            = (Ok (mkState None None (Some ("Error: " ++ exc_str e)) None),
               set_calls (calls w ++ [call_llm_invoke
                 (generate_prompt (Py.join (Py.nl ++ Py.nl) docs) q)]) w)).
  { unfold generative_node. rewrite Hno, Hd, Hq.
    unfold bind, try_except, invoke_llm, getitem, ret, get_calls,
      log_call, of_outcome, bind; cbv beta zeta.
    now rewrite Hllm. }
  repeat split.
  - exact Hgen.
  - apply contains_suffix.
  - unfold run_node, bind. rewrite Hgen. unfold ret, apply_update; simpl.
    now rewrite Hq, Hd.
Qed.

End GraphProperties.

Lemma grade_fail_open_witness :
  let state := Scenarios.graded in
  let docs := ["Senior engineer"; "Skills: Rocq"] in
  Graph.question state = Some "What is the candidate's title?"
  /\ Graph.documents state = Some docs
  /\ llm_invoke Cases.throttled
       (List.repeat (call_llm_invoke "ping") 3) "ping" = Ok "No."
  /\ exists w' kept,
       Graph.grade_documents_node Cases.throttled state
         Scenarios.fresh_world
       = (Ok (Graph.mkState None (Some kept) None None), w')
       /\ kept = docs.
Proof.
  split; [reflexivity|]. split; [reflexivity|]. split; [reflexivity|].
  destruct (grade_fail_open Cases.throttled Scenarios.graded
              "What is the candidate's title?"
              ["Senior engineer"; "Skills: Rocq"] Scenarios.fresh_world
              eq_refl eq_refl)
    as (w' & kept & Hnode & _ & Hall).
  exists w', kept. split; [exact Hnode|].
  apply Hall. intros [|[|i]] Hi.
  - exists "Senior engineer", Scenarios.quota_error. split; reflexivity.
  - exists "Skills: Rocq", Scenarios.quota_error. split; reflexivity.
  - cbn [length] in Hi. lia.
Defined.

Lemma generate_idempotent_witness :
  Graph.answer Scenarios.answered = Some "Senior engineer."
  /\ Graph.generative_node Scenarios.model_down Scenarios.answered
       Scenarios.fresh_world
     = (Ok Scenarios.answered, Scenarios.fresh_world).
Proof.
  split; [reflexivity|].
  apply (generate_idempotent Scenarios.model_down Scenarios.answered
           "Senior engineer." Scenarios.fresh_world eq_refl).
  discriminate.
Defined.

Lemma generate_error_is_answer_witness :
  Graph.has_answer Scenarios.graded = false
  /\ exists w' text,
       Graph.generative_node Scenarios.model_down Scenarios.graded
         Scenarios.fresh_world
       = (Ok (Graph.mkState None None (Some text) None), w')
       /\ text = "Error: 429 RESOURCE_EXHAUSTED: quota exceeded".
Proof.
  split; [reflexivity|].
  destruct (generate_error_is_answer Scenarios.model_down Scenarios.graded
              ["Senior engineer"; "Skills: Rocq"]
              "What is the candidate's title?" Scenarios.quota_error
              Scenarios.fresh_world eq_refl eq_refl eq_refl eq_refl)
    as (w' & text & Hnode & Htext & _).
  exists w', text. split; assumption.
Defined.

(** C3.  The flag computed by GRADE stays local.  With one retrieved chunk
    judged irrelevant, the filtered set is empty and the local variable
    [search] is true at the [return], yet the update carries no
    web-search key: the state after GRADE still holds the [False] written
    by [retrieve_node]. *)
Theorem grade_empty_leaves_flag_false :
  let E := Scenarios.off_topic in
  let inputs := Scenarios.asked "What is the candidate's title?" in
  fst ((s1 <- Graph.run_node (Graph.retrieve_node E) inputs ;;
        Graph.run_node (Graph.grade_documents_node E) s1)
         Scenarios.fresh_world)
  = Ok (Graph.mkState (Some "What is the candidate's title?") (Some [])
                      None (Some false))
  /\ Graph.search_flag [] = true
  /\ fst (Graph.agent_graph E inputs Scenarios.fresh_world)
     = Ok (Graph.mkState (Some "What is the candidate's title?") (Some [])
                         (Some "No.") (Some false)).
Proof. repeat split; vm_compute; reflexivity. Qed.

(** ** Ingestion *)

Lemma length_append (a b : string) :
  String.length (a ++ b) = String.length a + String.length b.
Proof. induction a as [|c a IH]; simpl; [reflexivity | now rewrite IH]. Qed.

Lemma append_cancel_r (s a b : string) : a ++ s = b ++ s -> a = b.
Proof.
  revert b. induction a as [|c a IH]; intros [|d b] H; simpl in H.
  - reflexivity.
  - apply (f_equal String.length) in H. simpl in H.
    rewrite length_append in H. lia.
  - apply (f_equal String.length) in H. simpl in H.
    rewrite length_append in H. lia.
  - inversion H; subst. f_equal. now apply IH.
Qed.

Lemma str_int_inj (n m : nat) : Py.str_int n = Py.str_int m -> n = m.
Proof.
  unfold Py.str_int. intros H.
  assert (Hnil : forall k, Nat.to_uint k <> Decimal.Nil).
  { intros k. rewrite <- (Unsigned.of_to k) at 1. rewrite Unsigned.to_of.
    apply DecimalFacts.unorm_nonnil. }
  apply Unsigned.to_uint_inj.
  assert (Hs : Some (Nat.to_uint n) = Some (Nat.to_uint m)).
  { rewrite <- (NilZero.usu _ (Hnil n)), <- (NilZero.usu _ (Hnil m)).
    now rewrite H. }
  now inversion Hs.
Qed.

Section IngestionProperties.

Variable E : Collaborators.

Import RAGEngine.

(** Calls to the OCR tool chain. *)
Definition is_ocr_call (c : ExtCall) : bool :=
  match c with
  | call_convert_from_path _ _ | call_image_to_string _ => true
  | _ => false
  end.

Definition ocr_calls (w : World) : list ExtCall :=
  filter is_ocr_call (calls w).

(** The summary string for [n] chunks. *)
Definition summary (n : nat) : string :=
  "Successfully processed " ++ Py.str_int n ++ " text chunks".

Lemma summary_inj (n m : nat) : summary n = summary m -> n = m.
Proof.
  unfold summary. intros H.
  apply str_int_inj.
  apply (append_cancel_r " text chunks").
  simpl in H. now inversion H.
Qed.

(** A page whose text survives [strip()]. *)
Definition has_text (d : Document) : Prop :=
  Py.strip_truthy (page_content d) = true.

Lemma has_text_nonempty d : has_text d -> page_content d <> "".
Proof. unfold has_text. intros H Heq. rewrite Heq in H. discriminate. Qed.

Lemma nonblank_pages_have_text documents :
  Forall has_text (nonblank_pages documents).
Proof.
  unfold nonblank_pages. apply Forall_forall. intros d Hd.
  apply filter_In in Hd. exact (proj2 Hd).
Qed.

Lemma ocr_pages_keep_text file_path images :
  forall i acc w pages w',
    Forall has_text acc ->
    ocr_pages E file_path i images acc w = (Ok pages, w') ->
    Forall has_text pages.
Proof.
  induction images as [|image rest IH]; intros i acc w pages w' Hacc H.
  - simpl in H. unfold ret in H. now inversion H; subst.
  - simpl in H. unfold bind, log_call, of_outcome in H.
    destruct (image_to_string E image) as [text|e]; [|discriminate].
    destruct (Py.strip_truthy text) eqn:Htext.
    + unfold bind, print in H. eapply IH; [|exact H].
      apply Forall_app. split; [exact Hacc|].
      constructor; [exact Htext | constructor].
    + eapply IH; [exact Hacc | exact H].
Qed.

Lemma ocr_pages_frame file_path images :
  forall i acc w,
    chroma_db (snd (ocr_pages E file_path i images acc w)) = chroma_db w.
Proof.
  induction images as [|image rest IH]; intros i acc w; [reflexivity|].
  simpl. unfold bind, log_call, of_outcome.
  destruct (image_to_string E image) as [text|e]; [|reflexivity].
  destruct (Py.strip_truthy text); [unfold bind, print|]; now rewrite IH.
Qed.

Lemma extract_text_with_ocr_keeps_text file_path w pages w' :
  extract_text_with_ocr E file_path w = (Ok pages, w') ->
  Forall has_text pages.
Proof.
  unfold extract_text_with_ocr.
  destruct (OCR_AVAILABLE E); simpl; [|discriminate].
  unfold bind, print, try_except, log_call, of_outcome, bind.
  destruct (convert_from_path E file_path 300 (find_poppler_path E))
    as [images|e]; [|discriminate].
  match goal with
  | |- context [ocr_pages E file_path 0 images [] ?w1] =>
      destruct (ocr_pages E file_path 0 images [] w1) as [[ps|e] w2] eqn:Hocr
  end; [|discriminate].
  intros H. inversion H; subst.
  eapply ocr_pages_keep_text; [constructor | exact Hocr].
Qed.

Lemma extract_text_with_ocr_frame file_path w :
  chroma_db (snd (extract_text_with_ocr E file_path w)) = chroma_db w.
Proof.
  unfold extract_text_with_ocr.
  destruct (OCR_AVAILABLE E); simpl; [|reflexivity].
  unfold bind, print, try_except, log_call, of_outcome, raise, bind.
  destruct (convert_from_path E file_path 300 (find_poppler_path E))
    as [images|e]; [|reflexivity].
  match goal with
  | |- context [ocr_pages E file_path 0 images [] ?w1] =>
      pose proof (ocr_pages_frame file_path images 0 [] w1) as Hf;
      destruct (ocr_pages E file_path 0 images [] w1) as [[ps|e] w2]
  end; simpl in *; exact Hf.
Qed.

Lemma extract_text_load_fails file_path e w :
  PyPDFLoader_load E file_path = Raise e ->
  extract_text E file_path w
  = (Raise e, set_calls (calls w ++ [call_PyPDFLoader_load file_path]) w).
Proof.
  intros Hload. unfold extract_text, bind, log_call, of_outcome.
  now rewrite Hload.
Qed.

Lemma extract_text_direct file_path documents w :
  PyPDFLoader_load E file_path = Ok documents ->
  nonblank_pages documents <> [] ->
  extract_text E file_path w
  = (Ok (nonblank_pages documents),
     set_calls (calls w ++ [call_PyPDFLoader_load file_path]) w).
Proof.
  intros Hload Hnb. unfold extract_text, bind, log_call, of_outcome.
  rewrite Hload.
  destruct (nonblank_pages documents) as [|page pages]; [now elim Hnb|].
  reflexivity.
Qed.

Lemma extract_text_fallback file_path documents w :
  PyPDFLoader_load E file_path = Ok documents ->
  nonblank_pages documents = [] ->
  let w1 :=
    set_stdout
      (stdout w ++ ["No text found with regular extraction, attempting OCR..."])
      (set_calls (calls w ++ [call_PyPDFLoader_load file_path]) w) in
  extract_text E file_path w
  = match extract_text_with_ocr E file_path w1 with
    | (Ok [], w2) =>
        (Raise (ValueError
           "Could not extract any text from PDF (tried both regular extraction and OCR)"),
         w2)
    | (Ok (page :: pages), w2) => (Ok (page :: pages), w2)
    | (Raise e, w2) =>
        (Raise (ValueError
           ("PDF has no extractable text and OCR failed: " ++ exc_str e)), w2)
    end.
Proof.
  intros Hload Hnb w1. unfold extract_text, bind at 1, log_call.
  unfold bind at 1, of_outcome. rewrite Hload, Hnb.
  unfold bind at 1. unfold bind at 1, print, try_except.
  fold w1. cbn [stdout calls set_calls set_stdout].
  change (set_stdout _ _) with w1.
  destruct (extract_text_with_ocr E file_path w1) as [[[|page pages]|e] w2];
    reflexivity.
Qed.

Lemma ocr_calls_after_log c w :
  is_ocr_call c = false ->
  ocr_calls (set_calls (calls w ++ [c]) w) = ocr_calls w.
Proof.
  intros Hc. unfold ocr_calls; simpl. rewrite filter_app; simpl.
  rewrite Hc. apply app_nil_r.
Qed.

Lemma index_text_ocr_frame text_documents w :
  ocr_calls (snd (index_text E text_documents w)) = ocr_calls w.
Proof.
  unfold index_text.
  destruct (split_documents E text_splitter text_documents) as [|c cs];
    [reflexivity|].
  unfold bind, print, chroma_from_documents, bind, log_call, raise, ret.
  destruct (Chroma_from_documents E (c :: cs)); simpl;
    unfold ocr_calls; simpl; rewrite filter_app; simpl; apply app_nil_r.
Qed.

Lemma index_text_ok text_documents w msg w' :
  index_text E text_documents w = (Ok msg, w') ->
  let chunks := split_documents E text_splitter text_documents in
  1 <= length chunks
  /\ msg = summary (length chunks)
  /\ calls w' = (calls w ++ [call_Chroma_from_documents chunks])%list
  /\ Chroma_from_documents E chunks = None
  /\ chroma_db w' = (chroma_db w ++ chunks)%list.
Proof.
  intros H chunks. unfold index_text in H. fold chunks in H.
  destruct chunks as [|c cs] eqn:Hc; [discriminate|].
  unfold bind, print, chroma_from_documents, bind, log_call, raise, ret in H.
  destruct (Chroma_from_documents E (c :: cs)) eqn:Hidx; simpl in H;
    [discriminate|].
  inversion H; subst. simpl. repeat split; lia.
Qed.

Lemma extract_text_frame file_path w :
  chroma_db (snd (extract_text E file_path w)) = chroma_db w.
Proof.
  destruct (PyPDFLoader_load E file_path) as [documents|e] eqn:Hload.
  - destruct (nonblank_pages documents) as [|page pages] eqn:Hnb.
    + rewrite (extract_text_fallback _ _ w Hload Hnb).
      match goal with
      | |- context [extract_text_with_ocr E file_path ?w1] =>
          pose proof (extract_text_with_ocr_frame file_path w1) as Hf;
          destruct (extract_text_with_ocr E file_path w1)
            as [[[|p ps]|e] w2]
      end; exact Hf.
    + rewrite (extract_text_direct _ _ w Hload); [reflexivity|].
      rewrite Hnb. discriminate.
  - now rewrite (extract_text_load_fails _ _ w Hload).
Qed.

(** C8.  Whenever [process_pdf] returns, it returns the string
    ["Successfully processed N text chunks"] where [N >= 1] is the number
    of chunks the splitter produced, written in decimal; exactly these
    chunks were handed to the vector store and appended to the
    collection, and the returned string determines [N]. *)
Theorem process_pdf_summary file_path w msg w' :
  process_pdf E file_path w = (Ok msg, w') ->
  exists chunks,
    1 <= length chunks
    /\ msg = "Successfully processed "
             ++ Py.str_int (length chunks) ++ " text chunks"
    /\ In (call_Chroma_from_documents chunks) (calls w')
    /\ Chroma_from_documents E chunks = None
    /\ chroma_db w' = (chroma_db w ++ chunks)%list
    /\ (forall n, msg = summary n -> n = length chunks).
Proof.
  unfold process_pdf, bind. intros H.
  pose proof (extract_text_frame file_path w) as Hframe.
  destruct (extract_text E file_path w) as [[td|e] w1]; [|discriminate].
  simpl in Hframe.
  destruct (index_text_ok td w1 msg w' H) as (Hlen & Hmsg & Hcalls & Hidx & Hdb).
  exists (split_documents E text_splitter td).
  split; [exact Hlen|]. split; [exact Hmsg|].
  split; [rewrite Hcalls, in_app_iff; right; now left|].
  split; [exact Hidx|].
  split; [now rewrite Hdb, Hframe|].
  intros n Hn. symmetry. apply summary_inj. now rewrite <- Hmsg.
Qed.

End IngestionProperties.

Lemma process_pdf_summary_witness :
  fst (RAGEngine.process_pdf Scenarios.text_pdf "cv.pdf" Scenarios.fresh_world)
  = Ok "Successfully processed 3 text chunks"
  /\ exists chunks : list Document,
       1 <= length chunks
       /\ "Successfully processed 3 text chunks"
          = "Successfully processed "
            ++ Py.str_int (length chunks) ++ " text chunks".
Proof.
  split; [reflexivity|].
  destruct (process_pdf_summary Scenarios.text_pdf "cv.pdf"
              Scenarios.fresh_world "Successfully processed 3 text chunks"
              (snd (RAGEngine.process_pdf Scenarios.text_pdf "cv.pdf"
                      Scenarios.fresh_world)) eq_refl)
    as (chunks & Hlen & Hmsg & _).
  exists chunks. split; assumption.
Defined.

(** ** The session relay *)

(** The world after the events [evs] were sent. *)
Definition sent_more (evs : list WsEvent) (w : World) : World :=
  set_ws_sent (ws_sent w ++ evs) w.

Lemma sent_more_nil w : sent_more [] w = w.
Proof. destruct w; unfold sent_more, set_ws_sent; simpl. now rewrite app_nil_r. Qed.

Lemma sent_more_more a b w : sent_more b (sent_more a w) = sent_more (a ++ b) w.
Proof. unfold sent_more, set_ws_sent; simpl. now rewrite app_assoc. Qed.

(** The contents of the model-stream events that carry text, in order. *)
Fixpoint streamed_contents (events : list AgentEvent) : list string :=
  match events with
  | [] => []
  | event :: rest =>
      if String.eqb (event_kind event) "on_chain_start" then
        streamed_contents rest
      else if String.eqb (event_kind event) "on_chat_model_stream"
                && Py.truthy (chunk_content event)
      then chunk_content event :: streamed_contents rest
      else streamed_contents rest
  end.

(** The accumulated answer text: the streamed contents, concatenated. *)
Definition streamed_text (events : list AgentEvent) : string :=
  String.concat "" (streamed_contents events).

(** What the relay forwards for the events of a run: a status event per
    chain start, a chunk event per model-stream event that carries text. *)
Fixpoint forwarded (events : list AgentEvent) : list WsEvent :=
  match events with
  | [] => []
  | event :: rest =>
      if String.eqb (event_kind event) "on_chain_start" then
        Main.status_event :: forwarded rest
      else if String.eqb (event_kind event) "on_chat_model_stream"
                && Py.truthy (chunk_content event)
      then Main.chunk_event (chunk_content event) :: forwarded rest
      else forwarded rest
  end.

Definition is_chunk (ev : WsEvent) : bool := String.eqb (ev_type ev) "chunk".
Definition is_end (ev : WsEvent) : bool := String.eqb (ev_type ev) "end".

Lemma append_empty_r (s : string) : s ++ "" = s.
Proof. induction s as [|c s IH]; simpl; [reflexivity | now rewrite IH]. Qed.

Lemma append_assoc (a b c : string) : (a ++ b) ++ c = a ++ (b ++ c).
Proof. induction a as [|x a IH]; simpl; [reflexivity | now rewrite IH]. Qed.

Lemma concat_cons_nonempty (c : string) (cs : list string) :
  String.concat "" (c :: cs) = c ++ String.concat "" cs.
Proof. destruct cs; simpl; [now rewrite append_empty_r | reflexivity]. Qed.

Lemma stream_loop_spec events :
  forall acc w,
    Main.stream_loop events acc w
    = (Ok (acc ++ streamed_text events), sent_more (forwarded events) w).
Proof.
  unfold streamed_text.
  induction events as [|event rest IH]; intros acc w.
  - simpl. unfold ret. now rewrite append_empty_r, sent_more_nil.
  - cbn [Main.stream_loop streamed_contents forwarded].
    destruct (String.eqb (event_kind event) "on_chain_start").
    + unfold bind, Main.send_json. rewrite IH.
      fold (sent_more [Main.status_event] w). now rewrite sent_more_more.
    + destruct (String.eqb (event_kind event) "on_chat_model_stream");
        cbn [andb]; [|apply IH].
      destruct (Py.truthy (chunk_content event)); [|apply IH].
      unfold bind, Main.send_json. rewrite IH.
      fold (sent_more [Main.chunk_event (chunk_content event)] w).
      rewrite sent_more_more, concat_cons_nonempty, append_assoc.
      reflexivity.
Qed.

Lemma chunks_of_forwarded events :
  filter is_chunk (forwarded events)
  = map Main.chunk_event (streamed_contents events).
Proof.
  induction events as [|event rest IH]; [reflexivity|].
  cbn [forwarded streamed_contents].
  destruct (String.eqb (event_kind event) "on_chain_start"); [exact IH|].
  destruct (String.eqb (event_kind event) "on_chat_model_stream"
            && Py.truthy (chunk_content event)); [|exact IH].
  cbn [filter map]. unfold is_chunk at 1. simpl. now rewrite IH.
Qed.

Lemma no_end_in_forwarded events : filter is_end (forwarded events) = [].
Proof.
  induction events as [|event rest IH]; [reflexivity|].
  cbn [forwarded].
  destruct (String.eqb (event_kind event) "on_chain_start"); [exact IH|].
  destruct (String.eqb (event_kind event) "on_chat_model_stream"
            && Py.truthy (chunk_content event)); exact IH.
Qed.

Lemma streamed_contents_truthy events :
  Forall (fun c => c <> "") (streamed_contents events).
Proof.
  induction events as [|event rest IH]; [constructor|].
  cbn [streamed_contents].
  destruct (String.eqb (event_kind event) "on_chain_start"); [exact IH|].
  destruct (String.eqb (event_kind event) "on_chat_model_stream");
    cbn [andb]; [|exact IH].
  destruct (chunk_content event) eqn:Hc; cbn [Py.truthy]; [exact IH|].
  constructor; [discriminate | exact IH].
Qed.

Lemma streamed_text_empty events :
  streamed_text events = "" <-> streamed_contents events = [].
Proof.
  unfold streamed_text. pose proof (streamed_contents_truthy events) as H.
  destruct (streamed_contents events) as [|c cs]; [tauto|].
  split; [|discriminate].
  rewrite concat_cons_nonempty. inversion H; subst.
  destruct c; [congruence | discriminate].
Qed.

(** *** The two persistence steps *)

(** [w1] differs from [w] in the relational store only, where the rows
    [added] were appended to the messages and one database session was
    used up. *)
Definition store_step (w w1 : World) (added : list Message) : Prop :=
  ws_sent w1 = ws_sent w
  /\ calls w1 = calls w
  /\ ws_open w1 = ws_open w
  /\ chroma_db w1 = chroma_db w
  /\ messages (database w1) = (messages (database w) ++ added)%list
  /\ map conv_id (conversations (database w1))
     = map conv_id (conversations (database w))
  /\ db_faults w1 = tl (db_faults w).

(** The storage failure the next database session will meet, if any. *)
Definition next_fault (w : World) : option PyException :=
  match db_faults w with
  | f :: _ => f
  | [] => None
  end.

(** The conversation [cid] has a row. *)
Definition conversation_exists (cid : string) (w : World) : bool :=
  existsb (fun c => String.eqb (conv_id c) cid) (conversations (database w)).

Lemma retitle_keeps_id change c : conv_id (Db.retitle change c) = conv_id c.
Proof.
  unfold Db.retitle. destruct change as [[cid t]|]; [|reflexivity].
  destruct (String.eqb (conv_id c) cid); reflexivity.
Qed.

Lemma retitle_keeps_ids change cs :
  map conv_id (map (Db.retitle change) cs) = map conv_id cs.
Proof.
  induction cs as [|c cs IH]; simpl; [reflexivity|].
  now rewrite retitle_keeps_id, IH.
Qed.

Lemma find_conversation cid cs :
  match List.find (fun c => String.eqb (conv_id c) cid) cs with
  | Some c => conv_id c = cid
                /\ existsb (fun c => String.eqb (conv_id c) cid) cs = true
  | None => existsb (fun c => String.eqb (conv_id c) cid) cs = false
  end.
Proof.
  induction cs as [|c cs IH]; simpl; [reflexivity|].
  destruct (String.eqb (conv_id c) cid) eqn:Hc; simpl.
  - split; [now apply String.eqb_eq | reflexivity].
  - exact IH.
Qed.

Lemma existsb_conv_id cid cs :
  existsb (fun c => String.eqb (conv_id c) cid) cs
  = existsb (fun i => String.eqb i cid) (map conv_id cs).
Proof. induction cs as [|c cs IH]; simpl; [reflexivity | now rewrite IH]. Qed.

Lemma conversation_exists_ids cid w w1 :
  map conv_id (conversations (database w1))
  = map conv_id (conversations (database w)) ->
  conversation_exists cid w1 = conversation_exists cid w.
Proof.
  unfold conversation_exists. intros H.
  now rewrite !existsb_conv_id, H.
Qed.

(** Opening a session uses up the next entry of the failure schedule and
    changes nothing else. *)
Lemma get_db_session_spec w :
  exists w0,
    Db.get_db_session w = (Ok (Db.mkSession (next_fault w) [] None), w0)
    /\ store_step w w0 [].
Proof.
  unfold Db.get_db_session, next_fault, store_step.
  destruct (db_faults w) as [|f rest] eqn:Hf.
  - exists w. rewrite app_nil_r. repeat split; try reflexivity. exact Hf.
  - exists (set_db_faults rest w). simpl. rewrite app_nil_r.
    repeat split; reflexivity.
Qed.

(** The steps shared by the proofs about the two persistence blocks: the
    fields of the world that a store step leaves alone. *)
Ltac store_fields H :=
  let H1 := fresh "Hsent" in
  let H2 := fresh "Hcalls" in
  let H3 := fresh "Hopen" in
  let H4 := fresh "Hchroma" in
  let H5 := fresh "Hmsgs" in
  let H6 := fresh "Hids" in
  let H7 := fresh "Hfaults" in
  destruct H as (H1 & H2 & H3 & H4 & H5 & H6 & H7).

Section RelayProperties.

Variable E : Collaborators.

Lemma commit_message cid text role0 title_change fault_free w :
  fault_free = None ->
  Db.commit (foreign_key_violation E)
    (Db.mkSession fault_free [mkMessage cid role0 text] title_change) w
  = if conversation_exists cid w
    then (Ok tt,
          set_database
            (mkDatabase (map (Db.retitle title_change)
                             (conversations (database w)))
                        (messages (database w) ++ [mkMessage cid role0 text]))
            w)
    else (Raise (IntegrityError (foreign_key_violation E)), w).
Proof.
  intros ->. unfold Db.commit, Db.references_ok, conversation_exists.
  cbn [Db.session_fault Db.pending Db.pending_title forallb conversation_id].
  rewrite andb_true_r. reflexivity.
Qed.

Lemma save_user_message_step cid q w :
  exists w1 added,
    Main.save_user_message E cid q w = (Ok tt, w1)
    /\ store_step w w1 added
    /\ (added = [] \/ added = [mkMessage cid "user" q])
    /\ (next_fault w = None -> conversation_exists cid w = true ->
        added = [mkMessage cid "user" q]).
Proof.
  unfold Main.save_user_message, bind at 1.
  destruct (get_db_session_spec w) as (w0 & Hsession & Hw0).
  rewrite Hsession. set (fault := next_fault w).
  assert (Hexists0 : conversation_exists cid w0 = conversation_exists cid w).
  { apply conversation_exists_ids. apply Hw0. }
  unfold try_finally, try_except, Db.close, ret.
  unfold bind at 1. unfold Db.query_conversation_first.
  cbn [Db.session_fault].
  destruct fault as [e|] eqn:Hfault.
  - (* the session fails on its first use *)
    unfold raise, print. eexists; exists []. split; [reflexivity|].
    split; [|split; [now left | discriminate]].
    store_fields Hw0.
    repeat split; assumption.
  - pose proof (find_conversation cid (conversations (database w0))) as Hfind.
    destruct (List.find (fun c => String.eqb (conv_id c) cid)
                        (conversations (database w0))) as [conv|].
    + destruct Hfind as [Hid Hex].
      unfold bind at 1. unfold Db.conversation_messages.
      set (held := filter _ _).
      assert (Hcommit : forall change,
        Db.commit (foreign_key_violation E)
          (Db.mkSession None [mkMessage cid "user" q] change) w0
        = (Ok tt,
           set_database
             (mkDatabase (map (Db.retitle change) (conversations (database w0)))
                         (messages (database w0) ++ [mkMessage cid "user" q]))
             w0)).
      { intros change. rewrite commit_message by reflexivity.
        unfold conversation_exists. now rewrite Hex. }
      destruct (length held =? 0);
        unfold Db.add, Db.set_title;
        cbn [Db.session_fault Db.pending Db.pending_title app];
        rewrite Hcommit;
        (eexists; exists [mkMessage cid "user" q];
         split; [reflexivity|];
         split; [|split; [now right | reflexivity]];
         store_fields Hw0;
         unfold store_step; cbn [set_database ws_sent calls ws_open chroma_db
                                database messages conversations db_faults];
         rewrite retitle_keeps_ids, Hmsgs, app_nil_r;
         repeat split; assumption).
    + eexists; exists []. split; [reflexivity|].
      split; [exact Hw0|]. split; [now left|].
      intros _ Hex. rewrite <- Hexists0 in Hex.
      unfold conversation_exists in Hex. congruence.
Qed.

Lemma save_assistant_message_step cid text w :
  exists w1 added,
    Main.save_assistant_message E cid text w = (Ok tt, w1)
    /\ (text = "" -> w1 = w /\ added = [])
    /\ (text <> "" -> store_step w w1 added)
    /\ (added = [] \/ added = [mkMessage cid "assistant" text])
    /\ (text <> "" -> next_fault w = None ->
        conversation_exists cid w = true ->
        added = [mkMessage cid "assistant" text]).
Proof.
  unfold Main.save_assistant_message.
  destruct text as [|c text]; cbn [Py.truthy].
  { exists w, []. unfold ret. repeat split; try tauto; congruence. }
  set (answer := String c text).
  unfold bind at 1.
  destruct (get_db_session_spec w) as (w0 & Hsession & Hw0).
  rewrite Hsession. set (fault := next_fault w).
  assert (Hexists0 : conversation_exists cid w0 = conversation_exists cid w).
  { apply conversation_exists_ids. apply Hw0. }
  unfold try_finally, try_except, Db.close, ret, Db.add.
  cbn [Db.session_fault Db.pending Db.pending_title app].
  destruct fault as [e|] eqn:Hfault.
  - unfold Db.commit; cbn [Db.session_fault]. unfold raise, print.
    eexists; exists []. split; [reflexivity|].
    split; [discriminate|]. split.
    + intros _. store_fields Hw0.
      repeat split; assumption.
    + split; [now left | discriminate].
  - rewrite commit_message by reflexivity. rewrite Hexists0.
    destruct (conversation_exists cid w) eqn:Hex.
    + eexists; exists [mkMessage cid "assistant" answer].
      split; [reflexivity|]. split; [discriminate|].
      split; [|split; [now right | reflexivity]].
      intros _. store_fields Hw0.
      unfold store_step; cbn [set_database ws_sent calls ws_open chroma_db
                              database messages conversations db_faults].
      rewrite retitle_keeps_ids, Hmsgs, app_nil_r.
      repeat split; assumption.
    + unfold print. eexists; exists []. split; [reflexivity|].
      split; [discriminate|]. split.
      * intros _. store_fields Hw0.
        repeat split; assumption.
      * split; [now left | discriminate].
Qed.

(** The run the workflow produces for [query] when the turn starts in [w]. *)
Definition run_of (query : string) (w : World) : AgentRun :=
  astream_events E (calls w) query.

(** The text of the chunk event sent when the run raises [e]. *)
Definition error_text (e : PyException) : string :=
  if Main.is_rate_limit (exc_str e) then Main.rate_limit_advisory
  else "Error processing request: " ++ exc_str e.

(** No storage failure awaits the next two database sessions. *)
Definition store_healthy (w : World) : Prop :=
  Forall (fun f => f = None) (firstn 2 (db_faults w)).

Lemma store_healthy_next w :
  store_healthy w ->
  next_fault w = None
  /\ forall w1, db_faults w1 = tl (db_faults w) -> next_fault w1 = None.
Proof.
  unfold store_healthy, next_fault. intros H.
  destruct (db_faults w) as [|f [|g rest]]; simpl in *.
  - split; [reflexivity|]. now intros w1 ->.
  - inversion H; subst. split; [reflexivity|]. now intros w1 ->.
  - inversion H as [|? ? Hf H']; subst. inversion H'; subst.
    split; [reflexivity|]. now intros w1 ->.
Qed.

Lemma stream_events_spec query w :
  Main.stream_events E query w
  = let run := run_of query w in
    let w2 := sent_more (forwarded (run_events run))
                (set_calls (calls w ++ [call_astream_events query]) w) in
    match run_error run with
    | Some e => (Raise e, w2)
    | None => (Ok (streamed_text (run_events run)), w2)
    end.
Proof.
  unfold Main.stream_events, bind at 1, get_calls, run_of.
  unfold bind at 1, log_call. unfold bind at 1.
  rewrite stream_loop_spec. cbn [String.append].
  destruct (run_error (astream_events E (calls w) query)); reflexivity.
Qed.

(** A turn whose run raises [e]. *)
Lemma chat_turn_failed cid q w e :
  run_error (run_of q w) = Some e ->
  exists w' added,
    Main.chat_turn E cid q w = (Ok tt, w')
    /\ ws_sent w'
       = (ws_sent w ++ forwarded (run_events (run_of q w))
            ++ [Main.chunk_event (error_text e); Main.end_event])%list
    /\ messages (database w') = (messages (database w) ++ added)%list
    /\ (added = [] \/ added = [mkMessage cid "user" q])
    /\ ws_open w' = ws_open w.
Proof.
  intros Hrun.
  destruct (save_user_message_step cid q w)
    as (w1 & added & Hsave & Hstep & Hadded & _).
  destruct Hstep as (Hsent & Hcalls & Hopen & _ & Hmsgs & _ & _).
  unfold Main.chat_turn, bind at 1. rewrite Hsave.
  unfold try_except, bind at 1. rewrite stream_events_spec.
  unfold run_of in *. rewrite Hcalls. cbv zeta. rewrite Hrun.
  unfold Main.on_agent_error, bind, Main.send_json, error_text.
  destruct (Main.is_rate_limit (exc_str e));
    (eexists; exists added; split; [reflexivity|]);
    cbn [ws_sent set_ws_sent sent_more set_calls database ws_open];
    rewrite Hsent, <- !app_assoc; repeat split; assumption.
Qed.

(** A turn whose run ends normally. *)
Lemma chat_turn_completed cid q w :
  run_error (run_of q w) = None ->
  let text := streamed_text (run_events (run_of q w)) in
  exists w' added_u added_a,
    Main.chat_turn E cid q w = (Ok tt, w')
    /\ ws_sent w'
       = (ws_sent w ++ forwarded (run_events (run_of q w))
            ++ [Main.end_event])%list
    /\ messages (database w')
       = (messages (database w) ++ added_u ++ added_a)%list
    /\ (added_u = [] \/ added_u = [mkMessage cid "user" q])
    /\ (added_a = [] \/ added_a = [mkMessage cid "assistant" text])
    /\ (text = "" -> added_a = [])
    /\ (store_healthy w -> conversation_exists cid w = true ->
        added_u = [mkMessage cid "user" q]
        /\ (text <> "" -> added_a = [mkMessage cid "assistant" text]))
    /\ ws_open w' = ws_open w.
Proof.
  intros Hrun text.
  destruct (save_user_message_step cid q w)
    as (w1 & added_u & Hsave & Hstep & Hadded_u & Hsaved_u).
  destruct Hstep as (Hsent & Hcalls & Hopen & _ & Hmsgs & Hids & Hfaults).
  unfold Main.chat_turn, bind at 1. rewrite Hsave.
  unfold try_except, bind at 1. rewrite stream_events_spec.
  unfold text, run_of in *. rewrite Hcalls. cbv zeta. rewrite Hrun.
  unfold bind at 1, Main.send_json.
  set (events := run_events (astream_events E (calls w) q)).
  set (w3 := set_ws_sent _ _).
  destruct (save_assistant_message_step cid (streamed_text events) w3)
    as (w4 & added_a & Hsave_a & Hempty & Hstep_a & Hadded_a & Hsaved_a).
  rewrite Hsave_a.
  exists w4, added_u, added_a. split; [reflexivity|].
  assert (Hw3 : ws_sent w3 = (ws_sent w ++ forwarded events ++ [Main.end_event])%list
                /\ messages (database w3) = (messages (database w) ++ added_u)%list
                /\ ws_open w3 = ws_open w
                /\ db_faults w3 = db_faults w1
                /\ conversation_exists cid w3 = conversation_exists cid w).
  { unfold w3. cbn [ws_sent set_ws_sent sent_more set_calls database ws_open
                    db_faults].
    rewrite Hsent, <- !app_assoc. repeat split; try assumption.
    unfold conversation_exists. cbn [database set_ws_sent sent_more set_calls].
    now rewrite !existsb_conv_id, Hids. }
  destruct Hw3 as (Hs3 & Hm3 & Ho3 & Hf3 & Hc3).
  destruct (string_dec (streamed_text events) "") as [Hnil|Hsome].
  - destruct (Hempty Hnil) as [-> ->]. rewrite app_nil_r.
    split; [exact Hs3|]. split; [exact Hm3|]. split; [exact Hadded_u|].
    split; [now left|]. split; [reflexivity|]. split; [|exact Ho3].
    intros Hhealthy Hex. split; [|tauto].
    apply Hsaved_u; [apply store_healthy_next|]; assumption.
  - destruct (Hstep_a Hsome) as (Hs4 & _ & Ho4 & _ & Hm4 & _ & _).
    rewrite Hs4, Hm4, Ho4, Hs3, Hm3, Ho3, <- app_assoc.
    split; [reflexivity|]. split; [reflexivity|]. split; [exact Hadded_u|].
    split; [exact Hadded_a|]. split; [tauto|]. split; [|reflexivity].
    intros Hhealthy Hex. split.
    + apply Hsaved_u; [apply store_healthy_next|]; assumption.
    + intros _. apply Hsaved_a; [assumption| |congruence].
      unfold next_fault. rewrite Hf3.
      destruct (store_healthy_next w Hhealthy) as [_ Hnext].
      exact (Hnext w1 Hfaults).
Qed.

(** C6.  A turn whose run ends normally returns normally.  The relay sends
    one status event per chain-start event and one chunk event per
    model-stream event that carries text, in the order of the run, and
    then the end event, which is the only end event of the turn; the
    chunk contents concatenated are the accumulated answer.  When the
    conversation exists and the store is healthy, the messages appended
    are the user message holding the question followed, if the
    accumulated answer is non-empty, by the assistant message holding
    it. *)
Theorem completed_turn cid q w :
  run_error (run_of q w) = None ->
  let events := run_events (run_of q w) in
  let text := streamed_text events in
  exists w' added,
    Main.chat_turn E cid q w = (Ok tt, w')
    /\ ws_sent w' = (ws_sent w ++ forwarded events ++ [Main.end_event])%list
    /\ filter is_end (forwarded events ++ [Main.end_event]) = [Main.end_event]
    /\ filter is_chunk (forwarded events ++ [Main.end_event])
       = map Main.chunk_event (streamed_contents events)
    /\ String.concat "" (streamed_contents events) = text
    /\ messages (database w') = (messages (database w) ++ added)%list
    /\ (store_healthy w -> conversation_exists cid w = true ->
        added = (mkMessage cid "user" q
                 :: if Py.truthy text
                    then [mkMessage cid "assistant" text] else [])).
Proof.
  intros Hrun events text.
  destruct (chat_turn_completed cid q w Hrun)
    as (w' & added_u & added_a & Hturn & Hsent & Hmsgs & _ & _ & Hnone
        & Hsaved & _).
  exists w', (added_u ++ added_a)%list.
  split; [exact Hturn|]. split; [exact Hsent|].
  split; [rewrite filter_app, no_end_in_forwarded; reflexivity|].
  split; [rewrite filter_app, chunks_of_forwarded; apply app_nil_r|].
  split; [reflexivity|]. split; [exact Hmsgs|].
  intros Hhealthy Hex. destruct (Hsaved Hhealthy Hex) as [-> Hanswer].
  fold events in Hnone, Hanswer. fold text in Hnone, Hanswer.
  destruct text as [|c t] eqn:Htext; cbn [Py.truthy].
  - now rewrite Hnone.
  - rewrite Hanswer by discriminate. reflexivity.
Qed.

End RelayProperties.

(** *** The relay on concrete runs *)

Lemma completed_turn_witness :
  let E := Scenarios.greeting in
  let w := Scenarios.open_chat in
  run_error (run_of E "hi" w) = None
  /\ exists w',
       Main.chat_turn E "c1" "hi" w = (Ok tt, w')
       /\ ws_sent w'
          = [Main.status_event; Main.chunk_event "Hel";
             Main.chunk_event "lo"; Main.end_event]
       /\ messages (database w')
          = [mkMessage "c1" "user" "hi"; mkMessage "c1" "assistant" "Hello"].
Proof.
  split; [reflexivity|].
  destruct (completed_turn Scenarios.greeting "c1" "hi" Scenarios.open_chat
              eq_refl)
    as (w' & added & Hturn & Hsent & _ & _ & _ & Hmsgs & Hadded).
  exists w'. split; [exact Hturn|]. split; [exact Hsent|].
  rewrite Hmsgs, Hadded; [reflexivity | constructor | reflexivity].
Defined.

(** A run that ends normally with two chain starts and no streamed text:
    the client is sent two status events and the end event, no chunk
    event, and only the user message is stored. *)
Lemma silent_turn_no_chunk_no_assistant :
  let E := Scenarios.silent_run in
  let w := Scenarios.open_chat in
  let w' := snd (Main.chat_turn E "c1" "hi" w) in
  fst (Main.chat_turn E "c1" "hi" w) = Ok tt
  /\ run_error (run_of E "hi" w) = None
  /\ ws_sent w' = [Main.status_event; Main.status_event; Main.end_event]
  /\ filter is_chunk (ws_sent w') = []
  /\ messages (database w') = [mkMessage "c1" "user" "hi"]
  /\ (forall m, In m (messages (database w')) -> role m <> "assistant").
Proof.
  repeat split. intros m [<-|[]]. discriminate.
Qed.

(** * Further properties of the workflow nodes *)

(** [l1] is [l2] with some elements left out, in the same order. *)
Inductive Subsequence {A : Type} : list A -> list A -> Prop :=
| sub_nil : Subsequence [] []
| sub_keep x l1 l2 : Subsequence l1 l2 -> Subsequence (x :: l1) (x :: l2)
| sub_skip x l1 l2 : Subsequence l1 l2 -> Subsequence l1 (x :: l2).

Lemma subsequence_in {A} (l1 l2 : list A) :
  Subsequence l1 l2 -> forall x, In x l1 -> In x l2.
Proof.
  induction 1 as [|x l1 l2 _ IH|x l1 l2 _ IH]; intros y Hy.
  - exact Hy.
  - destruct Hy as [<-|Hy]; [now left | right; now apply IH].
  - right. now apply IH.
Qed.

Lemma subsequence_length {A} (l1 l2 : list A) :
  Subsequence l1 l2 -> length l1 <= length l2.
Proof. induction 1; simpl; lia. Qed.

Lemma subsequence_filter {A} (f : A -> bool) (l : list A) :
  Subsequence (filter f l) l.
Proof.
  induction l as [|x l IH]; simpl; [constructor|].
  destruct (f x); now constructor.
Qed.

(** The fields of the world that the workflow nodes leave alone. *)
Definition same_outside_model (w w' : World) : Prop :=
  chroma_db w' = chroma_db w
  /\ database w' = database w
  /\ db_faults w' = db_faults w
  /\ ws_sent w' = ws_sent w
  /\ ws_open w' = ws_open w.

Lemma same_outside_model_refl w : same_outside_model w w.
Proof. repeat split. Qed.

Lemma same_outside_model_trans w1 w2 w3 :
  same_outside_model w1 w2 -> same_outside_model w2 w3 ->
  same_outside_model w1 w3.
Proof.
  unfold same_outside_model.
  intros (A1 & A2 & A3 & A4 & A5) (B1 & B2 & B3 & B4 & B5).
  repeat split; congruence.
Qed.

Lemma prefix_append (n b : string) : String.prefix n (n ++ b) = true.
Proof.
  induction n as [|c n IH]; simpl; [now destruct b|].
  destruct (ascii_dec c c) as [_|neq]; [exact IH | now elim neq].
Qed.

Lemma prefix_append_l (n a b : string) :
  String.prefix n a = true -> String.prefix n (a ++ b) = true.
Proof.
  revert a. induction n as [|c n IH]; intros a H.
  - simpl. now destruct (a ++ b).
  - destruct a as [|d a]; simpl in *; [discriminate|].
    destruct (ascii_dec c d); [now apply IH | discriminate].
Qed.

Lemma contains_append_l (n a b : string) :
  Py.contains n a = true -> Py.contains n (a ++ b) = true.
Proof.
  induction a as [|c a IH]; cbn -[String.prefix]; intros H.
  - destruct (String.prefix n "") eqn:Hp; [|discriminate].
    destruct n; [|simpl in Hp; discriminate].
    destruct b; reflexivity.
  - destruct (String.prefix n (String c a)) eqn:Hp.
    + change (String c (a ++ b)) with (String c a ++ b).
      now rewrite (prefix_append_l _ _ b Hp).
    + destruct (String.prefix n (String c (a ++ b))); [reflexivity|].
      now apply IH.
Qed.

Lemma contains_append_r (n a b : string) :
  Py.contains n b = true -> Py.contains n (a ++ b) = true.
Proof.
  intros H. induction a as [|c a IH]; cbn -[String.prefix]; [exact H|].
  destruct (String.prefix n (String c (a ++ b))); [reflexivity | exact IH].
Qed.

Lemma contains_self_append (n b : string) : Py.contains n (n ++ b) = true.
Proof.
  destruct n as [|c n]; [now destruct b|].
  cbn -[String.prefix].
  change (String c (n ++ b)) with (String c n ++ b).
  now rewrite prefix_append.
Qed.

Lemma contains_infix (n a b : string) : Py.contains n (a ++ n ++ b) = true.
Proof. apply contains_append_r, contains_self_append. Qed.

Lemma contains_join sep doc docs :
  In doc docs -> Py.contains doc (Py.join sep docs) = true.
Proof.
  induction docs as [|p rest IH]; intros Hin; [now elim Hin|].
  destruct rest as [|p' rest'].
  - destruct Hin as [<-|[]]. simpl.
    rewrite <- (append_empty_r p) at 2. apply contains_self_append.
  - change (Py.join sep (p :: p' :: rest'))
      with (p ++ sep ++ Py.join sep (p' :: rest')).
    destruct Hin as [<-|Hin]; [apply contains_self_append|].
    now apply contains_append_r, contains_append_r, IH.
Qed.

Section WorkflowProperties.

Variable E : Collaborators.

Import Graph.

(** The prompts of the judgment calls for [docs], in order. *)
Definition judgment_calls (q : string) (docs : list string) : list ExtCall :=
  map (fun doc => call_llm_invoke (grade_prompt q doc)) docs.

Lemma grade_loop_trace state q docs :
  question state = Some q ->
  forall acc w, exists kept w',
    grade_loop E state docs acc w = (Ok (acc ++ kept)%list, w')
    /\ Subsequence kept docs
    /\ calls w' = (calls w ++ judgment_calls q docs)%list
    /\ same_outside_model w w'.
Proof.
  intros Hq. induction docs as [|doc rest IH]; intros acc w.
  - exists [], w. simpl. rewrite !app_nil_r.
    repeat split; constructor.
  - cbn [grade_loop]. rewrite Hq.
    unfold bind at 1, getitem, ret at 1. unfold bind at 1.
    unfold try_except, bind at 1, invoke_llm, bind at 1, get_calls.
    unfold bind at 1, log_call, of_outcome.
    destruct (llm_invoke E (calls w) (grade_prompt q doc)) as [res|e].
    + destruct (Py.contains "yes" (Py.lower res)); unfold ret at 1;
        match goal with
        | |- context [grade_loop E state rest ?a ?w1] =>
            destruct (IH a w1)
              as (kept & w' & Hloop & Hsub & Hcalls & Hsame)
        end; rewrite Hloop.
      * exists (doc :: kept), w'. rewrite <- app_assoc.
        split; [reflexivity|]. split; [now constructor|].
        split; [|exact Hsame].
        rewrite Hcalls. cbn [calls set_calls judgment_calls map].
        now rewrite <- app_assoc.
      * exists kept, w'.
        split; [reflexivity|]. split; [now constructor|].
        split; [|exact Hsame].
        rewrite Hcalls. cbn [calls set_calls judgment_calls map].
        now rewrite <- app_assoc.
    + unfold bind at 1, print, ret at 1.
      match goal with
      | |- context [grade_loop E state rest ?a ?w1] =>
          destruct (IH a w1)
            as (kept & w' & Hloop & Hsub & Hcalls & Hsame)
      end. rewrite Hloop.
      exists (doc :: kept), w'. rewrite <- app_assoc.
      split; [reflexivity|]. split; [now constructor|].
      split; [|exact Hsame].
      rewrite Hcalls. cbn [calls set_calls set_stdout judgment_calls map].
      now rewrite <- app_assoc.
Qed.

(** X1.  Grading only selects: with a question in the state,
    [grade_documents_node] returns normally whatever the model does, its
    documents are the retrieved chunks with some left out, in the same
    order, and it makes exactly one judgment call per retrieved chunk, in
    order, touching nothing but the model and the console. *)
Theorem grade_selects_in_order state q docs w :
  question state = Some q ->
  documents state = Some docs ->
  exists kept w',
    grade_documents_node E state w
    = (Ok (mkState None (Some kept) None None), w')
    /\ Subsequence kept docs
    /\ length kept <= length docs
    /\ calls w' = (calls w ++ judgment_calls q docs)%list
    /\ same_outside_model w w'.
Proof.
  intros Hq Hd.
  destruct (grade_loop_trace state q docs Hq [] w)
    as (kept & w' & Hloop & Hsub & Hcalls & Hsame).
  exists kept, w'. unfold grade_documents_node. rewrite Hd.
  unfold bind at 1, getitem, ret at 1. unfold bind at 1. rewrite Hloop.
  split; [reflexivity|]. split; [exact Hsub|].
  split; [now apply subsequence_length|]. now split.
Qed.

(** What grading does with the outcome of one judgment call. *)
Definition keeps (verdict : Outcome string) : bool :=
  match verdict with
  | Ok res => Py.contains "yes" (Py.lower res)
  | Raise _ => true
  end.

Lemma grade_loop_filter state q docs (verdict : string -> Outcome string) :
  question state = Some q ->
  (forall history doc, In doc docs ->
     llm_invoke E history (grade_prompt q doc) = verdict doc) ->
  forall acc w, exists w',
    grade_loop E state docs acc w
    = (Ok (acc ++ filter (fun doc => keeps (verdict doc)) docs)%list, w').
Proof.
  intros Hq. induction docs as [|doc rest IH]; intros Hllm acc w.
  - exists w. simpl. now rewrite app_nil_r.
  - assert (Hrest : forall history d, In d rest ->
              llm_invoke E history (grade_prompt q d) = verdict d).
    { intros h d Hd. apply Hllm. now right. }
    cbn [grade_loop filter]. rewrite Hq.
    unfold bind at 1, getitem, ret at 1. unfold bind at 1.
    unfold try_except, bind at 1, invoke_llm, bind at 1, get_calls.
    unfold bind at 1, log_call, of_outcome.
    rewrite (Hllm (calls w) doc (or_introl eq_refl)).
    destruct (verdict doc) as [res|e]; cbn [keeps].
    + destruct (Py.contains "yes" (Py.lower res)); unfold ret at 1;
        match goal with
        | |- context [grade_loop E state rest ?a ?w1] =>
            destruct (IH Hrest a w1) as (w' & Hloop)
        end; rewrite Hloop; exists w'; [|reflexivity].
      now rewrite <- app_assoc.
    + unfold bind at 1, print, ret at 1.
      match goal with
      | |- context [grade_loop E state rest ?a ?w1] =>
          destruct (IH Hrest a w1) as (w' & Hloop)
      end. rewrite Hloop. exists w'. now rewrite <- app_assoc.
Qed.

(** X2.  When the outcome of a judgment depends on the chunk only,
    grading is a filter: a chunk is kept exactly when its judgment
    raises or its answer, in lower case, contains ["yes"]. *)
Theorem grade_is_a_filter state q docs (verdict : string -> Outcome string) w :
  question state = Some q ->
  documents state = Some docs ->
  (forall history doc, In doc docs ->
     llm_invoke E history (grade_prompt q doc) = verdict doc) ->
  fst (grade_documents_node E state w)
  = Ok (mkState None
          (Some (filter (fun doc => keeps (verdict doc)) docs)) None None).
Proof.
  intros Hq Hd Hllm.
  destruct (grade_loop_filter state q docs verdict Hq Hllm [] w)
    as (w' & Hloop).
  unfold grade_documents_node. rewrite Hd.
  unfold bind at 1, getitem, ret at 1. unfold bind at 1.
  now rewrite Hloop.
Qed.

(** [retrieve_node], case by case: the collection is opened first, then
    the question is read, then the retriever is invoked. *)
Lemma retrieve_node_spec state w :
  retrieve_node E state w
  = let opened := call_Chroma RAGEngine.persist_directory in
    match Chroma_init E RAGEngine.persist_directory with
    | Some e => (Raise e, set_calls (calls w ++ [opened]) w)
    | None =>
        match question state with
        | None =>
            (Raise (KeyError "question"), set_calls (calls w ++ [opened]) w)
        | Some q =>
            (match mmr_search E (chroma_db w) (mkRetriever "mmr" 1 5) q with
             | Ok found =>
                 Ok (mkState None (Some (map page_content found)) None
                             (Some false))
             | Raise e => Raise e
             end,
             set_calls (calls w ++ [opened; call_retriever_invoke q]) w)
        end
    end.
Proof.
  unfold retrieve_node, bind at 1, RAGEngine.get_retriever, bind at 1,
    log_call.
  destruct (Chroma_init E RAGEngine.persist_directory) as [e|];
    [reflexivity|].
  unfold ret at 1, bind at 1, getitem.
  destruct (question state) as [q|]; [|reflexivity].
  unfold ret at 1, bind at 1, RAGEngine.retriever_invoke, bind at 1, log_call.
  cbn [chroma_db calls set_calls]. rewrite <- app_assoc. cbn [app].
  destruct (mmr_search E (chroma_db w) (mkRetriever "mmr" 1 5) q);
    reflexivity.
Qed.

(** X3.  Missing keys.  [retrieve_node] opens the collection before it
    reads the question: without a question it raises
    [KeyError('question')] after that one call, unless opening the
    collection raises, which then is the exception raised.
    [grade_documents_node] raises [KeyError('documents')] when the state
    has no documents, raises [KeyError('question')] only when there is a
    chunk to grade, and returns the empty selection otherwise;
    [generative_node], on a state without an answer, raises
    [KeyError('documents')] before it looks for the question.  The
    failures of these two nodes are preceded by no call and no output. *)
Theorem missing_state_keys state w :
  (question state = None ->
   retrieve_node E state w
   = (Raise (match Chroma_init E RAGEngine.persist_directory with
             | Some e => e
             | None => KeyError "question"
             end),
      set_calls (calls w ++ [call_Chroma RAGEngine.persist_directory]) w))
  /\ (documents state = None ->
      grade_documents_node E state w = (Raise (KeyError "documents"), w))
  /\ (question state = None -> documents state = Some [] ->
      grade_documents_node E state w
      = (Ok (mkState None (Some []) None None), w))
  /\ (forall doc rest,
        question state = None -> documents state = Some (doc :: rest) ->
        grade_documents_node E state w = (Raise (KeyError "question"), w))
  /\ (has_answer state = false -> documents state = None ->
      generative_node E state w = (Raise (KeyError "documents"), w))
  /\ (forall docs,
        has_answer state = false -> documents state = Some docs ->
        question state = None ->
        generative_node E state w = (Raise (KeyError "question"), w)).
Proof.
  repeat split.
  - intros Hq. rewrite retrieve_node_spec, Hq. cbv zeta.
    now destruct (Chroma_init E RAGEngine.persist_directory).
  - intros Hd. unfold grade_documents_node. now rewrite Hd.
  - intros Hq Hd. unfold grade_documents_node. now rewrite Hd.
  - intros doc rest Hq Hd. unfold grade_documents_node. rewrite Hd.
    unfold bind at 1, getitem at 1, ret at 1. unfold bind at 1.
    cbn [grade_loop]. now rewrite Hq.
  - intros Hno Hd. unfold generative_node. now rewrite Hno, Hd.
  - intros docs Hno Hd Hq. unfold generative_node. now rewrite Hno, Hd, Hq.
Qed.

(** The prompt [generative_node] builds from the state. *)
Definition prompt_of (docs : list string) (q : string) : string :=
  generate_prompt (Py.join (Py.nl ++ Py.nl) docs) q.

(** What [generative_node] answers for the outcome of the model call. *)
Definition answer_of (o : Outcome string) : string :=
  match o with
  | Ok response_content => response_content
  | Raise e => "Error: " ++ exc_str e
  end.

Lemma generative_node_calls_once state docs q w :
  has_answer state = false ->
  documents state = Some docs ->
  question state = Some q ->
  generative_node E state w
  = (Ok (mkState None None
           (Some (answer_of (llm_invoke E (calls w) (prompt_of docs q))))
           None),
     set_calls (calls w ++ [call_llm_invoke (prompt_of docs q)]) w).
Proof.
  intros Hno Hd Hq. unfold generative_node. rewrite Hno, Hd, Hq.
  unfold bind, try_except, invoke_llm, getitem, ret, get_calls,
    log_call, of_outcome, bind; cbv beta zeta.
  fold (prompt_of docs q).
  destruct (llm_invoke E (calls w) (prompt_of docs q)); reflexivity.
Qed.

(** X4.  On a state without an answer [generative_node] makes exactly one
    model call, and the prompt of that call contains the text of every
    filtered chunk and the question, verbatim. *)
Theorem generate_prompt_quotes_context state docs q w :
  has_answer state = false ->
  documents state = Some docs ->
  question state = Some q ->
  exists prompt,
    calls (snd (generative_node E state w))
    = (calls w ++ [call_llm_invoke prompt])%list
    /\ (forall doc, In doc docs -> Py.contains doc prompt = true)
    /\ Py.contains q prompt = true.
Proof.
  intros Hno Hd Hq. exists (prompt_of docs q).
  rewrite (generative_node_calls_once state docs q w Hno Hd Hq).
  split; [reflexivity|]. unfold prompt_of, generate_prompt. split.
  - intros doc Hin. do 4 apply contains_append_r.
    apply contains_append_l. now apply contains_join.
  - do 8 apply contains_append_r. apply contains_self_append.
Qed.

(** The state after [generative_node] ran through the graph. *)
Lemma run_generate state docs q w :
  has_answer state = false ->
  documents state = Some docs ->
  question state = Some q ->
  run_node (generative_node E) state w
  = (Ok (mkState (Some q) (Some docs)
           (Some (answer_of (llm_invoke E (calls w) (prompt_of docs q))))
           (run_web_search state)),
     set_calls (calls w ++ [call_llm_invoke (prompt_of docs q)]) w).
Proof.
  intros Hno Hd Hq. unfold run_node, bind.
  rewrite (generative_node_calls_once state docs q w Hno Hd Hq).
  unfold ret, apply_update; simpl. now rewrite Hd, Hq.
Qed.

Lemma run_generate_answered state w :
  has_answer state = true ->
  run_node (generative_node E) state w = (Ok state, w).
Proof.
  intros Hhas. unfold run_node, bind, generative_node. rewrite Hhas.
  unfold ret. f_equal. f_equal.
  destruct state as [q d an f]; unfold apply_update; simpl.
  destruct q, d, an, f; reflexivity.
Qed.

Lemma grade_node_trace state q docs w :
  question state = Some q ->
  documents state = Some docs ->
  exists kept w',
    grade_documents_node E state w
    = (Ok (mkState None (Some kept) None None), w')
    /\ Subsequence kept docs
    /\ calls w' = (calls w ++ judgment_calls q docs)%list
    /\ same_outside_model w w'.
Proof.
  intros Hq Hd.
  destruct (grade_loop_trace state q docs Hq [] w)
    as (kept & w' & Hloop & Hsub & Hcalls & Hsame).
  exists kept, w'. unfold grade_documents_node. rewrite Hd.
  unfold bind at 1, getitem, ret at 1. unfold bind at 1. rewrite Hloop.
  repeat split; assumption || apply Hsame.
Qed.

(** X5.  Once GENERATE has produced a non-empty answer, be it the model's
    text or the error text, running it again through the graph changes
    nothing: two runs give the state and the world of one run, so the
    model is called once. *)
Theorem generate_settles_after_first_answer state docs q w :
  has_answer state = false ->
  documents state = Some docs ->
  question state = Some q ->
  answer_of (llm_invoke E (calls w) (prompt_of docs q)) <> "" ->
  (s1 <- run_node (generative_node E) state ;;
   run_node (generative_node E) s1) w
  = run_node (generative_node E) state w.
Proof.
  intros Hno Hd Hq Hans. unfold bind at 1.
  rewrite (run_generate state docs q w Hno Hd Hq).
  set (a := answer_of _) in *.
  apply run_generate_answered. unfold has_answer. cbn [answer].
  destruct a; [now elim Hans | reflexivity].
Qed.

(** X6.  The guard of GENERATE tests the truth value of the answer: when
    the model returns the empty string, the answer stored is empty and a
    second run calls the model again with the same prompt. *)
Theorem generate_repeats_on_empty_answer state docs q w :
  has_answer state = false ->
  documents state = Some docs ->
  question state = Some q ->
  llm_invoke E (calls w) (prompt_of docs q) = Ok "" ->
  answer (match fst (run_node (generative_node E) state w) with
          | Ok s1 => s1
          | Raise _ => state
          end) = Some ""
  /\ calls (snd ((s1 <- run_node (generative_node E) state ;;
                  run_node (generative_node E) s1) w))
     = (calls w ++ [call_llm_invoke (prompt_of docs q);
                    call_llm_invoke (prompt_of docs q)])%list.
Proof.
  intros Hno Hd Hq Hllm. unfold bind at 1.
  rewrite (run_generate state docs q w Hno Hd Hq), Hllm.
  cbn [answer_of fst answer]. split; [reflexivity|].
  rewrite (run_generate _ docs q) by reflexivity.
  cbn [snd calls set_calls]. now rewrite <- app_assoc.
Qed.

(** Calls to the chat model. *)
Definition is_model_call (c : ExtCall) : bool :=
  match c with
  | call_llm_invoke _ => true
  | _ => false
  end.

Definition model_calls (w : World) : list ExtCall :=
  filter is_model_call (calls w).

(** The workflow once retrieval has returned [found]. *)
Lemma agent_graph_after_retrieval inputs q found w :
  question inputs = Some q ->
  Chroma_init E RAGEngine.persist_directory = None ->
  mmr_search E (chroma_db w) (mkRetriever "mmr" 1 5) q = Ok found ->
  exists s kept w',
    agent_graph E inputs w = (Ok s, w')
    /\ question s = Some q
    /\ documents s = Some kept
    /\ Subsequence kept (map page_content found)
    /\ (exists a, answer s = Some a)
    /\ run_web_search s = Some false
    /\ same_outside_model w w'
    /\ (has_answer inputs = false ->
        calls w'
        = (calls w ++ [call_Chroma RAGEngine.persist_directory;
                       call_retriever_invoke q]
             ++ judgment_calls q (map page_content found)
             ++ [call_llm_invoke (prompt_of kept q)])%list).
Proof.
  intros Hq Hopen Hfound. unfold agent_graph.
  unfold bind at 1, run_node at 1, bind at 1.
  rewrite retrieve_node_spec, Hopen, Hq, Hfound. cbv zeta.
  unfold ret at 1.
  set (texts := map page_content found).
  set (w1 := set_calls _ w).
  set (s1 := apply_update inputs _).
  assert (Hs1 : s1 = mkState (Some q) (Some texts) (answer inputs) (Some false)).
  { unfold s1, apply_update; simpl. now rewrite Hq. }
  destruct (grade_node_trace s1 q texts w1)
    as (kept & w2 & Hgrade & Hsub & Hcalls2 & Hsame2);
    [now rewrite Hs1 | now rewrite Hs1 |].
  unfold bind at 1, run_node at 1, bind at 1. rewrite Hgrade.
  unfold ret at 1.
  set (s2 := apply_update s1 _).
  assert (Hs2 : s2 = mkState (Some q) (Some kept) (answer inputs) (Some false)).
  { unfold s2. rewrite Hs1. reflexivity. }
  cbn [decide_to_generate String.eqb Ascii.eqb Bool.eqb].
  assert (Hw1 : same_outside_model w w1) by (repeat split).
  destruct (has_answer inputs) eqn:Hans.
  - (* the inputs already hold an answer *)
    assert (Hex : exists a, answer inputs = Some a /\ a <> "").
    { unfold has_answer in Hans. destruct (answer inputs) as [a|];
        [|discriminate]. exists a. split; [reflexivity|].
      intros ->. discriminate. }
    destruct Hex as (a & Ha & Hne).
    rewrite (run_generate_answered s2 w2)
      by (rewrite Hs2; unfold has_answer in *; exact Hans).
    exists s2, kept, w2. rewrite Hs2.
    split; [reflexivity|]. split; [reflexivity|]. split; [reflexivity|].
    split; [exact Hsub|]. split; [now exists a|]. split; [reflexivity|].
    split; [now apply (same_outside_model_trans w w1 w2)|discriminate].
  - rewrite (run_generate s2 kept q w2);
      [| now rewrite Hs2 | now rewrite Hs2 | now rewrite Hs2].
    eexists; exists kept; eexists. split; [reflexivity|].
    split; [reflexivity|]. split; [reflexivity|]. split; [exact Hsub|].
    split; [eexists; reflexivity|]. split; [now rewrite Hs2|].
    split.
    + apply (same_outside_model_trans w w2);
        [now apply (same_outside_model_trans w w1 w2)|].
      repeat split.
    + intros _. cbn [calls set_calls]. rewrite Hcalls2.
      unfold w1. cbn [calls set_calls]. now rewrite <- !app_assoc.
Qed.

(** The workflow raises only in its first node, so before any call to
    the chat model. *)
Lemma agent_graph_raises_before_the_model inputs w e w' :
  agent_graph E inputs w = (Raise e, w') ->
  model_calls w' = model_calls w.
Proof.
  intros Hrun.
  assert (Hlog : forall cs,
             forallb (fun c => negb (is_model_call c)) cs = true ->
             model_calls (set_calls (calls w ++ cs) w) = model_calls w).
  { intros cs Hcs. unfold model_calls. cbn [calls set_calls].
    rewrite filter_app.
    replace (filter is_model_call cs) with (@nil ExtCall);
      [apply app_nil_r|].
    induction cs as [|c cs IH]; [reflexivity|].
    cbn [forallb] in Hcs. apply andb_prop in Hcs. destruct Hcs as [Hc Hcs].
    cbn [filter]. destruct (is_model_call c); [discriminate | now apply IH]. }
  destruct (Chroma_init E RAGEngine.persist_directory) as [e0|] eqn:Hopen.
  - unfold agent_graph, bind at 1, run_node at 1, bind at 1 in Hrun.
    rewrite retrieve_node_spec, Hopen in Hrun. cbv zeta in Hrun.
    inversion Hrun; subst. now apply Hlog.
  - destruct (question inputs) as [q|] eqn:Hq.
    + destruct (mmr_search E (chroma_db w) (mkRetriever "mmr" 1 5) q)
        as [found|e0] eqn:Hfound.
      * destruct (agent_graph_after_retrieval inputs q found w Hq Hopen Hfound)
          as (s & kept & w2 & Hok & _).
        rewrite Hok in Hrun. discriminate.
      * unfold agent_graph, bind at 1, run_node at 1, bind at 1 in Hrun.
        rewrite retrieve_node_spec, Hopen, Hq, Hfound in Hrun.
        cbv zeta in Hrun. inversion Hrun; subst. now apply Hlog.
    + unfold agent_graph, bind at 1, run_node at 1, bind at 1 in Hrun.
      rewrite retrieve_node_spec, Hopen, Hq in Hrun. cbv zeta in Hrun.
      inversion Hrun; subst. now apply Hlog.
Qed.

(** X7.  The workflow does not fail on the model.  When the inputs hold a
    question and the retriever returns (the collection opens and the
    search returns), [agent_graph] ends normally, whatever the judgment
    and generation calls return or raise.  The final state keeps the
    question, holds a selection of the retrieved texts in retrieval
    order, holds an answer, and has the web-search flag false; only the
    call log and the console have changed.  With no answer in the inputs
    the calls are: the opening of the collection, the retrieval, one
    judgment per retrieved text, one generation on the selection. *)
Theorem agent_graph_always_answers inputs q found w :
  question inputs = Some q ->
  Chroma_init E RAGEngine.persist_directory = None ->
  mmr_search E (chroma_db w) (mkRetriever "mmr" 1 5) q = Ok found ->
  exists s kept w',
    agent_graph E inputs w = (Ok s, w')
    /\ question s = Some q
    /\ documents s = Some kept
    /\ Subsequence kept (map page_content found)
    /\ (exists a, answer s = Some a)
    /\ run_web_search s = Some false
    /\ same_outside_model w w'
    /\ (has_answer inputs = false ->
        calls w'
        = (calls w ++ [call_Chroma RAGEngine.persist_directory;
                       call_retriever_invoke q]
             ++ judgment_calls q (map page_content found)
             ++ [call_llm_invoke (prompt_of kept q)])%list).
Proof.
  intros Hq Hopen Hfound.
  destruct (agent_graph_after_retrieval inputs q found w Hq Hopen Hfound)
    as (s & kept & w' & Hrun & Hrest).
  exists s, kept, w'. split; [exact Hrun | exact Hrest].
Qed.

(** X8.  A failure of the retriever is the failure of the workflow.
    When opening the collection raises, that exception leaves
    [agent_graph] after that call alone, whether or not the inputs hold
    a question.  When the collection opens and the search raises, that
    exception leaves [agent_graph] after these two calls.  Without a
    question the workflow raises [KeyError('question')] once the
    collection is open.  In none of these cases is the model called. *)
Theorem agent_graph_fails_with_retrieval inputs w :
  let opened := call_Chroma RAGEngine.persist_directory in
  (forall e,
      Chroma_init E RAGEngine.persist_directory = Some e ->
      agent_graph E inputs w
      = (Raise e, set_calls (calls w ++ [opened]) w))
  /\ (forall q e,
        question inputs = Some q ->
        Chroma_init E RAGEngine.persist_directory = None ->
        mmr_search E (chroma_db w) (mkRetriever "mmr" 1 5) q = Raise e ->
        agent_graph E inputs w
        = (Raise e,
           set_calls (calls w ++ [opened; call_retriever_invoke q]) w))
  /\ (question inputs = None ->
      Chroma_init E RAGEngine.persist_directory = None ->
      agent_graph E inputs w
      = (Raise (KeyError "question"), set_calls (calls w ++ [opened]) w)).
Proof.
  intros opened. repeat split.
  - intros e Hopen. unfold agent_graph.
    unfold bind at 1, run_node at 1, bind at 1.
    now rewrite retrieve_node_spec, Hopen.
  - intros q e Hq Hopen Hfail. unfold agent_graph.
    unfold bind at 1, run_node at 1, bind at 1.
    now rewrite retrieve_node_spec, Hopen, Hq, Hfail.
  - intros Hq Hopen. unfold agent_graph.
    unfold bind at 1, run_node at 1, bind at 1.
    now rewrite retrieve_node_spec, Hopen, Hq.
Qed.

End WorkflowProperties.

Lemma grade_selects_in_order_witness :
  exists kept w',
    Graph.grade_documents_node Cases.picky Cases.retrieved
      Scenarios.fresh_world
    = (Ok (Graph.mkState None (Some kept) None None), w')
    /\ Subsequence kept ["Senior engineer"; "Lorem ipsum"; "Skills: Rocq"]
    /\ length (calls w') = 3.
Proof.
  destruct (grade_selects_in_order Cases.picky Cases.retrieved
              Cases.title_question
              ["Senior engineer"; "Lorem ipsum"; "Skills: Rocq"]
              Scenarios.fresh_world eq_refl eq_refl)
    as (kept & w' & Hnode & Hsub & _ & Hcalls & _).
  exists kept, w'. split; [exact Hnode|]. split; [exact Hsub|].
  now rewrite Hcalls.
Defined.

Lemma grade_is_a_filter_witness :
  fst (Graph.grade_documents_node Cases.picky Cases.retrieved
         Scenarios.fresh_world)
  = Ok (Graph.mkState None (Some ["Senior engineer"; "Skills: Rocq"])
          None None).
Proof.
  exact (grade_is_a_filter Cases.picky Cases.retrieved Cases.title_question
           ["Senior engineer"; "Lorem ipsum"; "Skills: Rocq"]
           (fun doc => Cases.picky_model
                         (Graph.grade_prompt Cases.title_question doc))
           Scenarios.fresh_world eq_refl eq_refl
           (fun _ _ _ => eq_refl)).
Defined.

Lemma missing_state_keys_witness :
  Graph.retrieve_node Cases.picky (Graph.mkState None None None None)
    Scenarios.fresh_world
  = (Raise (KeyError "question"),
     set_calls [call_Chroma "./chroma_db"] Scenarios.fresh_world)
  /\ Graph.retrieve_node Cases.index_locked
       (Graph.mkState None None None None) Scenarios.fresh_world
     = (Raise Cases.store_error,
        set_calls [call_Chroma "./chroma_db"] Scenarios.fresh_world)
  /\ Graph.generative_node Cases.picky (Graph.mkState None None None None)
       Scenarios.fresh_world
     = (Raise (KeyError "documents"), Scenarios.fresh_world).
Proof.
  destruct (missing_state_keys Cases.picky
              (Graph.mkState None None None None) Scenarios.fresh_world)
    as (Hretrieve & _ & _ & _ & Hgenerate & _).
  destruct (missing_state_keys Cases.index_locked
              (Graph.mkState None None None None) Scenarios.fresh_world)
    as (Hlocked & _).
  split; [now apply Hretrieve|]. split; [now apply Hlocked|].
  now apply Hgenerate.
Defined.

Lemma generate_prompt_quotes_context_witness :
  exists prompt,
    calls (snd (Graph.generative_node Cases.picky Cases.retrieved
                  Scenarios.fresh_world))
    = [call_llm_invoke prompt]
    /\ Py.contains "Skills: Rocq" prompt = true
    /\ Py.contains Cases.title_question prompt = true.
Proof.
  destruct (generate_prompt_quotes_context Cases.picky Cases.retrieved
              ["Senior engineer"; "Lorem ipsum"; "Skills: Rocq"]
              Cases.title_question Scenarios.fresh_world
              eq_refl eq_refl eq_refl)
    as (prompt & Hcalls & Hdocs & Hq).
  exists prompt. split; [exact Hcalls|]. split; [|exact Hq].
  apply Hdocs. right. right. now left.
Defined.

Lemma generate_settles_after_first_answer_witness :
  (s1 <- Graph.run_node (Graph.generative_node Cases.picky) Cases.retrieved ;;
   Graph.run_node (Graph.generative_node Cases.picky) s1)
    Scenarios.fresh_world
  = Graph.run_node (Graph.generative_node Cases.picky) Cases.retrieved
      Scenarios.fresh_world.
Proof.
  apply (generate_settles_after_first_answer Cases.picky Cases.retrieved
           ["Senior engineer"; "Lorem ipsum"; "Skills: Rocq"]
           Cases.title_question Scenarios.fresh_world
           eq_refl eq_refl eq_refl).
  discriminate.
Defined.

Lemma generate_repeats_on_empty_answer_witness :
  length (calls (snd ((s1 <- Graph.run_node (Graph.generative_node Cases.mute)
                              Cases.retrieved ;;
                       Graph.run_node (Graph.generative_node Cases.mute) s1)
                        Scenarios.fresh_world))) = 2.
Proof.
  destruct (generate_repeats_on_empty_answer Cases.mute Cases.retrieved
              ["Senior engineer"; "Lorem ipsum"; "Skills: Rocq"]
              Cases.title_question Scenarios.fresh_world
              eq_refl eq_refl eq_refl eq_refl) as [_ Hcalls].
  now rewrite Hcalls.
Defined.

Lemma agent_graph_always_answers_witness :
  exists s kept w',
    Graph.agent_graph Cases.picky (Scenarios.asked Cases.title_question)
      Scenarios.fresh_world = (Ok s, w')
    /\ Graph.documents s = Some kept
    /\ Graph.run_web_search s = Some false
    /\ length (calls w') = 6.
Proof.
  destruct (agent_graph_always_answers Cases.picky
              (Scenarios.asked Cases.title_question) Cases.title_question
              Cases.found_pages Scenarios.fresh_world eq_refl eq_refl eq_refl)
    as (s & kept & w' & Hrun & _ & Hdocs & _ & _ & Hflag & _ & Hcalls).
  exists s, kept, w'. split; [exact Hrun|]. split; [exact Hdocs|].
  split; [exact Hflag|]. now rewrite Hcalls.
Defined.

Lemma agent_graph_fails_with_retrieval_witness :
  Graph.agent_graph Cases.retriever_down
    (Scenarios.asked Cases.title_question) Scenarios.fresh_world
  = (Raise Cases.store_error,
     set_calls [call_Chroma "./chroma_db";
                call_retriever_invoke Cases.title_question]
       Scenarios.fresh_world)
  /\ Graph.agent_graph Cases.index_locked
       (Graph.mkState None None None None) Scenarios.fresh_world
     = (Raise Cases.store_error,
        set_calls [call_Chroma "./chroma_db"] Scenarios.fresh_world).
Proof.
  destruct (agent_graph_fails_with_retrieval Cases.retriever_down
              (Scenarios.asked Cases.title_question) Scenarios.fresh_world)
    as (_ & Hfail & _).
  destruct (agent_graph_fails_with_retrieval Cases.index_locked
              (Graph.mkState None None None None) Scenarios.fresh_world)
    as (Hlocked & _).
  split; [|exact (Hlocked Cases.store_error eq_refl)].
  exact (Hfail Cases.title_question Cases.store_error eq_refl eq_refl
           eq_refl).
Defined.

(** * The relay and the runs of the workflow *)

Section WorkflowRuns.

Variable E : Collaborators.

(** [astream_events] streams a run of the compiled graph on the inputs.
    For the iteration the relay starts in [w], with the call on record:
    the iteration ends with the exception the graph raises, if it raises
    one, and ends normally otherwise; and the model-stream events that
    carry text come from calls to the chat model, so that a run of the
    graph in which the model is not called yields none.  What else the
    stream holds is the library's. *)
Definition streams_the_workflow (query : string) (w : World) : Prop :=
  let start := set_calls (calls w ++ [call_astream_events query]) w in
  let r := Graph.agent_graph E (Main.inputs query) start in
  let run := run_of E query w in
  run_error run = match fst r with
                  | Ok _ => None
                  | Raise e => Some e
                  end
  /\ (model_calls (snd r) = model_calls start ->
      streamed_contents (run_events run) = []).

(** The world in which the relay starts the workflow: the one left by
    the saving of the question. *)
Definition question_saved (cid query : string) (w : World) : World :=
  snd (Main.save_user_message E cid query w).

Lemma run_of_question_saved cid q w :
  run_of E q (question_saved cid q w) = run_of E q w.
Proof.
  unfold question_saved, run_of.
  destruct (save_user_message_step E cid q w)
    as (w1 & added & Hsave & Hstep & _).
  rewrite Hsave. cbn [snd].
  destruct Hstep as (_ & Hcalls & _). now rewrite Hcalls.
Qed.

(** A run that raises has streamed no text: the graph raises only before
    its first call to the model. *)
Lemma failing_run_streams_no_text cid q w e :
  streams_the_workflow q (question_saved cid q w) ->
  run_error (run_of E q w) = Some e ->
  streamed_contents (run_events (run_of E q w)) = [].
Proof.
  unfold streams_the_workflow. rewrite run_of_question_saved.
  cbv zeta. intros [Herror Htokens] Hrun.
  apply Htokens.
  rewrite Hrun in Herror.
  destruct (Graph.agent_graph E (Main.inputs q) _) as [[s|e0] w'] eqn:Hgraph;
    cbn [fst snd] in *; [discriminate|].
  exact (agent_graph_raises_before_the_model E _ _ _ _ Hgraph).
Qed.


(** C10.  In every turn the messages appended to the store are such that:
    an assistant message among them implies a non-empty accumulated
    answer, which the message holds; conversely, when the accumulated
    answer is non-empty, the conversation exists and the store is
    healthy, that assistant message is appended.  When the run raises,
    no text has been streamed and no assistant message is appended,
    although the client is sent a chunk event and the end event; when no
    text was streamed, none is appended either. *)
Theorem assistant_message_persistence cid q w :
  streams_the_workflow q (question_saved cid q w) ->
  let run := run_of E q w in
  let text := streamed_text (run_events run) in
  exists w' added,
    Main.chat_turn E cid q w = (Ok tt, w')
    /\ messages (database w') = (messages (database w) ++ added)%list
    /\ (forall m, In m added -> role m = "assistant" ->
        text <> "" /\ m = mkMessage cid "assistant" text)
    /\ (text <> "" ->
        store_healthy w -> conversation_exists cid w = true ->
        In (mkMessage cid "assistant" text) added)
    /\ (forall e, run_error run = Some e ->
        text = ""
        /\ (forall m, In m added -> role m <> "assistant")
        /\ ws_sent w'
           = (ws_sent w ++ forwarded (run_events run)
                ++ [Main.chunk_event (error_text e); Main.end_event])%list)
    /\ (text = "" -> forall m, In m added -> role m <> "assistant").
Proof.
  intros Hlink run text.
  assert (Huser : forall added m,
             added = [] \/ added = [mkMessage cid "user" q] ->
             In m added -> role m <> "assistant").
  { intros added m [->| ->] Hin; [now elim Hin|].
    destruct Hin as [<-|[]]. discriminate. }
  destruct (run_error run) as [e|] eqn:Hrun.
  - assert (Hnone : text = "").
    { apply streamed_text_empty.
      exact (failing_run_streams_no_text cid q w e Hlink Hrun). }
    destruct (chat_turn_failed E cid q w e Hrun)
      as (w' & added & Hturn & Hsent & Hmsgs & Hadded & _).
    exists w', added. split; [exact Hturn|]. split; [exact Hmsgs|].
    split; [intros m Hin Hrole; now elim (Huser added m Hadded Hin)|].
    split; [intros Hsome; now elim Hsome|].
    split; [|intros _ m Hin; exact (Huser added m Hadded Hin)].
    intros e0 He0. inversion He0; subst e0.
    split; [exact Hnone|].
    split; [intros m Hin; exact (Huser added m Hadded Hin) | exact Hsent].
  - destruct (chat_turn_completed E cid q w Hrun)
      as (w' & added_u & added_a & Hturn & _ & Hmsgs & Hadded_u & Hadded_a
          & Hnone & Hsaved & _).
    fold run in Hadded_a, Hnone, Hsaved. fold text in Hadded_a, Hnone, Hsaved.
    exists w', (added_u ++ added_a)%list.
    split; [exact Hturn|]. split; [exact Hmsgs|].
    split.
    { intros m Hin Hrole. apply in_app_or in Hin. destruct Hin as [Hin|Hin].
      - now elim (Huser added_u m Hadded_u Hin).
      - destruct Hadded_a as [->| ->]; [now elim Hin|].
        destruct Hin as [<-|[]].
        split; [|reflexivity].
        intros Hempty. discriminate (Hnone Hempty). }
    split.
    { intros Hsome Hhealthy Hex. apply in_or_app. right.
      destruct (Hsaved Hhealthy Hex) as [_ Hanswer].
      rewrite (Hanswer Hsome). now left. }
    split; [discriminate|].
    intros Hempty m Hin. apply in_app_or in Hin. destruct Hin as [Hin|Hin].
    + exact (Huser added_u m Hadded_u Hin).
    + rewrite (Hnone Hempty) in Hin. now elim Hin.
Qed.

End WorkflowRuns.


Lemma assistant_message_persistence_witness :
  let E := Scenarios.greeting in
  let w := Scenarios.open_chat in
  exists w' added,
    Main.chat_turn E "c1" "hi" w = (Ok tt, w')
    /\ messages (database w') = (messages (database w) ++ added)%list
    /\ In (mkMessage "c1" "assistant" "Hello") added.
Proof.
  destruct (assistant_message_persistence Scenarios.greeting "c1" "hi"
              Scenarios.open_chat)
    as (w' & added & Hturn & Hmsgs & _ & Hif & _).
  { split; [reflexivity|]. intros Hcalls. vm_compute in Hcalls.
    discriminate Hcalls. }
  exists w', added. split; [exact Hturn|]. split; [exact Hmsgs|].
  apply Hif; [discriminate | constructor | reflexivity].
Defined.

(** An answer is streamed in full for a conversation that has no row:
    the accumulated text is non-empty, the run of the workflow ends
    normally, the store meets no other failure, yet the foreign key of
    the message is refused and no assistant message is stored. *)
Lemma answer_for_unknown_conversation_not_persisted :
  let E := Scenarios.greeting in
  let w := Scenarios.open_chat in
  let w' := snd (Main.chat_turn E "c9" "hi" w) in
  streams_the_workflow E "hi" (question_saved E "c9" "hi" w)
  /\ run_error (run_of E "hi" w) = None
  /\ streamed_text (run_events (run_of E "hi" w)) = "Hello"
  /\ streamed_text (run_events (run_of E "hi" w)) <> ""
  /\ conversation_exists "c9" w = false
  /\ db_faults w = []
  /\ ws_sent w'
     = [Main.status_event; Main.chunk_event "Hel"; Main.chunk_event "lo";
        Main.end_event]
  /\ messages (database w') = []
  /\ (forall m, In m (messages (database w')) -> role m <> "assistant").
Proof.
  split.
  { split; [reflexivity|]. intros Hcalls. vm_compute in Hcalls.
    discriminate Hcalls. }
  split; [reflexivity|]. split; [reflexivity|]. split; [discriminate|].
  split; [reflexivity|]. split; [reflexivity|]. split; [reflexivity|].
  split; [reflexivity|]. intros m [].
Qed.

(** * Further properties of ingestion *)

Section MoreIngestionProperties.

Variable E : Collaborators.

Import RAGEngine.

Lemma ocr_pages_outside file_path images :
  forall i acc w,
    same_outside_model w (snd (ocr_pages E file_path i images acc w)).
Proof.
  induction images as [|image rest IH]; intros i acc w;
    [apply same_outside_model_refl|].
  cbn [ocr_pages]. unfold bind at 1, log_call. unfold bind at 1, of_outcome.
  destruct (image_to_string E image) as [text|e]; [|repeat split].
  destruct (Py.strip_truthy text).
  - unfold bind at 1, print.
    eapply same_outside_model_trans; [|apply IH]. repeat split.
  - eapply same_outside_model_trans; [|apply IH]. repeat split.
Qed.

Lemma extract_text_with_ocr_outside file_path w :
  same_outside_model w (snd (extract_text_with_ocr E file_path w)).
Proof.
  unfold extract_text_with_ocr.
  destruct (OCR_AVAILABLE E); cbn [negb]; [|apply same_outside_model_refl].
  unfold bind at 1, print, try_except, bind at 1, log_call.
  unfold bind at 1, of_outcome.
  destruct (convert_from_path E file_path 300 (find_poppler_path E))
    as [images|e]; [|repeat split].
  match goal with
  | |- context [ocr_pages E file_path 0 images [] ?w1] =>
      pose proof (ocr_pages_outside file_path images 0 [] w1) as Hf;
      destruct (ocr_pages E file_path 0 images [] w1) as [[ps|e] w2]
  end; cbn [snd] in *.
  - eapply same_outside_model_trans; [|exact Hf]. repeat split.
  - unfold bind, print, raise. cbn [snd].
    eapply same_outside_model_trans;
      [eapply same_outside_model_trans; [|exact Hf]|]; repeat split.
Qed.

Lemma extract_text_outside file_path w :
  same_outside_model w (snd (extract_text E file_path w)).
Proof.
  destruct (PyPDFLoader_load E file_path) as [documents|e] eqn:Hload.
  - destruct (nonblank_pages documents) as [|page pages] eqn:Hnb.
    + rewrite (extract_text_fallback E _ _ w Hload Hnb).
      match goal with
      | |- context [extract_text_with_ocr E file_path ?w1] =>
          pose proof (extract_text_with_ocr_outside file_path w1) as Hf;
          destruct (extract_text_with_ocr E file_path w1)
            as [[[|p ps]|e] w2]
      end; cbn [snd] in *;
        (eapply same_outside_model_trans; [|exact Hf]); repeat split.
    + rewrite (extract_text_direct E _ _ w Hload) by (rewrite Hnb; discriminate).
      repeat split.
  - rewrite (extract_text_load_fails E _ _ w Hload). repeat split.
Qed.

Lemma index_text_effect text_documents w :
  let chunks := split_documents E text_splitter text_documents in
  let r := index_text E text_documents w in
  database (snd r) = database w
  /\ db_faults (snd r) = db_faults w
  /\ ws_sent (snd r) = ws_sent w
  /\ ws_open (snd r) = ws_open w
  /\ match fst r with
     | Ok _ => chroma_db (snd r) = (chroma_db w ++ chunks)%list
     | Raise _ => chroma_db (snd r) = chroma_db w
     end.
Proof.
  intros chunks r. unfold r, index_text. fold chunks.
  destruct chunks as [|c cs]; [repeat split|].
  unfold bind, print, chroma_from_documents, bind, log_call, raise, ret.
  destruct (Chroma_from_documents E (c :: cs)); repeat split.
Qed.

(** X9.  Ingestion writes to the index last and all at once: whenever
    [process_pdf] raises, the collection is what it was before the call;
    when it returns, the collection has grown at its end by the chunks of
    this file.  In no case does it touch the relational store or the
    websocket. *)
Theorem failed_ingestion_writes_nothing file_path w :
  let r := process_pdf E file_path w in
  (forall e, fst r = Raise e -> chroma_db (snd r) = chroma_db w)
  /\ (exists added, chroma_db (snd r) = (chroma_db w ++ added)%list)
  /\ database (snd r) = database w
  /\ db_faults (snd r) = db_faults w
  /\ ws_sent (snd r) = ws_sent w
  /\ ws_open (snd r) = ws_open w.
Proof.
  intros r. unfold r, process_pdf, bind.
  pose proof (extract_text_outside file_path w) as Hout.
  destruct (extract_text E file_path w) as [[pages|e] w1]; cbn [snd] in Hout;
    destruct Hout as (Hc & Hd & Hf & Hs & Ho).
  - pose proof (index_text_effect pages w1) as Hidx. cbv zeta in Hidx.
    destruct Hidx as (Hd2 & Hf2 & Hs2 & Ho2 & Hc2).
    destruct (index_text E pages w1) as [[msg|e] w2]; cbn [fst snd] in *.
    + split; [discriminate|]. split.
      * eexists. rewrite Hc2, Hc. reflexivity.
      * repeat split; congruence.
    + split; [intros _ _; congruence|]. split.
      * exists []. rewrite app_nil_r. congruence.
      * repeat split; congruence.
  - cbn [fst snd]. split; [intros _ _; exact Hc|]. split.
    + exists []. now rewrite app_nil_r.
    + repeat split; assumption.
Qed.

(** The page [extract_text_with_ocr] builds for the text recognised on the
    image at position [n], counted from 1. *)
Definition ocr_document (file_path : string) (n : nat) (text : string)
  : Document :=
  mkDocument text [("page", MInt n); ("source", MStr file_path);
                   ("extraction", MStr "ocr")].

(** The texts with their positions, counted from [first]. *)
Definition numbered (first : nat) (texts : list string)
  : list (nat * string) :=
  combine (seq first (length texts)) texts.

Definition recognised (images : list (Image E)) (texts : list string) : Prop :=
  Forall2 (fun image text => image_to_string E image = Ok text) images texts.

Lemma ocr_pages_numbered file_path images texts :
  recognised images texts ->
  forall i acc w,
    fst (ocr_pages E file_path i images acc w)
    = Ok (acc ++ map (fun nt => ocr_document file_path (fst nt) (snd nt))
                     (filter (fun nt => Py.strip_truthy (snd nt))
                             (numbered (i + 1) texts)))%list.
Proof.
  induction 1 as [|image text images texts Himage _ IH]; intros i acc w.
  - simpl. now rewrite app_nil_r.
  - cbn [ocr_pages]. unfold bind at 1, log_call. unfold bind at 1, of_outcome.
    rewrite Himage. unfold numbered. cbn [length seq combine filter snd].
    replace (S (i + 1)) with (S i + 1) by lia. fold (numbered (S i + 1) texts).
    destruct (Py.strip_truthy text).
    + unfold bind at 1, print. rewrite IH. cbn [map fst snd].
      unfold ocr_document at 2. now rewrite <- app_assoc.
    + apply IH.
Qed.

(** X10.  Pages read by OCR are numbered by their position in the file,
    from 1: when every image is recognised, the fallback returns the
    recognised texts that are not blank, each with the position of its
    image, in order, so the numbers skip the blank pages. *)
Theorem ocr_pages_keep_their_position file_path images texts w :
  OCR_AVAILABLE E = true ->
  convert_from_path E file_path 300 (find_poppler_path E) = Ok images ->
  recognised images texts ->
  fst (extract_text_with_ocr E file_path w)
  = Ok (map (fun nt => ocr_document file_path (fst nt) (snd nt))
            (filter (fun nt => Py.strip_truthy (snd nt))
                    (numbered 1 texts))).
Proof.
  intros Hocr Hconvert Htexts. unfold extract_text_with_ocr.
  rewrite Hocr. cbn [negb].
  unfold bind at 1, print, try_except, bind at 1, log_call.
  unfold bind at 1, of_outcome. rewrite Hconvert.
  match goal with
  | |- context [ocr_pages E file_path 0 images [] ?w1] =>
      pose proof (ocr_pages_numbered file_path images texts Htexts 0 [] w1)
        as Hpages;
      destruct (ocr_pages E file_path 0 images [] w1) as [[ps|e] w2]
  end; cbn [fst] in Hpages; [|discriminate].
  inversion Hpages; subst. reflexivity.
Qed.

(** What the fallback returns when every page image is recognised. *)
Lemma ocr_fallback_result file_path images texts w :
  OCR_AVAILABLE E = true ->
  convert_from_path E file_path 300 (find_poppler_path E) = Ok images ->
  recognised images texts ->
  fst (extract_text_with_ocr E file_path w)
  = Ok (map (fun nt => ocr_document file_path (fst nt) (snd nt))
            (filter (fun nt => Py.strip_truthy (snd nt))
                    (numbered 1 texts))).
Proof.
  intros Hocr Hconvert Htexts. unfold extract_text_with_ocr.
  rewrite Hocr. cbn [negb].
  unfold bind at 1, print, try_except, bind at 1, log_call.
  unfold bind at 1, of_outcome. rewrite Hconvert.
  match goal with
  | |- context [ocr_pages E file_path 0 images [] ?w1] =>
      pose proof (ocr_pages_numbered file_path images texts Htexts 0 [] w1)
        as Hpages;
      destruct (ocr_pages E file_path 0 images [] w1) as [[ps|e] w2]
  end; cbn [fst] in Hpages; [|discriminate].
  inversion Hpages; subst. reflexivity.
Qed.

(** C7.  Extraction is two-tier.  (1) When direct extraction finds a page
    with text, the extraction phase returns those pages after the loader
    call alone; an OCR call during [process_pdf] implies that direct
    extraction succeeded and left no page with text.  (2) When direct
    extraction leaves no page with text, the fallback runs and its
    result is the result of the extraction phase: with every page image
    recognised, the pages returned are exactly the recognised texts that
    are not blank, in order, each with the position of its image; if
    there is none, the phase raises.  (3) Every page the OCR fallback
    returns has text that is non-empty (and not blank).  (4) When direct
    extraction leaves nothing and the fallback yields no page either, by
    returning none or by failing, [process_pdf] raises a [ValueError].
    (5) The extraction phase never returns an empty page sequence. *)
Theorem extraction_two_tier file_path w :
  (forall documents,
      PyPDFLoader_load E file_path = Ok documents ->
      nonblank_pages documents <> [] ->
      extract_text E file_path w
      = (Ok (nonblank_pages documents),
         set_calls (calls w ++ [call_PyPDFLoader_load file_path]) w))
  /\ (ocr_calls (snd (process_pdf E file_path w)) <> ocr_calls w ->
      exists documents,
        PyPDFLoader_load E file_path = Ok documents
        /\ nonblank_pages documents = [])
  /\ (forall documents images texts,
        PyPDFLoader_load E file_path = Ok documents ->
        nonblank_pages documents = [] ->
        OCR_AVAILABLE E = true ->
        convert_from_path E file_path 300 (find_poppler_path E) = Ok images ->
        recognised images texts ->
        fst (extract_text E file_path w)
        = match map (fun nt => ocr_document file_path (fst nt) (snd nt))
                    (filter (fun nt => Py.strip_truthy (snd nt))
                            (numbered 1 texts)) with
          | [] =>
              Raise (ValueError
                "Could not extract any text from PDF (tried both regular extraction and OCR)")
          | page :: pages => Ok (page :: pages)
          end)
  /\ (forall w1 pages w2,
        extract_text_with_ocr E file_path w1 = (Ok pages, w2) ->
        Forall (fun d => page_content d <> "" /\ has_text d) pages)
  /\ (forall documents,
        PyPDFLoader_load E file_path = Ok documents ->
        nonblank_pages documents = [] ->
        (forall w1 page pages,
            fst (extract_text_with_ocr E file_path w1) <> Ok (page :: pages)) ->
        exists e,
          fst (process_pdf E file_path w) = Raise e
          /\ exc_class e = "ValueError")
  /\ (forall pages w',
        extract_text E file_path w = (Ok pages, w') ->
        pages <> [] /\ Forall has_text pages).
Proof.
  split; [intros; now apply extract_text_direct|].
  split.
  { intros Hocr.
    destruct (PyPDFLoader_load E file_path) as [documents|e] eqn:Hload.
    - destruct (nonblank_pages documents) as [|page pages] eqn:Hnb.
      + now exists documents.
      + exfalso. apply Hocr. unfold process_pdf, bind.
        rewrite (extract_text_direct E _ _ w Hload)
          by (rewrite Hnb; discriminate).
        rewrite index_text_ocr_frame. now apply ocr_calls_after_log.
    - exfalso. apply Hocr. unfold process_pdf, bind.
      rewrite (extract_text_load_fails E _ _ w Hload). simpl.
      now apply ocr_calls_after_log. }
  split.
  { intros documents images texts Hload Hnb Hocr Hconvert Htexts.
    rewrite (extract_text_fallback E _ _ w Hload Hnb).
    match goal with
    | |- context [extract_text_with_ocr E file_path ?w1] =>
        pose proof (ocr_fallback_result file_path images texts w1
                      Hocr Hconvert Htexts) as Hpages;
        destruct (extract_text_with_ocr E file_path w1) as [[ps|e] w2]
    end; cbn [fst] in Hpages; [|discriminate].
    inversion Hpages; subst. now destruct (map _ _). }
  split.
  { intros w1 pages w2 H.
    apply extract_text_with_ocr_keeps_text in H.
    eapply Forall_impl; [|exact H].
    intros d Hd. split; [now apply has_text_nonempty | exact Hd]. }
  split.
  { intros documents Hload Hnb Hnone.
    unfold process_pdf, bind.
    rewrite (extract_text_fallback E _ _ w Hload Hnb).
    match goal with
    | |- context [extract_text_with_ocr E file_path ?w1] =>
        pose proof (Hnone w1) as Hw1;
        destruct (extract_text_with_ocr E file_path w1)
          as [[[|page pages]|e] w2]
    end.
    - eexists; split; reflexivity.
    - now elim (Hw1 page pages).
    - eexists; split; reflexivity. }
  intros pages w' H.
  destruct (PyPDFLoader_load E file_path) as [documents|e] eqn:Hload.
  - destruct (nonblank_pages documents) as [|page ps] eqn:Hnb.
    + rewrite (extract_text_fallback E _ _ w Hload Hnb) in H.
      match type of H with
      | context [extract_text_with_ocr E file_path ?w1] =>
          destruct (extract_text_with_ocr E file_path w1)
            as [[[|p0 ps0]|e] w2] eqn:Hocr
      end; try discriminate.
      inversion H; subst. split; [discriminate|].
      now apply extract_text_with_ocr_keeps_text in Hocr.
    + rewrite (extract_text_direct E _ _ w Hload) in H
        by (rewrite Hnb; discriminate).
      inversion H; subst. rewrite Hnb. split; [discriminate|].
      rewrite <- Hnb. apply nonblank_pages_have_text.
  - rewrite (extract_text_load_fails E _ _ w Hload) in H. discriminate.
Qed.

Lemma ocr_pages_first_failure file_path pre texts bad post e :
  recognised pre texts ->
  image_to_string E bad = Raise e ->
  forall i acc w, exists w',
    ocr_pages E file_path i (pre ++ bad :: post) acc w = (Raise e, w')
    /\ filter is_ocr_call (calls w')
       = (filter is_ocr_call (calls w)
            ++ map call_image_to_string (seq i (length pre + 1)))%list.
Proof.
  intros Hpre Hbad.
  induction Hpre as [|image text pre texts Himage _ IH]; intros i acc w.
  - cbn [app ocr_pages]. unfold bind at 1, log_call.
    unfold bind at 1, of_outcome. rewrite Hbad.
    eexists. split; [reflexivity|].
    cbn [calls set_calls]. now rewrite filter_app.
  - cbn [app ocr_pages length Nat.add seq map].
    unfold bind at 1, log_call. unfold bind at 1, of_outcome.
    rewrite Himage.
    destruct (Py.strip_truthy text);
      [unfold bind at 1, print|];
      match goal with
      | |- context [ocr_pages E file_path (S i) _ ?a ?w1] =>
          destruct (IH (S i) a w1) as (w' & Hr & Hc)
      end; exists w'; (split; [exact Hr|]);
      rewrite Hc; cbn [calls set_stdout set_calls];
      rewrite filter_app; cbn [filter is_ocr_call];
      now rewrite <- app_assoc.
Qed.

(** X11.  OCR is all or nothing: when the recognition of one image raises
    [e], the images after it are not read, the pages recognised before it
    are dropped, and [extract_text_with_ocr] raises a [ValueError] whose
    text wraps [str(e)]. *)
Theorem ocr_stops_at_first_failure file_path pre texts bad post e w :
  OCR_AVAILABLE E = true ->
  convert_from_path E file_path 300 (find_poppler_path E)
  = Ok (pre ++ bad :: post)%list ->
  recognised pre texts ->
  image_to_string E bad = Raise e ->
  exists w',
    extract_text_with_ocr E file_path w
    = (Raise (ValueError
         ("OCR extraction failed: " ++ exc_str e
          ++ ". Make sure Tesseract OCR and Poppler are installed.")), w')
    /\ filter is_ocr_call (calls w')
       = (filter is_ocr_call (calls w)
            ++ call_convert_from_path file_path (find_poppler_path E)
               :: map call_image_to_string (seq 0 (length pre + 1)))%list.
Proof.
  intros Hocr Hconvert Hpre Hbad. unfold extract_text_with_ocr.
  rewrite Hocr. cbn [negb].
  unfold bind at 1, print, try_except, bind at 1, log_call.
  unfold bind at 1, of_outcome. rewrite Hconvert.
  match goal with
  | |- context [ocr_pages E file_path 0 _ [] ?w1] =>
      destruct (ocr_pages_first_failure file_path pre texts bad post e
                  Hpre Hbad 0 [] w1) as (w2 & Hr & Hc)
  end.
  rewrite Hr. unfold bind, print, raise.
  eexists. split; [reflexivity|].
  cbn [calls set_stdout]. rewrite Hc. cbn [calls set_calls set_stdout].
  rewrite filter_app. cbn [filter is_ocr_call].
  now rewrite <- app_assoc.
Qed.

(** X12.  How each failure of ingestion reaches the caller of
    [process_pdf].  An exception of the loader and an exception of the
    vector store leave as they are.  A file without text gives a
    [ValueError]: with the text of the missing OCR libraries when OCR is
    not installed, with the doubly wrapped text of the failure when the
    page images cannot be produced.  A splitter that returns no chunk
    gives a [ValueError] as well. *)
Theorem ingestion_failures file_path w :
  (forall e,
      PyPDFLoader_load E file_path = Raise e ->
      fst (process_pdf E file_path w) = Raise e)
  /\ (forall documents,
        PyPDFLoader_load E file_path = Ok documents ->
        nonblank_pages documents = [] ->
        OCR_AVAILABLE E = false ->
        fst (process_pdf E file_path w)
        = Raise (ValueError
            ("PDF has no extractable text and OCR failed: "
             ++ "OCR libraries not installed. Please install pdf2image and pytesseract."))
        /\ filter is_ocr_call (calls (snd (process_pdf E file_path w)))
           = filter is_ocr_call (calls w))
  /\ (forall documents e,
        PyPDFLoader_load E file_path = Ok documents ->
        nonblank_pages documents = [] ->
        OCR_AVAILABLE E = true ->
        convert_from_path E file_path 300 (find_poppler_path E) = Raise e ->
        fst (process_pdf E file_path w)
        = Raise (ValueError
            ("PDF has no extractable text and OCR failed: "
             ++ "OCR extraction failed: " ++ exc_str e
             ++ ". Make sure Tesseract OCR and Poppler are installed.")))
  /\ (forall pages w1,
        extract_text E file_path w = (Ok pages, w1) ->
        split_documents E text_splitter pages = [] ->
        fst (process_pdf E file_path w)
        = Raise (ValueError "Could not extract any text chunks from the PDF"))
  /\ (forall pages w1 e,
        extract_text E file_path w = (Ok pages, w1) ->
        Chroma_from_documents E (split_documents E text_splitter pages)
        = Some e ->
        split_documents E text_splitter pages <> [] ->
        fst (process_pdf E file_path w) = Raise e).
Proof.
  split; [|split; [|split; [|split]]].
  - intros e Hload. unfold process_pdf, bind.
    now rewrite (extract_text_load_fails E _ _ w Hload).
  - intros documents Hload Hnb Hocr. unfold process_pdf, bind.
    rewrite (extract_text_fallback E _ _ w Hload Hnb).
    unfold extract_text_with_ocr. rewrite Hocr. cbn [negb].
    unfold raise. cbn [fst snd]. split; [reflexivity|].
    cbn [calls set_stdout set_calls]. rewrite filter_app.
    apply app_nil_r.
  - intros documents e Hload Hnb Hocr Hconvert. unfold process_pdf, bind.
    rewrite (extract_text_fallback E _ _ w Hload Hnb).
    unfold extract_text_with_ocr. rewrite Hocr. cbn [negb].
    unfold bind at 1, print, try_except, bind at 1, log_call.
    unfold bind at 1, of_outcome. rewrite Hconvert.
    unfold bind, print, raise. reflexivity.
  - intros pages w1 Hextract Hsplit. unfold process_pdf, bind.
    rewrite Hextract. unfold index_text. now rewrite Hsplit.
  - intros pages w1 e Hextract Hidx Hne. unfold process_pdf, bind.
    rewrite Hextract. unfold index_text.
    destruct (split_documents E text_splitter pages) as [|c cs];
      [now elim Hne|].
    unfold bind, print, chroma_from_documents, bind, log_call, raise.
    now rewrite Hidx.
Qed.

Lemma ocr_pages_outcome file_path images :
  forall i acc w w0,
    fst (ocr_pages E file_path i images acc w)
    = fst (ocr_pages E file_path i images acc w0).
Proof.
  induction images as [|image rest IH]; intros i acc w w0; [reflexivity|].
  cbn [ocr_pages]. unfold bind at 1, log_call. unfold bind at 1, of_outcome.
  unfold bind at 2, log_call. unfold bind at 2, of_outcome.
  destruct (image_to_string E image) as [text|e]; [|reflexivity].
  destruct (Py.strip_truthy text); [unfold bind, print|]; apply IH.
Qed.

Lemma extract_text_with_ocr_outcome file_path w w0 :
  fst (extract_text_with_ocr E file_path w)
  = fst (extract_text_with_ocr E file_path w0).
Proof.
  unfold extract_text_with_ocr.
  destruct (OCR_AVAILABLE E); cbn [negb]; [|reflexivity].
  unfold bind at 1, print, try_except, bind at 1, log_call.
  unfold bind at 1, of_outcome.
  unfold bind at 2, print, try_except, bind at 2, log_call.
  unfold bind at 2, of_outcome.
  destruct (convert_from_path E file_path 300 (find_poppler_path E))
    as [images|e]; [|reflexivity].
  match goal with
  | |- context [fst (let (_, _) := ocr_pages E file_path 0 images [] ?w1 in _)
                = fst (let (_, _) := ocr_pages E file_path 0 images [] ?w2 in _)] =>
      pose proof (ocr_pages_outcome file_path images 0 [] w1 w2) as Hsame;
      destruct (ocr_pages E file_path 0 images [] w1) as [[ps|e] w3];
      destruct (ocr_pages E file_path 0 images [] w2) as [[ps'|e'] w4]
  end; cbn [fst] in Hsame; try discriminate; inversion Hsame; subst;
    reflexivity.
Qed.

Lemma extract_text_outcome file_path w w0 :
  fst (extract_text E file_path w) = fst (extract_text E file_path w0).
Proof.
  destruct (PyPDFLoader_load E file_path) as [documents|e] eqn:Hload.
  - destruct (nonblank_pages documents) as [|page pages] eqn:Hnb.
    + rewrite (extract_text_fallback E _ _ w Hload Hnb),
        (extract_text_fallback E _ _ w0 Hload Hnb).
      match goal with
      | |- context [fst (match extract_text_with_ocr E file_path ?w1 with _ => _ end)
                    = fst (match extract_text_with_ocr E file_path ?w2 with _ => _ end)] =>
          pose proof (extract_text_with_ocr_outcome file_path w1 w2) as Hsame;
          destruct (extract_text_with_ocr E file_path w1) as [[[|p ps]|e] w3];
          destruct (extract_text_with_ocr E file_path w2) as [[[|p' ps']|e'] w4]
      end; cbn [fst] in Hsame; try discriminate; inversion Hsame; subst;
        reflexivity.
    + rewrite !(extract_text_direct E _ _ _ Hload) by (rewrite Hnb; discriminate).
      reflexivity.
  - now rewrite !(extract_text_load_fails E _ _ _ Hload).
Qed.

Lemma index_text_outcome text_documents w w0 :
  fst (index_text E text_documents w) = fst (index_text E text_documents w0).
Proof.
  unfold index_text.
  destruct (split_documents E text_splitter text_documents) as [|c cs];
    [reflexivity|].
  unfold bind, print, chroma_from_documents, bind, log_call, raise, ret.
  destruct (Chroma_from_documents E (c :: cs)); reflexivity.
Qed.

(** X13.  Ingestion does not look at what the index already holds: after
    [process_pdf] has returned for a file, running it again on the same
    file returns the same summary and appends the same chunks a second
    time. *)
Theorem ingesting_twice_duplicates file_path w msg w1 :
  process_pdf E file_path w = (Ok msg, w1) ->
  exists chunks,
    chunks <> []
    /\ chroma_db w1 = (chroma_db w ++ chunks)%list
    /\ fst (process_pdf E file_path w1) = Ok msg
    /\ chroma_db (snd (process_pdf E file_path w1))
       = (chroma_db w ++ chunks ++ chunks)%list.
Proof.
  unfold process_pdf, bind. intros H.
  pose proof (extract_text_outside file_path w) as Hout.
  pose proof (extract_text_outcome file_path w w1) as Hsame.
  pose proof (extract_text_outside file_path w1) as Hout1.
  destruct (extract_text E file_path w) as [[pages|e] w2]; [|discriminate].
  destruct (extract_text E file_path w1) as [[pages1|e1] w3];
    cbn [fst snd] in *; [|discriminate].
  inversion Hsame; subst pages1.
  pose proof (index_text_effect pages w2) as Hidx. cbv zeta in Hidx.
  pose proof (index_text_outcome pages w2 w3) as Hsame_idx.
  pose proof (index_text_effect pages w3) as Hidx1. cbv zeta in Hidx1.
  rewrite H in Hidx, Hsame_idx. cbn [fst snd] in Hidx, Hsame_idx.
  destruct Hidx as (_ & _ & _ & _ & Hchroma).
  destruct (index_text E pages w3) as [[msg1|e1] w4];
    cbn [fst snd] in *; [|discriminate].
  inversion Hsame_idx; subst msg1.
  destruct Hidx1 as (_ & _ & _ & _ & Hchroma1).
  destruct Hout as (Hc & _). destruct Hout1 as (Hc1 & _).
  exists (split_documents E text_splitter pages).
  split.
  - intros Hnil. unfold index_text in H. rewrite Hnil in H. discriminate.
  - split; [congruence|]. split; [reflexivity|].
    rewrite Hchroma1, Hc1, Hchroma, Hc. now rewrite <- app_assoc.
Qed.

End MoreIngestionProperties.

Lemma extraction_two_tier_witness :
  fst (RAGEngine.extract_text Cases.scanned_pages "scan.pdf"
         Scenarios.fresh_world)
  = Ok [ocr_document "scan.pdf" 1 "Page one";
        ocr_document "scan.pdf" 3 "Page three"]
  /\ PyPDFLoader_load Scenarios.scanned_blank "scan.pdf"
     = Ok [Scenarios.page "" 0; Scenarios.page "  " 1]
  /\ RAGEngine.nonblank_pages [Scenarios.page "" 0; Scenarios.page "  " 1] = []
  /\ exists e,
       fst (RAGEngine.process_pdf Scenarios.scanned_blank "scan.pdf"
              Scenarios.fresh_world) = Raise e
       /\ exc_class e = "ValueError".
Proof.
  split.
  { destruct (extraction_two_tier Cases.scanned_pages "scan.pdf"
                Scenarios.fresh_world) as (_ & _ & Hfallback & _).
    apply (Hfallback
             [Scenarios.page "" 0; Scenarios.page "" 1; Scenarios.page "" 2]
             ["Page one"; "  "; "Page three"]
             ["Page one"; "  "; "Page three"]);
      try reflexivity.
    repeat constructor. }
  split; [reflexivity|]. split; [reflexivity|].
  destruct (extraction_two_tier Scenarios.scanned_blank "scan.pdf"
              Scenarios.fresh_world) as (_ & _ & _ & _ & Hfail & _).
  apply (Hfail [Scenarios.page "" 0; Scenarios.page "  " 1]);
    [reflexivity | reflexivity |].
  intros w1 page pages. cbv. discriminate.
Defined.

Lemma failed_ingestion_writes_nothing_witness :
  let r := RAGEngine.process_pdf Scenarios.scanned_blank "scan.pdf"
             Scenarios.open_chat in
  (exists e, fst r = Raise e)
  /\ chroma_db (snd r) = chroma_db Scenarios.open_chat
  /\ database (snd r) = database Scenarios.open_chat.
Proof.
  destruct (failed_ingestion_writes_nothing Scenarios.scanned_blank "scan.pdf"
              Scenarios.open_chat) as (Hfail & _ & Hdb & _).
  split; [eexists; reflexivity|]. split; [|exact Hdb].
  eapply Hfail. reflexivity.
Defined.

Lemma ocr_pages_keep_their_position_witness :
  fst (RAGEngine.extract_text_with_ocr Cases.scanned_pages "scan.pdf"
         Scenarios.fresh_world)
  = Ok [ocr_document "scan.pdf" 1 "Page one";
        ocr_document "scan.pdf" 3 "Page three"].
Proof.
  apply (ocr_pages_keep_their_position Cases.scanned_pages "scan.pdf"
           ["Page one"; "  "; "Page three"] ["Page one"; "  "; "Page three"]
           Scenarios.fresh_world eq_refl eq_refl).
  repeat constructor.
Defined.

Lemma ocr_stops_at_first_failure_witness :
  exists w',
    RAGEngine.extract_text_with_ocr Cases.smudged "scan.pdf"
      Scenarios.fresh_world
    = (Raise (ValueError
         "OCR extraction failed: (1, 'Error opening data file'). Make sure Tesseract OCR and Poppler are installed."),
       w')
    /\ length (filter is_ocr_call (calls w')) = 3.
Proof.
  destruct (ocr_stops_at_first_failure Cases.smudged "scan.pdf"
              [Some "Page one"] ["Page one"] None [Some "Page three"]
              Cases.tesseract_error Scenarios.fresh_world
              eq_refl eq_refl) as (w' & Hr & Hc).
  - repeat constructor.
  - reflexivity.
  - exists w'. split; [exact Hr|]. now rewrite Hc.
Defined.

Lemma ingestion_failures_witness :
  fst (RAGEngine.process_pdf Cases.no_ocr "scan.pdf" Scenarios.fresh_world)
  = Raise (ValueError
      "PDF has no extractable text and OCR failed: OCR libraries not installed. Please install pdf2image and pytesseract.").
Proof.
  destruct (ingestion_failures Cases.no_ocr "scan.pdf" Scenarios.fresh_world)
    as (_ & Hno_ocr & _).
  destruct (Hno_ocr [Scenarios.page "" 0] eq_refl eq_refl eq_refl)
    as [Hr _].
  exact Hr.
Defined.

Lemma ingesting_twice_duplicates_witness :
  let w1 := snd (RAGEngine.process_pdf Scenarios.text_pdf "cv.pdf"
                   Scenarios.fresh_world) in
  length (chroma_db w1) = 3
  /\ length (chroma_db (snd (RAGEngine.process_pdf Scenarios.text_pdf "cv.pdf"
                               w1))) = 6.
Proof.
  destruct (ingesting_twice_duplicates Scenarios.text_pdf "cv.pdf"
              Scenarios.fresh_world "Successfully processed 3 text chunks"
              (snd (RAGEngine.process_pdf Scenarios.text_pdf "cv.pdf"
                      Scenarios.fresh_world)) eq_refl)
    as (chunks & _ & Hfirst & _ & Hsecond).
  split; [reflexivity|]. cbv zeta. rewrite Hsecond.
  change (chroma_db Scenarios.fresh_world ++ chunks)%list with chunks in *.
  rewrite <- Hfirst. reflexivity.
Defined.

(** * Further properties of the session relay *)

Lemma len_append (a b : string) : Py.len (a ++ b) = Py.len a + Py.len b.
Proof.
  induction a as [|c a IH]; simpl; [reflexivity|]. rewrite IH. lia.
Qed.

Lemma len_take (n : nat) (s : string) :
  Py.len (Py.take n s) = Nat.min n (Py.len s).
Proof.
  revert n. induction s as [|c s IH]; intros n; simpl.
  - now rewrite Nat.min_0_r.
  - destruct (Py.is_continuation c) eqn:Hc; simpl.
    + now rewrite Hc, IH.
    + destruct n as [|m]; simpl; [reflexivity|]. now rewrite Hc, IH.
Qed.

Lemma take_all (n : nat) (s : string) : Py.len s <= n -> Py.take n s = s.
Proof.
  revert n. induction s as [|c s IH]; intros n H; simpl in *; [reflexivity|].
  destruct (Py.is_continuation c).
  - f_equal. apply IH. lia.
  - destruct n as [|m]; [lia|]. f_equal. apply IH. lia.
Qed.

Lemma take_is_prefix (n : nat) (s : string) :
  exists rest, s = Py.take n s ++ rest.
Proof.
  revert n. induction s as [|c s IH]; intros n; simpl.
  - now exists "".
  - destruct (Py.is_continuation c).
    + destruct (IH n) as [rest Hrest]. exists rest. simpl. now f_equal.
    + destruct n as [|m].
      * now exists (String c s).
      * destruct (IH m) as [rest Hrest]. exists rest. simpl. now f_equal.
Qed.

(** X14.  The title derived from a question has at most 53 characters,
    so it fits the title column: a question of at most 50 characters is
    its own title; a longer one gives its first 50 characters, which
    start the question, followed by three dots. *)
Theorem title_of_is_bounded (query : string) :
  Py.len (Main.title_of query) <= 53
  /\ (Py.len query <= 50 -> Main.title_of query = query)
  /\ (50 < Py.len query ->
      Py.len (Main.title_of query) = 53
      /\ exists head rest,
           Py.len head = 50
           /\ query = head ++ rest
           /\ Main.title_of query = head ++ "...").
Proof.
  unfold Main.title_of. split; [|split].
  - rewrite len_append, len_take.
    pose proof (Nat.le_min_l 50 (Py.len query)) as Hmin.
    destruct (50 <? Py.len query);
      [change (Py.len "...") with 3 | change (Py.len "") with 0]; lia.
  - intros Hshort. rewrite take_all by exact Hshort.
    destruct (Nat.ltb_spec 50 (Py.len query)); [lia|].
    apply append_empty_r.
  - intros Hlong.
    destruct (Nat.ltb_spec 50 (Py.len query)); [|lia].
    split.
    + rewrite len_append, len_take. change (Py.len "...") with 3.
      rewrite Nat.min_l by lia. reflexivity.
    + destruct (take_is_prefix 50 query) as [rest Hrest].
      exists (Py.take 50 query), rest.
      split; [rewrite len_take; apply Nat.min_l; lia|]. now split.
Qed.

Lemma title_of_is_bounded_witness :
  let query :=
    "Which of the candidates has led a team of more than ten engineers?" in
  50 < Py.len query
  /\ Main.title_of query
     = "Which of the candidates has led a team of more tha...".
Proof.
  split; [vm_compute; lia|].
  destruct (title_of_is_bounded
              "Which of the candidates has led a team of more than ten engineers?")
    as (_ & _ & Hlong).
  destruct Hlong as (_ & head & rest & _ & _ & Htitle);
    [vm_compute; lia|].
  reflexivity.
Defined.

(** The store after the user message of a turn was committed. *)
Definition user_saved (cid q : string) (d : Database) : Database :=
  match List.find (fun c => String.eqb (conv_id c) cid) (conversations d) with
  | Some conv =>
      mkDatabase
        (if length (filter (fun m => String.eqb (conversation_id m)
                                                (conv_id conv))
                           (messages d)) =? 0
         then map (Db.retitle (Some (conv_id conv, Main.title_of q)))
                  (conversations d)
         else conversations d)
        (messages d ++ [mkMessage cid "user" q])
  | None => d
  end.

(** The store after the assistant message of a turn was committed. *)
Definition assistant_saved (cid text : string) (d : Database) : Database :=
  if existsb (fun c => String.eqb (conv_id c) cid) (conversations d)
  then mkDatabase (conversations d)
                  (messages d ++ [mkMessage cid "assistant" text])
  else d.

Lemma map_retitle_none cs : map (Db.retitle None) cs = cs.
Proof. induction cs as [|c cs IH]; simpl; [reflexivity | now rewrite IH]. Qed.

Lemma database_eta d : mkDatabase (conversations d) (messages d) = d.
Proof. now destruct d. Qed.

(** The fields no persistence step touches. *)
Definition same_outside_store (w w' : World) : Prop :=
  calls w' = calls w
  /\ chroma_db w' = chroma_db w
  /\ ws_sent w' = ws_sent w
  /\ ws_open w' = ws_open w.

Section MoreRelayProperties.

Variable E : Collaborators.

Lemma save_user_message_effect cid q w :
  exists w1,
    Main.save_user_message E cid q w = (Ok tt, w1)
    /\ database w1 = match next_fault w with
                     | None => user_saved cid q (database w)
                     | Some _ => database w
                     end
    /\ db_faults w1 = tl (db_faults w)
    /\ same_outside_store w w1.
Proof.
  unfold Main.save_user_message, bind at 1.
  destruct (get_db_session_spec w) as (w0 & Hsession & Hw0).
  rewrite Hsession.
  assert (Hdb0 : database w0 = database w /\ db_faults w0 = tl (db_faults w)
                 /\ same_outside_store w w0).
  { clear Hw0. unfold Db.get_db_session in Hsession.
    destruct (db_faults w) as [|f rest] eqn:Hf; inversion Hsession; subst.
    - rewrite Hf. repeat split.
    - repeat split. }
  destruct Hdb0 as (Hd0 & Hf0 & Hs0). clear Hw0 Hsession.
  unfold try_finally, try_except, Db.close, ret.
  unfold bind at 1. unfold Db.query_conversation_first.
  cbn [Db.session_fault].
  destruct (next_fault w) as [e|].
  - unfold raise, print. eexists. split; [reflexivity|].
    cbn [database db_faults set_stdout]. split; [exact Hd0|].
    split; [exact Hf0|].
    destruct Hs0 as (A & B & C & D). repeat split; assumption.
  - unfold user_saved. rewrite <- Hd0.
    pose proof (find_conversation cid (conversations (database w0))) as Hfind.
    destruct (List.find (fun c => String.eqb (conv_id c) cid)
                        (conversations (database w0))) as [conv|].
    + destruct Hfind as [Hid Hex].
      unfold bind at 1. unfold Db.conversation_messages.
      assert (Hcommit : forall change,
        Db.commit (foreign_key_violation E)
          (Db.mkSession None [mkMessage cid "user" q] change) w0
        = (Ok tt,
           set_database
             (mkDatabase (map (Db.retitle change) (conversations (database w0)))
                         (messages (database w0) ++ [mkMessage cid "user" q]))
             w0)).
      { intros change. rewrite commit_message by reflexivity.
        unfold conversation_exists. now rewrite Hex. }
      destruct (length (filter _ (messages (database w0))) =? 0);
        unfold Db.add, Db.set_title;
        cbn [Db.session_fault Db.pending Db.pending_title app];
        rewrite Hcommit; rewrite ?map_retitle_none;
        (eexists; split; [reflexivity|]);
        cbn [database db_faults set_database];
        (split; [reflexivity|]); (split; [exact Hf0|]);
        destruct Hs0 as (A & B & C & D); repeat split; assumption.
    + eexists. split; [reflexivity|]. split; [reflexivity|].
      split; [exact Hf0 | exact Hs0].
Qed.

Lemma save_assistant_message_effect cid text w :
  exists w1,
    Main.save_assistant_message E cid text w = (Ok tt, w1)
    /\ database w1
       = (if Py.truthy text
          then match next_fault w with
               | None => assistant_saved cid text (database w)
               | Some _ => database w
               end
          else database w)
    /\ same_outside_store w w1.
Proof.
  unfold Main.save_assistant_message.
  destruct (Py.truthy text); [|exists w; repeat split].
  unfold bind at 1.
  destruct (get_db_session_spec w) as (w0 & Hsession & Hw0).
  rewrite Hsession.
  assert (Hdb0 : database w0 = database w /\ same_outside_store w w0).
  { clear Hw0. unfold Db.get_db_session in Hsession.
    destruct (db_faults w) as [|f rest]; inversion Hsession; subst;
      repeat split. }
  destruct Hdb0 as (Hd0 & Hs0). clear Hw0 Hsession.
  unfold try_finally, try_except, Db.close, ret, Db.add.
  cbn [Db.session_fault Db.pending Db.pending_title app].
  destruct (next_fault w) as [e|].
  - unfold Db.commit; cbn [Db.session_fault]. unfold raise, print.
    eexists. split; [reflexivity|]. split; [exact Hd0|].
    destruct Hs0 as (A & B & C & D). repeat split; assumption.
  - rewrite commit_message by reflexivity.
    unfold assistant_saved, conversation_exists. rewrite <- Hd0.
    destruct (existsb _ (conversations (database w0))).
    + eexists. split; [reflexivity|].
      cbn [database set_database]. rewrite map_retitle_none.
      split; [reflexivity|].
      destruct Hs0 as (A & B & C & D). repeat split; assumption.
    + unfold print. eexists. split; [reflexivity|].
      split; [reflexivity|].
      destruct Hs0 as (A & B & C & D). repeat split; assumption.
Qed.

(** The storage failure awaiting the second database session from now. *)
Definition second_fault (w : World) : option PyException :=
  match tl (db_faults w) with
  | f :: _ => f
  | [] => None
  end.

(** The events that close a turn. *)
Definition closing (run : AgentRun) : list WsEvent :=
  match run_error run with
  | Some e => [Main.chunk_event (error_text e); Main.end_event]
  | None => [Main.end_event]
  end.

(** The store after a turn that started with the store [d], given the
    failures [f1] and [f2] awaiting the two sessions of the turn. *)
Definition turn_store (cid q : string) (run : AgentRun)
           (f1 f2 : option PyException) (d : Database) : Database :=
  let d1 := match f1 with
            | None => user_saved cid q d
            | Some _ => d
            end in
  let text := streamed_text (run_events run) in
  match run_error run, f2 with
  | None, None => if Py.truthy text then assistant_saved cid text d1 else d1
  | _, _ => d1
  end.

Lemma chat_turn_effect cid q w :
  let run := run_of E q w in
  exists w',
    Main.chat_turn E cid q w = (Ok tt, w')
    /\ database w'
       = turn_store cid q run (next_fault w) (second_fault w) (database w)
    /\ ws_sent w'
       = (ws_sent w ++ forwarded (run_events run) ++ closing run)%list
    /\ calls w' = (calls w ++ [call_astream_events q])%list
    /\ chroma_db w' = chroma_db w
    /\ ws_open w' = ws_open w.
Proof.
  intros run.
  destruct (save_user_message_effect cid q w)
    as (w1 & Hsave & Hd1 & Hf1 & Hcalls & Hchroma & Hsent & Hopen).
  unfold Main.chat_turn, bind at 1. rewrite Hsave.
  unfold try_except, bind at 1. rewrite stream_events_spec.
  unfold run, run_of, closing, turn_store in *. rewrite Hcalls. cbv zeta.
  set (events := run_events (astream_events E (calls w) q)).
  destruct (run_error (astream_events E (calls w) q)) as [e|].
  - unfold Main.on_agent_error, bind, Main.send_json, error_text.
    destruct (Main.is_rate_limit (exc_str e));
      (eexists; split; [reflexivity|]);
      cbn [ws_sent set_ws_sent sent_more set_calls database ws_open calls
           chroma_db];
      rewrite Hsent, <- !app_assoc;
      (split; [destruct (next_fault w); exact Hd1|]);
      repeat split; assumption.
  - unfold bind at 1, Main.send_json.
    set (w3 := set_ws_sent _ _).
    destruct (save_assistant_message_effect cid (streamed_text events) w3)
      as (w4 & Hsave_a & Hd4 & Hcalls4 & Hchroma4 & Hsent4 & Hopen4).
    rewrite Hsave_a. exists w4. split; [reflexivity|].
    assert (Hnext3 : next_fault w3 = second_fault w).
    { unfold next_fault, second_fault, w3.
      cbn [db_faults set_ws_sent sent_more set_calls]. now rewrite Hf1. }
    assert (Hd3 : database w3 = database w1) by reflexivity.
    split.
    + rewrite Hd4, Hnext3, Hd3, Hd1.
      destruct (Py.truthy (streamed_text events)), (second_fault w);
        destruct (next_fault w); reflexivity.
    + rewrite Hsent4, Hcalls4, Hchroma4, Hopen4. unfold w3.
      cbn [ws_sent set_ws_sent sent_more set_calls ws_open calls chroma_db].
      rewrite Hsent, <- !app_assoc. repeat split; assumption.
Qed.

(** X15.  The question is stored before the workflow runs and stays
    stored whatever the workflow does: when the conversation exists and
    the session that saves the question meets no failure, the messages
    after the turn are the messages before it, then the user message
    holding the question, then at most the assistant message; nothing
    follows the user message when the run raises. *)
Theorem question_is_stored_first cid q w :
  next_fault w = None ->
  conversation_exists cid w = true ->
  let run := run_of E q w in
  exists w' rest,
    Main.chat_turn E cid q w = (Ok tt, w')
    /\ messages (database w')
       = (messages (database w) ++ mkMessage cid "user" q :: rest)%list
    /\ (rest = []
        \/ rest = [mkMessage cid "assistant"
                     (streamed_text (run_events run))])
    /\ (forall e, run_error run = Some e -> rest = []).
Proof.
  intros Hfault Hex run.
  destruct (chat_turn_effect cid q w)
    as (w' & Hturn & Hdb & _). fold run in Hdb.
  unfold turn_store, user_saved in Hdb. rewrite Hfault in Hdb.
  pose proof (find_conversation cid (conversations (database w))) as Hfind.
  unfold conversation_exists in Hex.
  destruct (List.find (fun c => String.eqb (conv_id c) cid)
                      (conversations (database w))) as [conv|];
    [|congruence].
  set (d1 := mkDatabase _ _) in Hdb.
  assert (Hm1 : messages d1
                = (messages (database w) ++ [mkMessage cid "user" q])%list)
    by reflexivity.
  exists w'.
  destruct (run_error run) as [e|].
  - exists []. rewrite Hdb, Hm1. split; [exact Hturn|].
    split; [reflexivity|]. split; [now left | reflexivity].
  - destruct (second_fault w).
    + exists []. rewrite Hdb, Hm1. split; [exact Hturn|].
      split; [reflexivity|]. split; [now left | discriminate].
    + destruct (Py.truthy (streamed_text (run_events run))).
      * unfold assistant_saved in Hdb.
        destruct (existsb _ (conversations d1)).
        -- eexists. rewrite Hdb. cbn [messages]. rewrite Hm1, <- app_assoc.
           split; [exact Hturn|]. split; [reflexivity|].
           split; [now right | discriminate].
        -- exists []. rewrite Hdb, Hm1. split; [exact Hturn|].
           split; [reflexivity|]. split; [now left | discriminate].
      * exists []. rewrite Hdb, Hm1. split; [exact Hturn|].
        split; [reflexivity|]. split; [now left | discriminate].
Qed.

(** X16.  Only the first question of a conversation names it.  When the
    session that saves the question meets no failure, the turn gives the
    title derived from the question to the conversation if it had no
    message before, and otherwise keeps every title; in both cases it
    keeps the conversations other than this one as they are. *)
Theorem first_question_names_the_conversation cid q w :
  next_fault w = None ->
  conversation_exists cid w = true ->
  let held := filter (fun m => String.eqb (conversation_id m) cid)
                     (messages (database w)) in
  let after := conversations (database (snd (Main.chat_turn E cid q w))) in
  (held = [] ->
   after = map (fun c => if String.eqb (conv_id c) cid
                         then mkConversation (conv_id c) (Main.title_of q)
                         else c)
               (conversations (database w)))
  /\ (held <> [] -> after = conversations (database w)).
Proof.
  intros Hfault Hex held after.
  destruct (chat_turn_effect cid q w) as (w' & Hturn & Hdb & _).
  unfold after. rewrite Hturn. cbn [snd]. rewrite Hdb.
  unfold turn_store, user_saved. rewrite Hfault.
  pose proof (find_conversation cid (conversations (database w))) as Hfind.
  unfold conversation_exists in Hex.
  destruct (List.find (fun c => String.eqb (conv_id c) cid)
                      (conversations (database w))) as [conv|];
    [|congruence].
  destruct Hfind as [Hid _]. rewrite Hid. fold held.
  assert (Hkeep : forall d text,
             conversations
               (match run_error (run_of E q w), second_fault w with
                | None, None =>
                    if Py.truthy text then assistant_saved cid text d else d
                | _, _ => d
                end) = conversations d).
  { intros d text. unfold assistant_saved.
    destruct (run_error (run_of E q w)), (second_fault w), (Py.truthy text);
      try reflexivity.
    destruct (existsb _ (conversations d)); reflexivity. }
  rewrite Hkeep. cbn [conversations].
  split; intros Hheld.
  - now rewrite Hheld.
  - destruct held; [now elim Hheld | reflexivity].
Qed.

(** X17.  A turn never creates a conversation: on a conversation
    identifier that has no row, the turn leaves the relational store as
    it is, whatever the workflow streams and whatever the store does,
    while the events are sent as usual. *)
Theorem unknown_conversation_stores_nothing cid q w :
  conversation_exists cid w = false ->
  exists w',
    Main.chat_turn E cid q w = (Ok tt, w')
    /\ database w' = database w
    /\ ws_sent w'
       = (ws_sent w ++ forwarded (run_events (run_of E q w))
            ++ closing (run_of E q w))%list.
Proof.
  intros Hex.
  destruct (chat_turn_effect cid q w) as (w' & Hturn & Hdb & Hsent & _).
  exists w'. split; [exact Hturn|]. split; [|exact Hsent].
  rewrite Hdb. unfold turn_store, user_saved, assistant_saved.
  pose proof (find_conversation cid (conversations (database w))) as Hfind.
  unfold conversation_exists in Hex.
  destruct (List.find (fun c => String.eqb (conv_id c) cid)
                      (conversations (database w))) as [conv|].
  - destruct Hfind as [_ Hyes]. congruence.
  - assert (Hd1 : match next_fault w with
                  | Some _ => database w
                  | None => database w
                  end = database w) by (destruct (next_fault w); reflexivity).
    rewrite Hd1, Hex.
    destruct (run_error (run_of E q w)), (second_fault w),
      (Py.truthy (streamed_text (run_events (run_of E q w))));
      reflexivity.
Qed.

(** The events of a session: for each question in turn, what is
    forwarded from its run and the events that close the turn.  The run
    of a question depends on the calls made before it. *)
Fixpoint session_events (history : list ExtCall) (incoming : list string)
  : list WsEvent :=
  match incoming with
  | [] => []
  | q :: rest =>
      let run := astream_events E history q in
      (forwarded (run_events run) ++ closing run
         ++ session_events (history ++ [call_astream_events q]) rest)%list
  end.

Lemma one_end_per_question incoming :
  forall history,
    filter is_end (session_events history incoming)
    = repeat Main.end_event (length incoming).
Proof.
  induction incoming as [|q rest IH]; intros history; [reflexivity|].
  cbn [session_events length repeat].
  rewrite !filter_app, no_end_in_forwarded, IH. unfold closing.
  destruct (run_error (astream_events E history q)); reflexivity.
Qed.

Lemma receive_loop_spec cid incoming :
  forall w, exists w',
    Main.receive_loop E cid incoming w = (Raise Main.WebSocketDisconnect, w')
    /\ ws_sent w' = (ws_sent w ++ session_events (calls w) incoming)%list
    /\ calls w' = (calls w ++ map call_astream_events incoming)%list
    /\ chroma_db w' = chroma_db w
    /\ ws_open w' = ws_open w.
Proof.
  induction incoming as [|q rest IH]; intros w.
  - exists w. cbn [Main.receive_loop session_events map].
    rewrite !app_nil_r. repeat split.
  - destruct (chat_turn_effect cid q w)
      as (w1 & Hturn & _ & Hsent & Hcalls & Hchroma & Hopen).
    destruct (IH w1) as (w' & Hloop & Hsent' & Hcalls' & Hchroma' & Hopen').
    exists w'. cbn [Main.receive_loop]. unfold bind at 1.
    rewrite Hturn, Hloop. split; [reflexivity|].
    rewrite Hsent', Hcalls', Hchroma', Hopen', Hsent, Hcalls.
    cbn [session_events map]. unfold run_of.
    rewrite <- !app_assoc. repeat split; assumption.
Qed.

(** X18.  A session ends in good order.  For every sequence of questions
    followed by the client going away, [chat_socket] returns normally;
    the client has been sent, for each question in turn, the events of
    its run and the closing events, hence exactly one end event per
    question; the handler reports the disconnection on the console and
    does not close the socket itself; the index is untouched. *)
Theorem session_ends_in_good_order cid incoming w :
  exists w',
    Main.chat_socket E cid incoming w = (Ok tt, w')
    /\ ws_sent w' = (ws_sent w ++ session_events (calls w) incoming)%list
    /\ filter is_end (session_events (calls w) incoming)
       = repeat Main.end_event (length incoming)
    /\ (exists lines,
          stdout w' = (lines ++ ["WebSocket disconnected by client"])%list)
    /\ ws_open w' = true
    /\ chroma_db w' = chroma_db w.
Proof.
  unfold Main.chat_socket, bind at 1, Main.websocket_accept.
  destruct (receive_loop_spec cid incoming (set_ws_open true w))
    as (w2 & Hloop & Hsent & _ & Hchroma & Hopen).
  unfold bind at 1, try_except, bind at 1. rewrite Hloop.
  cbn [exc_class Main.WebSocketDisconnect String.eqb Ascii.eqb Bool.eqb].
  unfold bind at 1, print, ret. cbn [negb].
  eexists. split; [reflexivity|].
  cbn [ws_sent stdout ws_open chroma_db set_stdout].
  split; [exact Hsent|]. split; [apply one_end_per_question|].
  split; [now exists (stdout w2)|]. split; assumption.
Qed.

Lemma legacy_stream_loop_spec events w :
  Legacy.stream_loop events w = (Ok tt, sent_more (forwarded events) w).
Proof.
  revert w. induction events as [|event rest IH]; intros w.
  - simpl. unfold ret. now rewrite sent_more_nil.
  - cbn [Legacy.stream_loop forwarded].
    destruct (String.eqb (event_kind event) "on_chain_start").
    + unfold bind, Main.send_json. rewrite IH.
      fold (sent_more [mkWsEvent "status" "Thinking..."] w).
      now rewrite sent_more_more.
    + destruct (String.eqb (event_kind event) "on_chat_model_stream");
        cbn [andb]; [|apply IH].
      destruct (Py.truthy (chunk_content event)); [|apply IH].
      unfold bind, Main.send_json. rewrite IH.
      fold (sent_more [mkWsEvent "chunk" (chunk_content event)] w).
      now rewrite sent_more_more.
Qed.

Lemma legacy_chat_turn_effect q w :
  Legacy.chat_turn E q w
  = (Ok tt,
     sent_more (forwarded (run_events (run_of E q w)) ++ closing (run_of E q w))
       (set_calls (calls w ++ [call_astream_events q]) w)).
Proof.
  unfold Legacy.chat_turn, try_except, bind at 1, Legacy.stream_events.
  unfold bind at 1, get_calls. unfold bind at 1, log_call.
  unfold bind at 1. rewrite legacy_stream_loop_spec.
  unfold run_of, closing.
  destruct (run_error (astream_events E (calls w) q)) as [e|].
  - unfold raise, Legacy.on_agent_error, bind, Main.send_json, error_text,
      Main.is_rate_limit.
    destruct (Py.contains "429" (exc_str e)
              || Py.contains "RESOURCE_EXHAUSTED" (exc_str e));
      unfold sent_more; cbn [ws_sent set_ws_sent set_calls];
      rewrite <- !app_assoc; reflexivity.
  - unfold ret, Main.send_json, sent_more.
    cbn [ws_sent set_ws_sent set_calls]. now rewrite <- !app_assoc.
Qed.

Lemma legacy_receive_loop_spec incoming :
  forall w, exists w',
    Legacy.receive_loop E incoming w = (Raise Main.WebSocketDisconnect, w')
    /\ ws_sent w' = (ws_sent w ++ session_events (calls w) incoming)%list
    /\ database w' = database w
    /\ db_faults w' = db_faults w
    /\ ws_open w' = ws_open w.
Proof.
  induction incoming as [|q rest IH]; intros w.
  - exists w. cbn [Legacy.receive_loop session_events].
    rewrite app_nil_r. repeat split.
  - cbn [Legacy.receive_loop]. unfold bind at 1.
    rewrite legacy_chat_turn_effect.
    match goal with
    | |- context [Legacy.receive_loop E rest ?w1] =>
        destruct (IH w1) as (w' & Hloop & Hsent & Hdb & Hfaults & Hopen)
    end.
    exists w'. rewrite Hloop. split; [reflexivity|].
    rewrite Hsent, Hdb, Hfaults, Hopen. unfold sent_more, run_of.
    cbn [ws_sent set_ws_sent set_calls calls database db_faults ws_open
         session_events].
    rewrite <- !app_assoc. repeat split.
Qed.

(** X19.  The endpoint without a conversation streams what the endpoint
    with a conversation streams: started in the same world on the same
    questions, [chat_socket_legacy] and [chat_socket] send the same
    events in the same order; the former leaves the relational store
    and its sessions alone. *)
Theorem legacy_endpoint_streams_the_same cid incoming w :
  ws_sent (snd (Legacy.chat_socket_legacy E incoming w))
  = ws_sent (snd (Main.chat_socket E cid incoming w))
  /\ fst (Legacy.chat_socket_legacy E incoming w) = Ok tt
  /\ database (snd (Legacy.chat_socket_legacy E incoming w)) = database w
  /\ db_faults (snd (Legacy.chat_socket_legacy E incoming w)) = db_faults w.
Proof.
  unfold Legacy.chat_socket_legacy, Main.chat_socket, bind at 1,
    Main.websocket_accept.
  unfold bind at 3. unfold bind at 5. unfold bind at 7.
  destruct (receive_loop_spec cid incoming (set_ws_open true w))
    as (w2 & Hloop & Hsent & _).
  destruct (legacy_receive_loop_spec incoming (set_ws_open true w))
    as (w3 & Hloop' & Hsent' & Hdb & Hfaults & _).
  unfold bind, try_except. rewrite Hloop, Hloop'.
  cbn [exc_class Main.WebSocketDisconnect String.eqb Ascii.eqb Bool.eqb].
  unfold print, ret. cbn [negb fst snd ws_sent database db_faults set_stdout].
  rewrite Hsent, Hsent', Hdb, Hfaults. repeat split.
Qed.

End MoreRelayProperties.

(** * Properties of the conversation endpoints *)

Lemma session_opened w :
  exists w0,
    Db.get_db_session w = (Ok (Db.mkSession (next_fault w) [] None), w0)
    /\ database w0 = database w
    /\ db_faults w0 = tl (db_faults w)
    /\ stdout w0 = stdout w
    /\ same_outside_store w w0.
Proof.
  unfold Db.get_db_session, next_fault.
  destruct (db_faults w) as [|f rest] eqn:Hf; eexists;
    (split; [reflexivity|]); cbn [database db_faults set_db_faults stdout];
    rewrite ?Hf; repeat split.
Qed.

Lemma len_title_of (q : string) : Py.len (Main.title_of q) <= 53.
Proof.
  unfold Main.title_of. rewrite len_append, len_take.
  pose proof (Nat.le_min_l 50 (Py.len q)) as Hmin.
  destruct (50 <? Py.len q);
    [change (Py.len "...") with 3 | change (Py.len "") with 0]; lia.
Qed.

(** Every message of the store refers to a conversation of the store. *)
Definition referential_integrity (d : Database) : bool :=
  Db.references_ok d (messages d).

Lemma references_ok_ids d1 d2 ms :
  map conv_id (conversations d1) = map conv_id (conversations d2) ->
  Db.references_ok d1 ms = Db.references_ok d2 ms.
Proof.
  intros Hids. unfold Db.references_ok.
  induction ms as [|m ms IH]; [reflexivity|]. cbn [forallb].
  rewrite (existsb_conv_id (conversation_id m) (conversations d1)),
    (existsb_conv_id (conversation_id m) (conversations d2)).
  now rewrite Hids, IH.
Qed.

Lemma references_ok_messages convs ms1 ms2 :
  Db.references_ok (mkDatabase convs ms1) ms2
  = Db.references_ok (mkDatabase convs []) ms2.
Proof. reflexivity. Qed.

Lemma integrity_after_append d change m :
  referential_integrity d = true ->
  existsb (fun c => String.eqb (conv_id c) (conversation_id m))
          (conversations d) = true ->
  referential_integrity
    (mkDatabase (map (Db.retitle change) (conversations d))
                (messages d ++ [m])) = true.
Proof.
  unfold referential_integrity. intros Hint Hex.
  rewrite (references_ok_ids _ d)
    by (cbn [conversations]; apply retitle_keeps_ids).
  cbn [messages]. unfold Db.references_ok in *.
  rewrite forallb_app, Hint. cbn [forallb]. now rewrite Hex.
Qed.

Lemma integrity_user_saved cid q d :
  referential_integrity d = true ->
  referential_integrity (user_saved cid q d) = true.
Proof.
  intros Hint. unfold user_saved.
  pose proof (find_conversation cid (conversations d)) as Hfind.
  destruct (List.find _ (conversations d)) as [conv|]; [|exact Hint].
  destruct Hfind as [Hid Hex].
  destruct (length _ =? 0).
  - now apply integrity_after_append.
  - rewrite <- (map_retitle_none (conversations d)).
    now apply integrity_after_append.
Qed.

Lemma integrity_assistant_saved cid text d :
  referential_integrity d = true ->
  referential_integrity (assistant_saved cid text d) = true.
Proof.
  intros Hint. unfold assistant_saved.
  destruct (existsb _ (conversations d)) eqn:Hex; [|exact Hint].
  rewrite <- (map_retitle_none (conversations d)).
  now apply integrity_after_append.
Qed.

Section ApiProperties.

Variable E : Collaborators.

Lemma guarded_spec db rolls_back body w :
  Api.guarded db rolls_back body w
  = match body w with
    | (Ok j, w') => (Ok j, w')
    | (Raise e, w') =>
        if String.eqb (exc_class e) "HTTPException" then (Raise e, w')
        else (Ok (Api.error_response e), w')
    end.
Proof.
  unfold Api.guarded, try_finally, try_except, Db.close, Api.rollback.
  destruct (body w) as [[j|e] w']; [reflexivity|].
  destruct (String.eqb (exc_class e) "HTTPException"); [reflexivity|].
  destruct rolls_back; reflexivity.
Qed.

(** The four endpoints, by the arguments that do not name the
    conversation. *)
Inductive Request :=
| Get
| Update (new_title : string)
| Delete
| Add (data_role data_content : string).

Definition serve (r : Request) (conversation_id : string) : M Api.Json :=
  match r with
  | Get => Api.get_conversation conversation_id
  | Update new_title =>
      Api.update_conversation E conversation_id new_title
  | Delete => Api.delete_conversation conversation_id
  | Add data_role data_content =>
      Api.add_message E conversation_id data_role data_content
  end.

(** X20.  An endpoint asked about a conversation that has no row raises
    the 404 exception and changes nothing in the store; this holds for
    reading, renaming, deleting and adding a message alike. *)
Theorem unknown_conversation_is_404 r cid w :
  next_fault w = None ->
  conversation_exists cid w = false ->
  fst (serve r cid w) = Raise Api.not_found
  /\ exc_str Api.not_found = "404: Conversation not found"
  /\ database (snd (serve r cid w)) = database w
  /\ stdout (snd (serve r cid w)) = stdout w.
Proof.
  intros Hfault Hex.
  destruct (session_opened w) as (w0 & Hsession & Hd0 & _ & Hout & _).
  rewrite Hfault in Hsession.
  assert (Hfind : List.find (fun c => String.eqb (conv_id c) cid)
                            (conversations (database w0)) = None).
  { pose proof (find_conversation cid (conversations (database w0))) as H.
    rewrite Hd0 in *. unfold conversation_exists in Hex.
    destruct (List.find _ (conversations (database w))); [|reflexivity].
    destruct H as [_ H]. congruence. }
  assert (Hserve : serve r cid w = (Raise Api.not_found, w0)).
  { destruct r; cbn [serve];
      unfold Api.get_conversation, Api.update_conversation,
        Api.delete_conversation, Api.add_message, bind at 1;
      rewrite Hsession, guarded_spec;
      unfold bind at 1, Db.query_conversation_first;
      cbn [Db.session_fault]; rewrite Hfind; reflexivity. }
  rewrite Hserve. cbn [fst snd]. repeat split; assumption.
Qed.

(** X21.  A failure of the store does not leave an endpoint as an
    exception: when the session meets the failure [e], each endpoint
    returns the error object carrying [str(e)] and the store is
    unchanged. *)
Theorem store_failure_is_an_error_response r cid w e :
  next_fault w = Some e ->
  String.eqb (exc_class e) "HTTPException" = false ->
  fst (serve r cid w)
  = Ok (Api.JObj [("status", Api.JStr "error");
                 ("error", Api.JStr (exc_str e))])
  /\ database (snd (serve r cid w)) = database w.
Proof.
  intros Hfault Hclass.
  destruct (session_opened w) as (w0 & Hsession & Hd0 & _).
  rewrite Hfault in Hsession.
  assert (Hserve : serve r cid w = (Ok (Api.error_response e), w0)).
  { destruct r; cbn [serve];
      unfold Api.get_conversation, Api.update_conversation,
        Api.delete_conversation, Api.add_message, bind at 1;
      rewrite Hsession, guarded_spec;
      unfold bind at 1, Db.query_conversation_first;
      cbn [Db.session_fault]; unfold raise; rewrite Hclass; reflexivity. }
  rewrite Hserve. cbn [fst snd]. split; [reflexivity | exact Hd0].
Qed.

(** The row of the conversation [cid], if there is one. *)
Definition row_of (cid : string) (w : World) : option Conversation :=
  List.find (fun c => String.eqb (conv_id c) cid) (conversations (database w)).

(** The title change [add_message] makes along with the message. *)
Definition naming (conv : Conversation) (held : list Message)
           (data_role data_content : string) : option (string * string) :=
  if String.eqb data_role "user" && (length held =? 0)
  then Some (conv_id conv, Main.title_of data_content)
  else None.

Lemma add_message_effect cid data_role data_content conv w :
  next_fault w = None ->
  row_of cid w = Some conv ->
  let d := database w in
  let message := mkMessage cid data_role data_content in
  let change :=
    naming conv (Api.messages_of d conv) data_role data_content in
  exists w',
    Api.add_message E cid data_role data_content w
    = (Ok (Api.JObj [("status", Api.JStr "success");
                     ("message", Api.message_to_dict message)]),
       w')
    /\ database w'
       = mkDatabase (map (Db.retitle change) (conversations d))
                    (messages d ++ [message])
    /\ db_faults w' = tl (db_faults w).
Proof.
  intros Hfault Hrow d message change. subst message.
  destruct (session_opened w) as (w0 & Hsession & Hd0 & Hf0 & _).
  rewrite Hfault in Hsession.
  unfold Api.add_message, bind at 1. rewrite Hsession, guarded_spec.
  unfold bind at 1, Db.query_conversation_first. cbn [Db.session_fault].
  unfold row_of in Hrow. rewrite Hd0, Hrow.
  pose proof (find_conversation cid (conversations (database w))) as Hfind.
  rewrite Hrow in Hfind. destruct Hfind as [Hid Hex].
  unfold bind at 1, Db.conversation_messages. rewrite Hd0.
  fold (Api.messages_of (database w) conv).
  fold (Main.title_of data_content).
  assert (Hcommit : forall change0,
    Db.commit (foreign_key_violation E)
      (Db.mkSession None [mkMessage cid data_role data_content] change0) w0
    = (Ok tt,
       set_database
         (mkDatabase (map (Db.retitle change0) (conversations d))
                     (messages d
                        ++ [mkMessage cid data_role data_content])) w0)).
  { intros change0. rewrite commit_message by reflexivity.
    unfold conversation_exists. rewrite Hd0, Hex. reflexivity. }
  unfold change, naming. fold d.
  destruct (String.eqb data_role "user"
            && (length (Api.messages_of d conv) =? 0));
    unfold Db.add, Db.set_title;
    cbn [Db.session_fault Db.pending Db.pending_title app];
    unfold bind at 1; rewrite Hcommit;
    (eexists; split; [reflexivity|]);
    cbn [database set_database db_faults];
    (split; [reflexivity | exact Hf0]).
Qed.


(** X23.  The endpoint and the websocket store a question in the same
    way: on an existing conversation, with no failure of the store,
    [add_message] with the role [user] leaves the store exactly as the
    saving step of a websocket turn does, title included. *)
Theorem add_message_stores_like_a_turn cid q conv w :
  next_fault w = None ->
  row_of cid w = Some conv ->
  database (snd (Api.add_message E cid "user" q w))
  = database (snd (Main.save_user_message E cid q w)).
Proof.
  intros Hfault Hrow.
  destruct (add_message_effect cid "user" q conv w Hfault Hrow)
    as (w' & Hadd & Hdb & _).
  destruct (save_user_message_effect E cid q w) as (w1 & Hsave & Hd1 & _).
  rewrite Hadd, Hsave. cbn [snd]. rewrite Hdb, Hd1, Hfault.
  unfold user_saved, naming, Api.messages_of. unfold row_of in Hrow.
  rewrite Hrow. cbn [String.eqb Ascii.eqb Bool.eqb andb].
  destruct (length (filter _ (messages (database w))) =? 0);
    [reflexivity | now rewrite map_retitle_none].
Qed.


Lemma get_conversation_effect cid conv w :
  next_fault w = None ->
  row_of cid w = Some conv ->
  exists w',
    Api.get_conversation cid w
    = (Ok (Api.JObj
             [("status", Api.JStr "success");
              ("conversation", Api.conversation_to_dict (database w) conv);
              ("messages",
               Api.JArr (map Api.message_to_dict
                             (Api.messages_of (database w) conv)))]), w')
    /\ database w' = database w.
Proof.
  intros Hfault Hrow.
  destruct (session_opened w) as (w0 & Hsession & Hd0 & _).
  rewrite Hfault in Hsession.
  unfold Api.get_conversation, bind at 1. rewrite Hsession, guarded_spec.
  unfold bind at 1, Db.query_conversation_first. cbn [Db.session_fault].
  unfold row_of in Hrow. rewrite Hd0, Hrow.
  unfold bind, Api.get_database, ret. rewrite Hd0.
  exists w0. now split.
Qed.


Lemma no_row_after_filter cid cs :
  existsb (fun c => String.eqb (conv_id c) cid)
          (filter (fun c => negb (String.eqb (conv_id c) cid)) cs) = false.
Proof.
  induction cs as [|c cs IH]; [reflexivity|].
  cbn [filter]. destruct (String.eqb (conv_id c) cid) eqn:Hc;
    cbn [negb]; [exact IH|]. cbn [existsb]. now rewrite Hc, IH.
Qed.

Lemma delete_conversation_effect cid conv w :
  next_fault w = None ->
  row_of cid w = Some conv ->
  exists w',
    Api.delete_conversation cid w
    = (Ok (Api.JObj [("status", Api.JStr "success");
                     ("message", Api.JStr "Conversation deleted")]), w')
    /\ database w'
       = mkDatabase
           (filter (fun c => negb (String.eqb (conv_id c) cid))
                   (conversations (database w)))
           (filter (fun m => negb (String.eqb (conversation_id m) cid))
                   (messages (database w)))
    /\ db_faults w' = tl (db_faults w).
Proof.
  intros Hfault Hrow.
  destruct (session_opened w) as (w0 & Hsession & Hd0 & Hf0 & _).
  rewrite Hfault in Hsession.
  pose proof (find_conversation cid (conversations (database w))) as Hfind.
  unfold row_of in Hrow. rewrite Hrow in Hfind. destruct Hfind as [Hid _].
  unfold Api.delete_conversation, bind at 1. rewrite Hsession, guarded_spec.
  unfold bind at 1, Db.query_conversation_first. cbn [Db.session_fault].
  rewrite Hd0, Hrow.
  unfold bind, Api.delete_and_commit, ret. cbn [Db.session_fault].
  rewrite Hd0, Hid. eexists. split; [reflexivity|].
  split; [reflexivity | exact Hf0].
Qed.

(** X25.  Deleting a conversation removes its row and all its messages
    and nothing else: afterwards the conversation has no row and no
    message refers to it, while the rows and messages of the other
    conversations are there in their order; the endpoint then answers
    404 for it. *)
Theorem delete_removes_the_conversation cid conv w :
  next_fault w = None ->
  second_fault w = None ->
  row_of cid w = Some conv ->
  let w1 := snd (Api.delete_conversation cid w) in
  conversation_exists cid w1 = false
  /\ (forall m, In m (messages (database w1)) -> conversation_id m <> cid)
  /\ (forall c, conv_id c <> cid ->
        (In c (conversations (database w1))
         <-> In c (conversations (database w))))
  /\ (forall m, conversation_id m <> cid ->
        (In m (messages (database w1)) <-> In m (messages (database w))))
  /\ Subsequence (messages (database w1)) (messages (database w))
  /\ fst (Api.get_conversation cid w1) = Raise Api.not_found.
Proof.
  intros Hfault Hsecond Hrow w1.
  destruct (delete_conversation_effect cid conv w Hfault Hrow)
    as (w' & Hdelete & Hdb & Hfaults).
  unfold w1. rewrite Hdelete. cbn [snd].
  assert (Hgone : conversation_exists cid w' = false).
  { unfold conversation_exists. rewrite Hdb. apply no_row_after_filter. }
  split; [exact Hgone|]. rewrite Hdb. cbn [messages conversations].
  split.
  { intros m Hm. apply filter_In in Hm. destruct Hm as [_ Hm].
    intros Heq. rewrite Heq, String.eqb_refl in Hm. discriminate. }
  split.
  { intros c Hc. rewrite filter_In. split; [tauto|].
    intros Hin. split; [exact Hin|].
    apply String.eqb_neq in Hc. now rewrite Hc. }
  split.
  { intros m Hm. rewrite filter_In. split; [tauto|].
    intros Hin. split; [exact Hin|].
    apply String.eqb_neq in Hm. now rewrite Hm. }
  split; [apply subsequence_filter|].
  (* the second request meets no row *)
  destruct (session_opened w') as (w0 & Hsession & Hd0 & _).
  assert (Hnext : next_fault w' = None).
  { unfold next_fault. rewrite Hfaults. exact Hsecond. }
  rewrite Hnext in Hsession.
  unfold Api.get_conversation, bind at 1. rewrite Hsession, guarded_spec.
  unfold bind at 1, Db.query_conversation_first. cbn [Db.session_fault].
  pose proof (find_conversation cid (conversations (database w0))) as Hfind.
  rewrite Hd0 in *. unfold conversation_exists in Hgone.
  destruct (List.find _ (conversations (database w'))) as [c|].
  - destruct Hfind as [_ Hyes]. congruence.
  - reflexivity.
Qed.

Lemma update_conversation_effect cid new_title conv w :
  next_fault w = None ->
  row_of cid w = Some conv ->
  exists w',
    Api.update_conversation E cid new_title w
    = (Ok (Api.JObj
             [("status", Api.JStr "success");
              ("conversation",
               Api.JObj
                 [("id", Api.JStr (conv_id conv));
                  ("title", Api.JStr new_title);
                  ("message_count",
                   Api.JNum (length (Api.messages_of (database w)
                                       conv)))])]), w')
    /\ database w'
       = mkDatabase
           (map (Db.retitle (Some (conv_id conv, new_title)))
                (conversations (database w)))
           (messages (database w)).
Proof.
  intros Hfault Hrow.
  destruct (session_opened w) as (w0 & Hsession & Hd0 & _).
  rewrite Hfault in Hsession.
  unfold Api.update_conversation, bind at 1. rewrite Hsession, guarded_spec.
  unfold bind at 1, Db.query_conversation_first. cbn [Db.session_fault].
  unfold row_of in Hrow. rewrite Hd0, Hrow.
  unfold bind at 1, Db.set_title.
  unfold Db.commit, Db.references_ok.
  cbn [Db.session_fault Db.pending Db.pending_title forallb].
  unfold bind, Api.get_database, ret.
  cbn [database set_database]. rewrite Hd0, app_nil_r.
  eexists. split; [reflexivity|]. reflexivity.
Qed.


Lemma serve_without_row r cid w :
  next_fault w <> None \/ row_of cid w = None ->
  database (snd (serve r cid w)) = database w.
Proof.
  intros Hcase.
  destruct (session_opened w) as (w0 & Hsession & Hd0 & _).
  assert (Hquery :
    exists e, Db.query_conversation_first
                (Db.mkSession (next_fault w) [] None) cid w0 = (Raise e, w0)
              \/ Db.query_conversation_first
                   (Db.mkSession (next_fault w) [] None) cid w0
                 = (Ok None, w0)).
  { unfold Db.query_conversation_first. cbn [Db.session_fault].
    destruct (next_fault w) as [e|].
    - exists e. now left.
    - exists Api.not_found. right. destruct Hcase as [H|H]; [now elim H|].
      unfold row_of in H. now rewrite Hd0, H. }
  destruct Hquery as (e & Hquery).
  destruct r; cbn [serve];
    unfold Api.get_conversation, Api.update_conversation,
      Api.delete_conversation, Api.add_message, bind at 1;
    rewrite Hsession, guarded_spec; unfold bind at 1;
    destruct Hquery as [-> | ->]; unfold raise;
    try (destruct (String.eqb (exc_class e) "HTTPException"));
    exact Hd0.
Qed.

(** X27.  The endpoints keep the store consistent: if every message
    refers to a conversation that has a row before a request to read,
    rename, delete or add a message, then so it is after the request,
    whatever it returns or raises. *)
Theorem endpoints_keep_references r cid w :
  referential_integrity (database w) = true ->
  referential_integrity (database (snd (serve r cid w))) = true.
Proof.
  intros Hint.
  destruct (next_fault w) as [e|] eqn:Hfault;
    [rewrite serve_without_row; [exact Hint | left; congruence]|].
  destruct (row_of cid w) as [conv|] eqn:Hrow;
    [|rewrite serve_without_row; [exact Hint | now right]].
  pose proof (find_conversation cid (conversations (database w))) as Hfind.
  unfold row_of in Hrow. rewrite Hrow in Hfind. destruct Hfind as [Hid Hex].
  destruct r as [|new_title| |data_role data_content]; cbn [serve].
  - destruct (get_conversation_effect cid conv w Hfault Hrow)
      as (w' & Hget & Hdb). rewrite Hget. cbn [snd]. now rewrite Hdb.
  - destruct (update_conversation_effect cid new_title conv w Hfault Hrow)
      as (w' & Hupdate & Hdb). rewrite Hupdate. cbn [snd]. rewrite Hdb.
    unfold referential_integrity in *.
    rewrite (references_ok_ids _ (database w))
      by (cbn [conversations]; apply retitle_keeps_ids).
    exact Hint.
  - destruct (delete_conversation_effect cid conv w Hfault Hrow)
      as (w' & Hdelete & Hdb & _). rewrite Hdelete. cbn [snd]. rewrite Hdb.
    unfold referential_integrity, Db.references_ok in *.
    cbn [messages conversations].
    rewrite forallb_forall in *. intros m Hm.
    apply filter_In in Hm. destruct Hm as [Hm Hother].
    specialize (Hint m Hm). rewrite existsb_exists in *.
    destruct Hint as (c & Hc & Hcm). exists c. split; [|exact Hcm].
    apply filter_In. split; [exact Hc|].
    apply String.eqb_eq in Hcm. now rewrite Hcm.
  - destruct (add_message_effect cid data_role data_content conv w
                Hfault Hrow) as (w' & Hadd & Hdb & _).
    rewrite Hadd. cbn [snd]. rewrite Hdb.
    now apply integrity_after_append.
Qed.

End ApiProperties.

Section RelayIntegrity.

Variable E : Collaborators.

Lemma integrity_turn_store cid q run f1 f2 d :
  referential_integrity d = true ->
  referential_integrity (turn_store cid q run f1 f2 d) = true.
Proof.
  intros Hint. unfold turn_store.
  assert (Hd1 : referential_integrity
                  (match f1 with
                   | Some _ => d
                   | None => user_saved cid q d
                   end) = true).
  { destruct f1; [exact Hint | now apply integrity_user_saved]. }
  destruct (run_error run), f2; try exact Hd1.
  destruct (Py.truthy (streamed_text (run_events run))); [|exact Hd1].
  now apply integrity_assistant_saved.
Qed.

Lemma receive_loop_keeps_references cid incoming :
  forall w,
    referential_integrity (database w) = true ->
    referential_integrity
      (database (snd (Main.receive_loop E cid incoming w))) = true.
Proof.
  induction incoming as [|q rest IH]; intros w Hint; [exact Hint|].
  destruct (chat_turn_effect E cid q w) as (w1 & Hturn & Hdb & _).
  cbn [Main.receive_loop]. unfold bind at 1. rewrite Hturn.
  apply IH. rewrite Hdb. now apply integrity_turn_store.
Qed.

(** X28.  A websocket session keeps the store consistent: if every
    message refers to a conversation that has a row when the session
    starts, then so it is when the session is over, whatever the
    identifier in the address, the questions, the runs of the workflow
    and the failures of the store were. *)
Theorem session_keeps_references cid incoming w :
  referential_integrity (database w) = true ->
  referential_integrity
    (database (snd (Main.chat_socket E cid incoming w))) = true.
Proof.
  intros Hint.
  pose proof (receive_loop_keeps_references cid incoming
                (set_ws_open true w) Hint) as Hloop.
  destruct (receive_loop_spec E cid incoming (set_ws_open true w))
    as (w2 & Hraise & _).
  unfold Main.chat_socket, bind at 1, Main.websocket_accept.
  unfold bind at 1, try_except, bind at 1.
  rewrite Hraise in *. cbn [snd] in Hloop.
  cbn [exc_class Main.WebSocketDisconnect String.eqb Ascii.eqb Bool.eqb].
  unfold bind at 1, print, ret. cbn [negb snd database set_stdout].
  exact Hloop.
Qed.

End RelayIntegrity.

(** * The upload endpoint and the ingestion script *)

(** The calls to the PDF loader among the collaborator calls made so far. *)
Definition is_load_call (c : ExtCall) : bool :=
  match c with
  | call_PyPDFLoader_load _ => true
  | _ => false
  end.

Definition loads (w : World) : list ExtCall :=
  filter is_load_call (calls w).

Section HostProperties.

Variable E : Collaborators.
Variable DATA_FOLDER : string.
Variable open_error : string -> option PyException.
Variable os_listdir : string -> list string.

Import RAGEngine.

(** The chunks that ingesting a file adds to the index. *)
Definition chunks_of (file_path : string) (w : World) : list Document :=
  match fst (extract_text E file_path w) with
  | Ok pages => split_documents E text_splitter pages
  | Raise _ => []
  end.

(** The files of a list that are ingested before the first one that
    fails, and that failure. *)
Fixpoint run_until_failure (paths : list string) (w : World)
  : list string * option PyException :=
  match paths with
  | [] => ([], None)
  | file_path :: rest =>
      match fst (process_pdf E file_path w) with
      | Ok _ =>
          (file_path :: fst (run_until_failure rest w),
           snd (run_until_failure rest w))
      | Raise e => ([], Some e)
      end
  end.

Lemma loads_app w c :
  filter is_load_call (calls w ++ [c])
  = (loads w ++ (if is_load_call c then [c] else []))%list.
Proof.
  unfold loads. rewrite filter_app. cbn [filter].
  now destruct (is_load_call c).
Qed.

Lemma ocr_pages_loads file_path images :
  forall i acc w,
    loads (snd (ocr_pages E file_path i images acc w)) = loads w.
Proof.
  induction images as [|image rest IH]; intros i acc w; [reflexivity|].
  cbn [ocr_pages]. unfold bind at 1, log_call. unfold bind at 1, of_outcome.
  destruct (image_to_string E image) as [text|e].
  - destruct (Py.strip_truthy text); [unfold bind at 1, print|];
      rewrite IH; unfold loads; cbn [calls set_calls set_stdout];
      rewrite loads_app; cbn [is_load_call]; apply app_nil_r.
  - cbn [snd]. unfold loads. cbn [calls set_calls].
    rewrite loads_app. cbn [is_load_call]. apply app_nil_r.
Qed.

Lemma extract_text_with_ocr_loads file_path w :
  loads (snd (extract_text_with_ocr E file_path w)) = loads w.
Proof.
  unfold extract_text_with_ocr.
  destruct (OCR_AVAILABLE E); cbn [negb]; [|reflexivity].
  unfold bind at 1, print, try_except, bind at 1, log_call.
  unfold bind at 1, of_outcome.
  destruct (convert_from_path E file_path 300 (find_poppler_path E))
    as [images|e].
  - match goal with
    | |- context [ocr_pages E file_path 0 images [] ?w1] =>
        pose proof (ocr_pages_loads file_path images 0 [] w1) as Hf;
        destruct (ocr_pages E file_path 0 images [] w1) as [[ps|e] w2]
    end; cbn [snd] in *; [|unfold bind, print, raise; cbn [snd]];
      unfold loads in *; cbn [calls set_calls set_stdout] in *;
      rewrite Hf, loads_app; cbn [is_load_call]; apply app_nil_r.
  - unfold bind, print, raise. cbn [snd]. unfold loads.
    cbn [calls set_calls set_stdout].
    rewrite loads_app. cbn [is_load_call]. apply app_nil_r.
Qed.

Lemma extract_text_loads file_path w :
  loads (snd (extract_text E file_path w))
  = (loads w ++ [call_PyPDFLoader_load file_path])%list.
Proof.
  destruct (PyPDFLoader_load E file_path) as [documents|e] eqn:Hload.
  - destruct (nonblank_pages documents) as [|page pages] eqn:Hnb.
    + rewrite (extract_text_fallback E _ _ w Hload Hnb).
      match goal with
      | |- context [extract_text_with_ocr E file_path ?w1] =>
          pose proof (extract_text_with_ocr_loads file_path w1) as Hf;
          destruct (extract_text_with_ocr E file_path w1)
            as [[[|p ps]|e] w2]
      end; cbn [snd] in *; rewrite Hf; unfold loads;
        cbn [calls set_calls set_stdout]; now rewrite loads_app.
    + rewrite (extract_text_direct E _ _ w Hload)
        by (rewrite Hnb; discriminate).
      cbn [snd]. unfold loads. cbn [calls set_calls]. now rewrite loads_app.
  - rewrite (extract_text_load_fails E _ _ w Hload).
    cbn [snd]. unfold loads. cbn [calls set_calls]. now rewrite loads_app.
Qed.

Lemma index_text_loads text_documents w :
  loads (snd (index_text E text_documents w)) = loads w.
Proof.
  unfold index_text.
  destruct (split_documents E text_splitter text_documents) as [|c cs];
    [reflexivity|].
  unfold bind, print, chroma_from_documents, bind, log_call, raise, ret.
  destruct (Chroma_from_documents E (c :: cs)); cbn [snd]; unfold loads;
    cbn [calls set_calls set_stdout set_chroma_db];
    rewrite loads_app; cbn [is_load_call]; apply app_nil_r.
Qed.

Lemma process_pdf_outcome file_path w w0 :
  fst (process_pdf E file_path w) = fst (process_pdf E file_path w0).
Proof.
  unfold process_pdf, bind.
  pose proof (extract_text_outcome E file_path w w0) as Hsame.
  destruct (extract_text E file_path w) as [[pages|e] w1];
    destruct (extract_text E file_path w0) as [[pages'|e'] w1'];
    cbn [fst] in Hsame; try discriminate; inversion Hsame; subst;
    [apply index_text_outcome | reflexivity].
Qed.

Lemma chunks_of_outcome file_path w w0 :
  chunks_of file_path w = chunks_of file_path w0.
Proof.
  unfold chunks_of. now rewrite (extract_text_outcome E file_path w w0).
Qed.

Lemma run_until_failure_outcome paths w w0 :
  run_until_failure paths w = run_until_failure paths w0.
Proof.
  induction paths as [|file_path rest IH]; [reflexivity|].
  cbn [run_until_failure].
  now rewrite IH, (process_pdf_outcome file_path w w0).
Qed.

Lemma process_pdf_step file_path w :
  let r := process_pdf E file_path w in
  loads (snd r) = (loads w ++ [call_PyPDFLoader_load file_path])%list
  /\ chroma_db (snd r)
     = (chroma_db w ++ match fst r with
                       | Ok _ => chunks_of file_path w
                       | Raise _ => []
                       end)%list.
Proof.
  intros r. unfold r, process_pdf, bind, chunks_of.
  pose proof (extract_text_loads file_path w) as Hl.
  pose proof (extract_text_outside E file_path w) as Hout.
  destruct (extract_text E file_path w) as [[pages|e] w1]; cbn [fst snd] in *;
    destruct Hout as (Hc & _).
  - pose proof (index_text_loads pages w1) as Hl2.
    pose proof (index_text_effect E pages w1) as Hidx. cbv zeta in Hidx.
    destruct Hidx as (_ & _ & _ & _ & Hc2).
    destruct (index_text E pages w1) as [[msg|e] w2]; cbn [fst snd] in *.
    + split; [congruence|]. now rewrite Hc2, Hc.
    + split; [congruence|]. now rewrite Hc2, Hc, app_nil_r.
  - split; [exact Hl|]. now rewrite Hc, app_nil_r.
Qed.

Lemma ingest_files_pdf data_path filename rest h :
  Host.endswith filename ".pdf" = true ->
  Host.ingest_files E data_path (filename :: rest) h
  = match process_pdf E (os_path_join E [data_path; filename])
            (set_stdout (stdout (Host.world h)
                         ++ ["Processing: " ++ filename])
                        (Host.world h)) with
    | (Ok _, w2) =>
        Host.ingest_files E data_path rest
          (Host.mkState w2 (Host.files h) (Host.dirs h))
    | (Raise e, w2) => (Raise e, Host.mkState w2 (Host.files h) (Host.dirs h))
    end.
Proof.
  intros Hpdf. cbn [Host.ingest_files]. rewrite Hpdf.
  unfold Host.hbind, Host.lift, print.
  cbn [Host.world Host.files Host.dirs].
  now destruct (process_pdf E (os_path_join E [data_path; filename]) _)
    as [[msg|e] w2].
Qed.

Lemma ingest_files_spec data_path filenames :
  forall h w0,
    let paths :=
      map (fun filename => os_path_join E [data_path; filename])
          (filter (fun filename => Host.endswith filename ".pdf") filenames) in
    let r := Host.ingest_files E data_path filenames h in
    fst r = match snd (run_until_failure paths w0) with
            | None => Ok tt
            | Some e => Raise e
            end
    /\ chroma_db (Host.world (snd r))
       = (chroma_db (Host.world h)
          ++ concat (map (fun file_path => chunks_of file_path w0)
                         (fst (run_until_failure paths w0))))%list
    /\ loads (Host.world (snd r))
       = (loads (Host.world h)
          ++ map call_PyPDFLoader_load
               (firstn (S (length (fst (run_until_failure paths w0))))
                       paths))%list
    /\ Host.files (snd r) = Host.files h
    /\ Host.dirs (snd r) = Host.dirs h.
Proof.
  induction filenames as [|filename rest IH]; intros h w0.
  - cbn. rewrite !app_nil_r. repeat split.
  - cbv zeta. cbn [filter].
    destruct (Host.endswith filename ".pdf") eqn:Hpdf;
      [|cbn [Host.ingest_files]; rewrite Hpdf; apply IH].
    rewrite (ingest_files_pdf data_path filename rest h Hpdf).
    cbn [map run_until_failure].
    set (file_path := os_path_join E [data_path; filename]).
    match goal with
    | |- context [process_pdf E file_path ?w1] =>
        pose proof (process_pdf_step file_path w1) as Hstep;
        pose proof (process_pdf_outcome file_path w1 w0) as Hsame;
        pose proof (chunks_of_outcome file_path w1 w0) as Hchunks;
        destruct (process_pdf E file_path w1) as [[msg|e] w2]
    end; cbv zeta in Hstep; cbn [fst snd] in Hstep, Hsame;
      destruct Hstep as (Hl & Hc); rewrite <- Hsame;
      unfold loads in Hl; cbn [calls chroma_db set_stdout] in Hl, Hc.
    + match goal with
      | |- context [Host.ingest_files E data_path rest ?h1] =>
          destruct (IH h1 w0) as (Hr & Hc' & Hl' & Hf & Hd)
      end.
      cbn [Host.world Host.files Host.dirs fst snd] in *.
      split; [exact Hr|]. split; [|split; [|split; assumption]].
      * rewrite Hc', Hc, Hchunks. cbn [map concat length].
        now rewrite <- app_assoc.
      * rewrite Hl'. unfold loads at 1. rewrite Hl.
        cbn [length firstn map]. now rewrite <- app_assoc.
    + cbn [fst snd Host.world Host.files Host.dirs length firstn map concat].
      rewrite Hc, !app_nil_r. repeat split. exact Hl.
Qed.

(** X29.  [upload_pdf] answers every request and never raises.  A name
    that does not end in [.pdf] gets the object [{"error": "Only PDF files
    are supported"}], and nothing is written or called.  Otherwise the
    bytes are written, before the file is processed, at the path that
    [os.path.join] gives for [DATA_FOLDER] and the name as the client
    sent it (nothing in the handler keeps that path inside the folder),
    in the place of what an earlier upload wrote at that path, and they
    stay there when processing fails: the response is then
    [{"error": str(e), "status": "failed"}], as it is, with nothing
    written, when the file cannot be opened.  When processing returns,
    its summary is the [result] of the response and the path its
    [file_path]. *)
Theorem upload_keeps_the_file_when_processing_fails filename content h :
  let file_path := os_path_join E [DATA_FOLDER; filename] in
  let failed e :=
    Api.JObj [("error", Api.JStr (exc_str e));
              ("status", Api.JStr "failed")] in
  let r := Host.upload_pdf E DATA_FOLDER open_error filename content h in
  (exists response, fst r = Ok response)
  /\ (Host.endswith filename ".pdf" = false ->
      r = (Ok (Api.JObj [("error",
                          Api.JStr "Only PDF files are supported")]), h))
  /\ (Host.endswith filename ".pdf" = true ->
      match open_error file_path with
      | Some e => r = (Ok (failed e), h)
      | None =>
          In (file_path, content) (Host.files (snd r))
          /\ (forall f, In f (Host.files (snd r)) ->
                fst f = file_path -> snd f = content)
          /\ Host.world (snd r) = snd (process_pdf E file_path (Host.world h))
          /\ fst r
             = match fst (process_pdf E file_path (Host.world h)) with
               | Ok result =>
                   Ok (Api.JObj
                         [("status", Api.JStr "success");
                          ("message",
                           Api.JStr ("PDF '" ++ filename
                                     ++ "' saved and processed successfully"));
                          ("file_path", Api.JStr file_path);
                          ("result", Api.JStr result)])
               | Raise e => Ok (failed e)
               end
      end).
Proof.
  intros file_path failed r. unfold r, Host.upload_pdf. fold file_path.
  destruct (Host.endswith filename ".pdf"); cbn [negb].
  - unfold Host.htry_except, Host.hbind at 1, Host.write_file.
    destruct (open_error file_path) as [e|].
    + split; [eexists; reflexivity|]. split; [discriminate|].
      intros _. reflexivity.
    + unfold Host.hbind, Host.lift, Host.hret.
      cbn [Host.world Host.files Host.dirs].
      destruct (process_pdf E file_path (Host.world h)) as [[result|e] w1];
        cbn [fst snd Host.world Host.files Host.dirs];
        (split; [eexists; reflexivity|]); (split; [discriminate|]);
        intros _; (split; [now left|]);
        (split; [|split; reflexivity]);
        intros f [<-|Hin] Hpath; try reflexivity;
        apply filter_In in Hin; destruct Hin as [_ Hne];
        rewrite Hpath, String.eqb_refl in Hne; discriminate.
  - split; [eexists; reflexivity|]. split; [reflexivity|discriminate].
Qed.

(** X30.  [start_ingestion] without a [./data] folder creates it, prints
    where to put the files, and loads nothing.  With the folder, it
    ingests the files of the listing whose names end in [.pdf], in the
    order of the listing, and stops at the first one for which
    [process_pdf] raises: that exception leaves [start_ingestion], no
    later file is loaded, and the chunks of the files before it stay in
    the index. *)
Theorem start_ingestion_stops_at_first_failure h :
  let data_path := "./data" in
  let paths :=
    map (fun filename => os_path_join E [data_path; filename])
        (filter (fun filename => Host.endswith filename ".pdf")
                (os_listdir data_path)) in
  let done := fst (run_until_failure paths (Host.world h)) in
  let failure := snd (run_until_failure paths (Host.world h)) in
  let r := Host.start_ingestion E os_listdir h in
  (os_path_exists E data_path = false ->
   fst r = Ok tt
   /\ Host.dirs (snd r) = (Host.dirs h ++ [data_path])%list
   /\ calls (Host.world (snd r)) = calls (Host.world h)
   /\ chroma_db (Host.world (snd r)) = chroma_db (Host.world h))
  /\ (os_path_exists E data_path = true ->
      fst r = match failure with
              | None => Ok tt
              | Some e => Raise e
              end
      /\ loads (Host.world (snd r))
         = (loads (Host.world h)
            ++ map call_PyPDFLoader_load
                 (firstn (S (length done)) paths))%list
      /\ chroma_db (Host.world (snd r))
         = (chroma_db (Host.world h)
            ++ concat (map (fun file_path =>
                              chunks_of file_path (Host.world h)) done))%list
      /\ Host.dirs (snd r) = Host.dirs h).
Proof.
  intros data_path paths done failure r.
  unfold r, Host.start_ingestion. fold data_path.
  split; intros Hex; rewrite Hex; cbn [negb].
  - repeat split.
  - unfold Host.hbind.
    destruct (ingest_files_spec data_path (os_listdir data_path) h
                (Host.world h)) as (Hr & Hc & Hl & Hf & Hd).
    fold paths in Hr, Hc, Hl. fold done in Hc, Hl. fold failure in Hr.
    destruct (Host.ingest_files E data_path (os_listdir data_path) h)
      as [[[]|e] h1]; cbn [fst snd] in *.
    + unfold Host.lift, print. cbn [fst snd Host.world Host.dirs].
      unfold loads in *. cbn [calls chroma_db set_stdout].
      repeat split; assumption.
    + repeat split; assumption.
Qed.

End HostProperties.

(** * The further properties on concrete inputs *)

Lemma question_is_stored_first_witness :
  exists w' rest,
    Main.chat_turn Scenarios.rate_limited "c1" "hi" Scenarios.open_chat
    = (Ok tt, w')
    /\ messages (database w') = mkMessage "c1" "user" "hi" :: rest
    /\ rest = [].
Proof.
  destruct (question_is_stored_first Scenarios.rate_limited "c1" "hi"
              Scenarios.open_chat eq_refl eq_refl)
    as (w' & rest & Hturn & Hmsgs & _ & Hfailed).
  exists w', rest. split; [exact Hturn|]. split; [exact Hmsgs|].
  eapply Hfailed. reflexivity.
Defined.

Lemma first_question_names_the_conversation_witness :
  conversations
    (database (snd (Main.chat_turn Scenarios.greeting "c1" "hi"
                      Scenarios.open_chat)))
  = [mkConversation "c1" "hi"]
  /\ conversations
       (database (snd (Main.chat_turn Scenarios.greeting "c1" "and now?"
                         Cases.two_chats)))
     = conversations Cases.chats.
Proof.
  split.
  - destruct (first_question_names_the_conversation Scenarios.greeting
                "c1" "hi" Scenarios.open_chat eq_refl eq_refl) as [Hfirst _].
    now rewrite Hfirst.
  - destruct (first_question_names_the_conversation Scenarios.greeting
                "c1" "and now?" Cases.two_chats eq_refl eq_refl)
      as [_ Hlater].
    rewrite Hlater; [reflexivity | discriminate].
Defined.

Lemma unknown_conversation_stores_nothing_witness :
  exists w',
    Main.chat_turn Scenarios.greeting "c9" "hi" Cases.two_chats = (Ok tt, w')
    /\ database w' = Cases.chats
    /\ ws_sent w'
       = [Main.status_event; Main.chunk_event "Hel"; Main.chunk_event "lo";
          Main.end_event].
Proof.
  destruct (unknown_conversation_stores_nothing Scenarios.greeting "c9" "hi"
              Cases.two_chats eq_refl) as (w' & Hturn & Hdb & Hsent).
  exists w'. split; [exact Hturn|]. split; [exact Hdb | exact Hsent].
Defined.

Lemma unknown_conversation_is_404_witness :
  fst (Api.delete_conversation "c9" Cases.two_chats) = Raise Api.not_found
  /\ database (snd (Api.delete_conversation "c9" Cases.two_chats))
     = Cases.chats.
Proof.
  destruct (unknown_conversation_is_404 Scenarios.greeting
              Delete "c9" Cases.two_chats eq_refl eq_refl)
    as (Hraise & _ & Hdb & _).
  split; [exact Hraise | exact Hdb].
Defined.

Lemma store_failure_is_an_error_response_witness :
  fst (Api.add_message Scenarios.greeting "c1" "user" "hi"
         Cases.store_down)
  = Ok (Api.JObj
          [("status", Api.JStr "error");
           ("error",
            Api.JStr "connection to server failed: Connection refused")]).
Proof.
  destruct (store_failure_is_an_error_response Scenarios.greeting
              (Add "user" "hi") "c1" Cases.store_down
              Cases.connection_refused eq_refl eq_refl) as [Hresponse _].
  exact Hresponse.
Defined.


Lemma add_message_stores_like_a_turn_witness :
  database (snd (Api.add_message Scenarios.greeting "c2"
                   "user" "What is Rocq?" Cases.two_chats))
  = database (snd (Main.save_user_message Scenarios.greeting "c2"
                     "What is Rocq?" Cases.two_chats)).
Proof.
  exact (add_message_stores_like_a_turn Scenarios.greeting
           "c2" "What is Rocq?" (mkConversation "c2" "New Chat")
           Cases.two_chats eq_refl eq_refl).
Defined.


Lemma delete_removes_the_conversation_witness :
  let w1 := snd (Api.delete_conversation "c1" Cases.two_chats) in
  conversation_exists "c1" w1 = false
  /\ fst (Api.get_conversation "c1" w1) = Raise Api.not_found.
Proof.
  destruct (delete_removes_the_conversation "c1" (mkConversation "c1" "hi")
              Cases.two_chats eq_refl eq_refl eq_refl)
    as (Hgone & _ & _ & _ & _ & Hget).
  split; [exact Hgone | exact Hget].
Defined.


Lemma endpoints_keep_references_witness :
  referential_integrity Cases.chats = true
  /\ referential_integrity
       (database (snd (Api.delete_conversation "c1" Cases.two_chats))) = true.
Proof.
  split; [reflexivity|].
  exact (endpoints_keep_references Scenarios.greeting Delete
           "c1" Cases.two_chats eq_refl).
Defined.

Lemma session_keeps_references_witness :
  referential_integrity
    (database (snd (Main.chat_socket Scenarios.greeting "c2"
                      ["hi"; "and now?"] Cases.two_chats))) = true.
Proof.
  exact (session_keeps_references Scenarios.greeting "c2" ["hi"; "and now?"]
           Cases.two_chats eq_refl).
Defined.

Lemma upload_keeps_the_file_when_processing_fails_witness :
  let r := Host.upload_pdf Cases.library "./data" Cases.read_only
             "broken.pdf" "%PDF-1.4" Cases.empty_host in
  fst r = Ok (Api.JObj [("error", Api.JStr "Stream has ended unexpectedly");
                        ("status", Api.JStr "failed")])
  /\ In ("./data/broken.pdf", "%PDF-1.4") (Host.files (snd r)).
Proof.
  destruct (upload_keeps_the_file_when_processing_fails Cases.library "./data"
              Cases.read_only "broken.pdf" "%PDF-1.4" Cases.empty_host)
    as (_ & _ & Hpdf).
  destruct (Hpdf eq_refl) as (Hsaved & _ & _ & Hresponse).
  split; [exact Hresponse | exact Hsaved].
Defined.

Lemma start_ingestion_stops_at_first_failure_witness :
  let r := Host.start_ingestion Cases.library Cases.listing Cases.empty_host in
  fst r = Raise Cases.unreadable
  /\ loads (Host.world (snd r))
     = [call_PyPDFLoader_load "./data/cv.pdf";
        call_PyPDFLoader_load "./data/broken.pdf"]
  /\ chroma_db (Host.world (snd r))
     = [mkDocument "Text of ./data/cv.pdf"
          [("source", MStr "./data/cv.pdf"); ("page", MInt 0)]].
Proof.
  destruct (start_ingestion_stops_at_first_failure Cases.library Cases.listing
              Cases.empty_host) as (_ & Hfolder).
  destruct (Hfolder eq_refl) as (Hr & Hl & Hc & _).
  split; [exact Hr|]. split; [exact Hl | exact Hc].
Defined.
